(** * Reservation engine, expiry sweeper and payment-address pool

    A shallow embedding of the transactional core of the shop bot:
    - [bot/database/methods/inventory.py]: reserve, release, deduct, restock
      and the expiry sweep;
    - [bot/payments/bitcoin.py]: the single-use payment-address pool and its
      backing file;
    - [bot_cli.py]: the administrative confirm and deliver transitions.

    Python integers are [Z]; a database session is a pair of stores (what is
    committed and what the session sees) with the list of commit, rollback
    and close calls issued on it; fire-and-forget side effects (cache
    invalidation, metrics, log records, notifications) are collected in a
    list of effects returned next to the result. *)

From stdpp Require Import base option list gmap strings pretty.
From Stdlib Require Import ZArith Lia Ascii String.

Open Scope Z_scope.

(** ** Tables *)

(** Modelled from the spec: the table declarations of
    [bot/database/models/main.py] are not among the sources. The fields are
    the ones the engine reads and writes (and section 3 of the specification
    lists); monetary columns are counted in minor units. *)
Module Goods.
Record t := mk {
  stock_quantity : Z;
  reserved_quantity : Z
}.

Definition set_stock_quantity (v : Z) (g : t) : t :=
  mk v (reserved_quantity g).

Definition set_reserved_quantity (v : Z) (g : t) : t :=
  mk (stock_quantity g) v.

(* the derived column: never reported below zero *)
Definition available_quantity (g : t) : Z :=
  Z.max (stock_quantity g - reserved_quantity g) 0.
End Goods.

(* the values the column order_status takes *)
Module Status.
Inductive t :=
  | pending | reserved | confirmed | delivered
  | cancelled | canceled | expired | completed.
End Status.

Global Instance Status_eq_dec : EqDecision Status.t.
Proof. solve_decision. Defined.

Inductive PaymentMethod := cash | bitcoin.

Global Instance PaymentMethod_eq_dec : EqDecision PaymentMethod.
Proof. solve_decision. Defined.

(* str(payment_method) *)
Definition payment_method_str (p : PaymentMethod) : string :=
  match p with cash => "cash" | bitcoin => "bitcoin" end.

Module OrderItem.
Record t := mk {
  item_name : string;
  quantity : Z
}.
End OrderItem.

(** One entry of the [items] argument of [reserve_inventory]: a dict with
    the keys ['item_name'] and ['quantity']. *)
Module ItemData.
Record t := mk {
  item_name : string;
  quantity : Z
}.
End ItemData.

Module Order.
Record t := mk {
  id : Z;
  buyer_id : Z;
  order_code : option string;
  order_status : Status.t;
  payment_method : PaymentMethod;
  reserved_until : option Z;          (* seconds since the epoch, UTC *)
  bonus_applied : option Z;
  total_price : Z;
  delivery_time : option Z;
  completed_at : option Z;
  items : list OrderItem.t            (* the relationship Order.items *)
}.

Definition set_order_status (v : Status.t) (o : t) : t :=
  mk (id o) (buyer_id o) (order_code o) v (payment_method o)
     (reserved_until o) (bonus_applied o) (total_price o)
     (delivery_time o) (completed_at o) (items o).

Definition set_reserved_until (v : option Z) (o : t) : t :=
  mk (id o) (buyer_id o) (order_code o) (order_status o) (payment_method o)
     v (bonus_applied o) (total_price o)
     (delivery_time o) (completed_at o) (items o).

Definition set_delivery_time (v : option Z) (o : t) : t :=
  mk (id o) (buyer_id o) (order_code o) (order_status o) (payment_method o)
     (reserved_until o) (bonus_applied o) (total_price o)
     v (completed_at o) (items o).

Definition set_completed_at (v : option Z) (o : t) : t :=
  mk (id o) (buyer_id o) (order_code o) (order_status o) (payment_method o)
     (reserved_until o) (bonus_applied o) (total_price o)
     (delivery_time o) v (items o).

(* f"{order.order_code or order_id}": an empty code is falsy *)
Definition code_or_id (o : t) (order_id : Z) : string :=
  match order_code o with
  | Some c => if decide (c = "") then pretty order_id else c
  | None => pretty order_id
  end.
End Order.

Inductive ChangeType := ct_reserve | ct_release | ct_deduct | ct_add | ct_manual.

Module InventoryLog.
Record t := mk {
  item_name : string;
  change_type : ChangeType;
  quantity_change : Z;
  order_id : option Z;
  admin_id : option Z;
  comment : option string
}.
End InventoryLog.

Module CustomerInfo.
Record t := mk {
  bonus_balance : Z
}.
End CustomerInfo.

Module BitcoinAddress.
Record t := mk {
  is_used : bool;
  used_by : option Z;
  used_at : option Z;
  order_id : option Z
}.

(* BitcoinAddress(address=address): a fresh, unused row *)
Definition fresh : t := mk false None None None.
End BitcoinAddress.

(** The relational store. [goods] is keyed by the unique item name,
    [bitcoin_addresses] by the address, [customer_info] by the Telegram id;
    [orders] keeps the rows in table order, since the sweep walks them.
    [cash_order_timeout_hours] is the integer that [int(setting_value)] yields
    for the row of that key in [BotSettings]; it is [None] when the row is
    missing, empty or not a number. *)
Record DB := mkDB {
  goods : gmap string Goods.t;
  orders : list Order.t;
  inventory_log : list InventoryLog.t;
  customer_info : gmap Z CustomerInfo.t;
  bitcoin_addresses : gmap string BitcoinAddress.t;
  cash_order_timeout_hours : option Z
}.

Definition set_goods (v : gmap string Goods.t) (d : DB) : DB :=
  mkDB v (orders d) (inventory_log d) (customer_info d)
       (bitcoin_addresses d) (cash_order_timeout_hours d).

Definition set_orders (v : list Order.t) (d : DB) : DB :=
  mkDB (goods d) v (inventory_log d) (customer_info d)
       (bitcoin_addresses d) (cash_order_timeout_hours d).

Definition set_inventory_log (v : list InventoryLog.t) (d : DB) : DB :=
  mkDB (goods d) (orders d) v (customer_info d)
       (bitcoin_addresses d) (cash_order_timeout_hours d).

Definition set_customer_info (v : gmap Z CustomerInfo.t) (d : DB) : DB :=
  mkDB (goods d) (orders d) (inventory_log d) v
       (bitcoin_addresses d) (cash_order_timeout_hours d).

Definition set_bitcoin_addresses (v : gmap string BitcoinAddress.t) (d : DB) : DB :=
  mkDB (goods d) (orders d) (inventory_log d) (customer_info d)
       v (cash_order_timeout_hours d).

(* session.query(Order).filter_by(id=order_id).first() *)
Fixpoint first_order (order_id : Z) (rows : list Order.t) : option Order.t :=
  match rows with
  | [] => None
  | o :: rest =>
      if decide (Order.id o = order_id) then Some o else first_order order_id rest
  end.

(* session.query(Order).filter_by(order_code=order_code).first() *)
Fixpoint first_order_by_code (code : string) (rows : list Order.t) : option Order.t :=
  match rows with
  | [] => None
  | o :: rest =>
      if decide (Order.order_code o = Some code) then Some o
      else first_order_by_code code rest
  end.

(* an attribute write on the row object that [first_order] returned *)
Fixpoint update_order (order_id : Z) (f : Order.t → Order.t)
    (rows : list Order.t) : list Order.t :=
  match rows with
  | [] => []
  | o :: rest =>
      if decide (Order.id o = order_id) then f o :: rest
      else o :: update_order order_id f rest
  end.

(** ** Sessions *)

Inductive SessionOp := Commit | Rollback | Close.

Global Instance SessionOp_eq_dec : EqDecision SessionOp.
Proof. solve_decision. Defined.

(** A session on the store: [committed] is what the database holds,
    [pending] what the session sees (its uncommitted writes included),
    [ops] the transaction calls issued on it, oldest first. *)
Record Session := mkSession {
  committed : DB;
  pending : DB;
  ops : list SessionOp
}.

(* [session is None] *)
Definition is_None {A} (x : option A) : bool :=
  match x with None => true | Some _ => false end.

(* Database().session() *)
Definition Database_session (db : DB) : Session := mkSession db db [].

Definition session_commit (s : Session) : Session :=
  mkSession (pending s) (pending s) (ops s ++ [Commit]).

Definition session_rollback (s : Session) : Session :=
  mkSession (committed s) (committed s) (ops s ++ [Rollback]).

(* closing ends the transaction: what was not committed is gone *)
Definition session_close (s : Session) : Session :=
  mkSession (committed s) (committed s) (ops s ++ [Close]).

(* a write through the session *)
Definition session_write (f : DB → DB) (s : Session) : Session :=
  mkSession (committed s) (f (pending s)) (ops s).

(** ** Effects outside the transaction *)

Inductive LogLevel := DEBUG | INFO | WARNING | ERROR | CRITICAL.

Global Instance LogLevel_eq_dec : EqDecision LogLevel.
Proof. solve_decision. Defined.

Inductive Effect :=
  | CacheInvalidated (item_name : string)          (* safe_create_task(invalidate_item_cache(..)) *)
  | MetricTracked (event item : string) (quantity : Z)
  | Logged (level : LogLevel) (order_id : option Z) (* logger.<level>(..), about an order or about the task *)
  | CsvSynced (telegram_id : Z)                    (* sync_customer_to_csv *)
  | MessageSent (telegram_id : Z)                  (* bot.send_message *)
  | OrderCancellationLogged (order_id : Z)         (* log_order_cancellation *)
  | AddressAssignmentLogged (address : string) (order_id : Z).

(** What a function either returns or leaves by an exception that nothing
    inside it catches. *)
Inductive Outcome (A : Type) :=
  | Returned (a : A)
  | Raised.
Arguments Returned {A} a.
Arguments Raised {A}.

(** What the functions read from their surroundings: the clock, the owner
    id of the environment, whether the process-wide metrics collector is
    installed, and which calls to the collaborators raise. *)
Record Env := mkEnv {
  now : Z;
  owner_id : Z;                      (* int(os.getenv('OWNER_ID', 0)) *)
  metrics : bool;
  csv_sync_raises : Z → bool;
  send_message_raises : Z → bool
}.

Definition timedelta_hours (h : Z) : Z := h * 3600.
Definition timedelta_days (d : Z) : Z := d * 86400.

(** Date arithmetic of the interpreter: it gives a value, in seconds, or
    raises OverflowError, of which [str_e] is the text. *)
Inductive Arith :=
  | Value (seconds : Z)
  | OverflowError (str_e : string).

(* timedelta(hours=hours): the day count stays within 999999999 days either
   side, and is a C int when the message prints it *)
Definition timedelta (hours : Z) : Arith :=
  let days := hours / 24 in
  if decide (-999999999 ≤ days ≤ 999999999) then Value (timedelta_hours hours)
  else if decide (-2147483648 ≤ days ≤ 2147483647) then
    OverflowError ("days=" +:+ pretty days +:+ "; must have magnitude <= 999999999")
  else OverflowError "Python int too large to convert to C int".

(* datetime.min and datetime.max, in seconds since the epoch *)
Definition datetime_min : Z := -62135596800.
Definition datetime_max : Z := 253402300799.

(* datetime + timedelta: the sum is a date of the years 1 to 9999 *)
Definition datetime_add (t : Z) (delta : Arith) : Arith :=
  match delta with
  | Value d =>
      if decide (datetime_min ≤ t + d ≤ datetime_max) then Value (t + d)
      else OverflowError "date value out of range"
  | OverflowError str_e => OverflowError str_e
  end.

Arguments timedelta : simpl never.
Arguments datetime_add : simpl never.

(** ** bot/database/methods/read.py *)

(* get_bot_setting('cash_order_timeout_hours', default=24, value_type=int) *)
Definition get_bot_setting_cash_order_timeout_hours (db : DB) (default : Z) : Z :=
  match cash_order_timeout_hours db with
  | Some v => v
  | None => default
  end.

(** ** bot/database/methods/inventory.py *)

Module Inventory.

Definition log_inventory_change (db : DB) (item_name : string)
    (change_type : ChangeType) (quantity_change : Z)
    (order_id : option Z) (admin_id : option Z) (comment : option string)
    (session : option Session) : Session :=
  let should_commit := is_None session in
  let session := default (Database_session db) session in
  let log_entry :=
    InventoryLog.mk item_name change_type quantity_change order_id admin_id comment in
  let session :=
    session_write (λ d, set_inventory_log (inventory_log d ++ [log_entry]) d) session in
  let session := if should_commit then session_commit session else session in
  if should_commit then session_close session else session.

(* the body of the loop [for item_data in items] of reserve_inventory; the
   first component is [Some r] when the loop left the function with
   [return r] *)
Fixpoint reserve_items (order : Order.t) (order_id : Z)
    (payment_method : PaymentMethod) (items : list ItemData.t)
    (session : Session) (tasks : list Effect)
    : option (bool * string) * Session * list Effect :=
  match items with
  | [] => (None, session, tasks)
  | item_data :: rest =>
      let item_name := ItemData.item_name item_data in
      let quantity := ItemData.quantity item_data in
      match goods (pending session) !! item_name with
      | None =>
          (Some (false, "Item '" +:+ item_name +:+ "' not found"),
           session_rollback session, tasks)
      | Some g =>
          let available := Goods.stock_quantity g - Goods.reserved_quantity g in
          if decide (available < quantity) then
            (Some (false,
                   "Insufficient stock for '" +:+ item_name +:+ "'. Available: "
                   +:+ pretty available +:+ ", Requested: " +:+ pretty quantity),
             session_rollback session, tasks)
          else
            let g := Goods.set_reserved_quantity (Goods.reserved_quantity g + quantity) g in
            let session :=
              session_write (λ d, set_goods (<[item_name := g]> (goods d)) d) session in
            let session :=
              log_inventory_change (committed session) item_name ct_reserve quantity
                (Some order_id) None
                (Some ("Reserved for order " +:+ Order.code_or_id order order_id
                       +:+ " (" +:+ payment_method_str payment_method +:+ " payment)"))
                (Some session) in
            reserve_items order order_id payment_method rest session
              (tasks ++ [CacheInvalidated item_name])
      end
  end.

(** Of what the [try] block can raise, the deadline is what depends on the
    data: the stored timeout is any integer that the settings hold, and
    [timedelta] and the addition raise OverflowError out of their range.
    The [except] branch rolls back a session of its own only. *)
Definition reserve_inventory (db : DB) (env : Env) (order_id : Z)
    (items : list ItemData.t) (payment_method : option PaymentMethod)
    (session : option Session) : (bool * string) * Session * list Effect :=
  let should_commit := is_None session in
  let session := default (Database_session db) session in
  let finally (s : Session) := if should_commit then session_close s else s in
  match first_order order_id (orders (pending session)) with
  | None => ((false, "Order not found"), finally session, [])
  | Some order =>
      let payment_method := default (Order.payment_method order) payment_method in
      match reserve_items order order_id payment_method items session [] with
      | (Some r, session, tasks) => (r, finally session, tasks)
      | (None, session, tasks) =>
          let timeout_hours :=
            get_bot_setting_cash_order_timeout_hours (committed session) 24 in
          match datetime_add (now env) (timedelta timeout_hours) with
          | Value reserved_until =>
              let session :=
                session_write (λ d, set_orders (update_order order_id
                  (Order.set_reserved_until (Some reserved_until))
                  (orders d)) d) session in
              let session :=
                session_write (λ d, set_orders (update_order order_id
                  (Order.set_order_status Status.reserved) (orders d)) d) session in
              let session := if should_commit then session_commit session else session in
              ((true, "Inventory reserved successfully"), finally session, tasks)
          | OverflowError str_e =>
              (* except Exception as e *)
              let session := if should_commit then session_rollback session else session in
              ((false, "Error reserving inventory: " +:+ str_e), finally session, tasks)
          end
      end
  end.

(* for order_item in order.items (release_reservation) *)
Fixpoint release_items (order : Order.t) (order_id : Z) (reason : string)
    (order_items : list OrderItem.t) (session : Session) (tasks : list Effect)
    : Session * list Effect :=
  match order_items with
  | [] => (session, tasks)
  | order_item :: rest =>
      let item_name := OrderItem.item_name order_item in
      match goods (pending session) !! item_name with
      | Some g =>
          let g := Goods.set_reserved_quantity
                     (Goods.reserved_quantity g - OrderItem.quantity order_item) g in
          let g := if decide (Goods.reserved_quantity g < 0)
                   then Goods.set_reserved_quantity 0 g else g in
          let session :=
            session_write (λ d, set_goods (<[item_name := g]> (goods d)) d) session in
          let session :=
            log_inventory_change (committed session) item_name ct_release
              (- OrderItem.quantity order_item) (Some order_id) None
              (Some (reason +:+ " - " +:+ Order.code_or_id order order_id))
              (Some session) in
          release_items order order_id reason rest session
            (tasks ++ [CacheInvalidated item_name])
      | None => release_items order order_id reason rest session tasks
      end
  end.

(* metrics.track_event(event, None, {...}) for every line of the order *)
Definition track_items (env : Env) (event : string) (order : Order.t) : list Effect :=
  if metrics env then
    (λ order_item,
       MetricTracked event (OrderItem.item_name order_item)
         (OrderItem.quantity order_item)) <$> Order.items order
  else [].

Definition release_reservation (db : DB) (env : Env) (order_id : Z)
    (reason : string) (session : option Session)
    : (bool * string) * Session * list Effect :=
  let should_commit := is_None session in
  let session := default (Database_session db) session in
  let finally (s : Session) := if should_commit then session_close s else s in
  match first_order order_id (orders (pending session)) with
  | None => ((false, "Order not found"), finally session, [])
  | Some order =>
      let '(session, tasks) :=
        release_items order order_id reason (Order.items order) session [] in
      let session :=
        session_write (λ d, set_orders (update_order order_id
          (Order.set_reserved_until None) (orders d)) d) session in
      let session := if should_commit then session_commit session else session in
      ((true, "Reservation released successfully"), finally session,
       tasks ++ track_items env "inventory_released" order)
  end.

(* for order_item in order.items (deduct_inventory) *)
Fixpoint deduct_items (order : Order.t) (order_id : Z) (admin_id : option Z)
    (order_items : list OrderItem.t) (session : Session) (tasks : list Effect)
    : option (bool * string) * Session * list Effect :=
  match order_items with
  | [] => (None, session, tasks)
  | order_item :: rest =>
      let item_name := OrderItem.item_name order_item in
      match goods (pending session) !! item_name with
      | None =>
          (Some (false, "Item '" +:+ item_name +:+ "' not found"),
           session_rollback session, tasks)
      | Some g =>
          let g := Goods.set_stock_quantity
                     (Goods.stock_quantity g - OrderItem.quantity order_item) g in
          let g := Goods.set_reserved_quantity
                     (Goods.reserved_quantity g - OrderItem.quantity order_item) g in
          let session :=
            session_write (λ d, set_goods (<[item_name := g]> (goods d)) d) session in
          if decide (Goods.stock_quantity g < 0) then
            (Some (false, "Stock would go negative for '" +:+ item_name +:+ "'"),
             session_rollback session, tasks)
          else
            let g := if decide (Goods.reserved_quantity g < 0)
                     then Goods.set_reserved_quantity 0 g else g in
            let session :=
              session_write (λ d, set_goods (<[item_name := g]> (goods d)) d) session in
            let session :=
              log_inventory_change (committed session) item_name ct_deduct
                (- OrderItem.quantity order_item) (Some order_id) admin_id
                (Some ("Order confirmed: " +:+ Order.code_or_id order order_id))
                (Some session) in
            deduct_items order order_id admin_id rest session
              (tasks ++ [CacheInvalidated item_name])
      end
  end.

Definition deduct_inventory (db : DB) (env : Env) (order_id : Z)
    (admin_id : option Z) (session : option Session)
    : (bool * string) * Session * list Effect :=
  let should_commit := is_None session in
  let session := default (Database_session db) session in
  let finally (s : Session) := if should_commit then session_close s else s in
  match first_order order_id (orders (pending session)) with
  | None => ((false, "Order not found"), finally session, [])
  | Some order =>
      match deduct_items order order_id admin_id (Order.items order) session [] with
      | (Some r, session, tasks) => (r, finally session, tasks)
      | (None, session, tasks) =>
          let session :=
            session_write (λ d, set_orders (update_order order_id
              (Order.set_reserved_until None) (orders d)) d) session in
          let session := if should_commit then session_commit session else session in
          ((true, "Inventory deducted successfully"), finally session,
           tasks ++ track_items env "inventory_deducted" order)
      end
  end.

(* [comment or "Stock added"] *)
Definition comment_or (comment : option string) (fallback : string) : string :=
  match comment with
  | Some c => if decide (c = "") then fallback else c
  | None => fallback
  end.

Definition add_inventory (db : DB) (item_name : string) (quantity : Z)
    (admin_id : option Z) (comment : option string) (session : option Session)
    : (bool * string) * Session * list Effect :=
  let should_commit := is_None session in
  let session := default (Database_session db) session in
  let finally (s : Session) := if should_commit then session_close s else s in
  match goods (pending session) !! item_name with
  | None => ((false, "Item '" +:+ item_name +:+ "' not found"), finally session, [])
  | Some g =>
      let g := Goods.set_stock_quantity (Goods.stock_quantity g + quantity) g in
      let session :=
        session_write (λ d, set_goods (<[item_name := g]> (goods d)) d) session in
      let session :=
        log_inventory_change (committed session) item_name ct_add quantity None admin_id
          (Some (comment_or comment "Stock added")) (Some session) in
      let session := if should_commit then session_commit session else session in
      ((true, "Added " +:+ pretty quantity +:+ " units to " +:+ item_name),
       finally session, [CacheInvalidated item_name])
  end.

(* the dict {'stock', 'reserved', 'available'} as a triple *)
Definition get_inventory_stats (db : DB) (item_name : string) : option (Z * Z * Z) :=
  match goods db !! item_name with
  | None => None
  | Some g =>
      Some (Goods.stock_quantity g, Goods.reserved_quantity g,
            Goods.available_quantity g)
  end.

(* Order.order_status == 'reserved' and Order.reserved_until < now; a NULL
   deadline compares as unknown and the row is not selected *)
Definition is_expired (now : Z) (o : Order.t) : bool :=
  bool_decide (Order.order_status o = Status.reserved) &&
  match Order.reserved_until o with
  | Some t => bool_decide (t < now)
  | None => false
  end.

(* the block [if order.bonus_applied and order.bonus_applied > 0] of the
   sweep; [Raised] when sync_customer_to_csv raises, the failure of the
   notification is caught and logged *)
Definition refund_bonus (env : Env) (order : Order.t) (session : Session)
    : Outcome unit * Session * list Effect :=
  match Order.bonus_applied order with
  | Some bonus =>
      if decide (bonus > 0) then
        match customer_info (pending session) !! Order.buyer_id order with
        | Some info =>
            let info := CustomerInfo.mk (CustomerInfo.bonus_balance info + bonus) in
            let session :=
              session_write (λ d, set_customer_info
                (<[Order.buyer_id order := info]> (customer_info d)) d) session in
            if csv_sync_raises env (Order.buyer_id order) then (Raised, session, [])
            else
              (Returned (), session,
               [CsvSynced (Order.buyer_id order)]
               ++ (if send_message_raises env (Order.buyer_id order)
                   then [Logged WARNING (Some (Order.id order))]
                   else [MessageSent (Order.buyer_id order);
                         Logged INFO (Some (Order.id order))])
               ++ [Logged INFO (Some (Order.id order))])
        | None => (Returned (), session, [])
        end
      else (Returned (), session, [])
  | None => (Returned (), session, [])
  end.

(* for order in expired_orders; the rows are the session's own objects, and
   the columns read from [order] here are not written by the release *)
Fixpoint cleanup_orders (env : Env) (expired_orders : list Order.t)
    (session : Session) (count : Z) (order_codes : list string)
    (effects : list Effect)
    : Outcome (Z * list string) * Session * list Effect :=
  match expired_orders with
  | [] => (Returned (count, order_codes), session, effects)
  | order :: rest =>
      let '((success, message), session, released) :=
        release_reservation (committed session) env (Order.id order)
          "Reservation timeout expired" (Some session) in
      let effects := effects ++ released in
      if success then
        let session :=
          session_write (λ d, set_orders (update_order (Order.id order)
            (Order.set_order_status Status.expired) (orders d)) d) session in
        match refund_bonus env order session with
        | (Raised, session, refunded) => (Raised, session, effects ++ refunded)
        | (Returned _, session, refunded) =>
            cleanup_orders env rest session (count + 1)
              (order_codes ++ [Order.code_or_id order (Order.id order)])
              (effects ++ refunded ++ [OrderCancellationLogged (Order.id order)])
        end
      else cleanup_orders env rest session count order_codes effects
  end.

(* the database it leaves is [committed] of the session it returns *)
Definition cleanup_expired_reservations (db : DB) (env : Env)
    : Outcome (Z * list string) * Session * list Effect :=
  let session := Database_session db in
  let expired_orders := List.filter (is_expired (now env)) (orders (pending session)) in
  match cleanup_orders env expired_orders session 0 [] [] with
  | (Returned r, session, effects) =>
      let session := session_commit session in
      (Returned r, session_close session, effects)
  | (Raised, session, effects) => (Raised, session_close session, effects)
  end.

End Inventory.

(** ** bot/tasks/reservation_cleaner.py *)

Module ReservationCleaner.

(* one turn of the [while True] loop: the database it leaves, the seconds it
   sleeps before the next turn, and its effects *)
Definition run_reservation_cleaner_turn (db : DB) (env : Env)
    : DB * Z * list Effect :=
  match Inventory.cleanup_expired_reservations db env with
  | (Returned (count, order_codes), session, effects) =>
      (committed session, 60,
       effects ++ (if decide (count > 0) then [Logged INFO None] else []))
  | (Raised, session, effects) =>
      (committed session, 120, effects ++ [Logged ERROR None])
  end.

(* [turns] turns of the loop, the clock moving on by each sleep *)
Fixpoint run_reservation_cleaner (turns : nat) (db : DB) (env : Env) : DB :=
  match turns with
  | O => db
  | S turns =>
      let '(db, sleep, _) := run_reservation_cleaner_turn db env in
      run_reservation_cleaner turns db
        (mkEnv (now env + sleep) (owner_id env) (metrics env)
               (csv_sync_raises env) (send_message_raises env))
  end.

End ReservationCleaner.

(** ** bot/payments/bitcoin.py *)

Module Bitcoin.

(* str.isspace on the ASCII range *)
Definition isspace (c : ascii) : bool :=
  let n := Ascii.nat_of_ascii c in
  ((9 <=? n) && (n <=? 13) || (28 <=? n) && (n <=? 32))%nat.

Fixpoint lstrip (s : string) : string :=
  match s with
  | EmptyString => EmptyString
  | String c rest => if isspace c then lstrip rest else s
  end.

Fixpoint rstrip (s : string) : string :=
  match s with
  | EmptyString => EmptyString
  | String c rest =>
      match rstrip rest with
      | EmptyString => if isspace c then EmptyString else String c EmptyString
      | rest' => String c rest'
      end
  end.

(* line.strip() *)
Definition strip (s : string) : string := rstrip (lstrip s).

(* stripped.startswith('#') *)
Definition is_comment (stripped : string) : bool :=
  match stripped with
  | String "#" _ => true
  | _ => false
  end.

(** The file btc_addresses.txt: [None] when it does not exist, else its
    lines without their newline. *)
Definition AddressFile := option (list string).

(* the list comprehension of load_bitcoin_addresses_from_file *)
Definition file_addresses (lines : list string) : list string :=
  strip <$> List.filter
    (λ line, negb (bool_decide (strip line = "")) && negb (is_comment (strip line)))
    lines.

(** Modelled from the spec: the declaration of the table of addresses is
    not among the sources; the pool holds one row per address, the address
    being its key. [session.add] puts a row among the new objects of the
    session, here the list [new] of their addresses; a flush INSERTs them in
    turn, and a row whose address the table holds already makes it fail
    (IntegrityError), which the functions below do not catch. *)
Fixpoint flush (new : list string) (session : Session) : Outcome Session :=
  match new with
  | [] => Returned session
  | address :: rest =>
      match bitcoin_addresses (pending session) !! address with
      | Some _ => Raised
      | None =>
          flush rest
            (session_write (λ d, set_bitcoin_addresses
               (<[address := BitcoinAddress.fresh]> (bitcoin_addresses d)) d) session)
      end
  end.

(** The loop [for address in addresses], shared by the load from the file
    and by the bulk addition. [autoflush] is the setting of the session
    factory of [bot/database/main.py], which is not among the sources: with
    it (the default of SQLAlchemy) a query first flushes the rows added so
    far; without it (the factory of tests/conftest.py is made with
    autoflush=False) a query sees only what the table held before. *)
Fixpoint load_addresses (autoflush : bool) (addresses : list string)
    (session : Session) (new : list string) (loaded_count : Z)
    : Outcome (Session * list string * Z) :=
  match addresses with
  | [] => Returned (session, new, loaded_count)
  | address :: rest =>
      match (if autoflush then flush new session else Returned session) with
      | Raised => Raised
      | Returned session =>
          let new := if autoflush then [] else new in
          match bitcoin_addresses (pending session) !! address with
          | Some _ => load_addresses autoflush rest session new loaded_count
          | None =>
              load_addresses autoflush rest session (new ++ [address])
                (loaded_count + 1)
          end
      end
  end.

(* the loop, and the flush with which [session.commit()] begins *)
Definition load_and_flush (autoflush : bool) (addresses : list string)
    (session : Session) : Outcome (Session * Z) :=
  match load_addresses autoflush addresses session [] 0 with
  | Raised => Raised
  | Returned (session, new, loaded_count) =>
      match flush new session with
      | Raised => Raised
      | Returned session => Returned (session, loaded_count)
      end
  end.

(** When the commit raises, the session of the [with] block is closed and
    the exception leaves the function. *)
Definition load_bitcoin_addresses_from_file (autoflush : bool) (db : DB)
    (file : AddressFile) : Outcome Z * DB * AddressFile :=
  match file with
  | None => (Returned 0, db, Some [])
  | Some lines =>
      match file_addresses lines with
      | [] => (Returned 0, db, file)
      | addresses =>
          let session := Database_session db in
          match load_and_flush autoflush addresses session with
          | Raised => (Raised, committed (session_close session), file)
          | Returned (session, loaded_count) =>
              let session := session_commit session in
              (Returned loaded_count, committed (session_close session), file)
          end
      end
  end.

Definition remove_bitcoin_address_from_file (address : string)
    (file : AddressFile) : AddressFile :=
  match file with
  | None => None
  | Some lines =>
      Some (List.filter
        (λ line,
           let stripped := strip line in
           bool_decide (stripped = "") || is_comment stripped
           || negb (bool_decide (stripped = address)))
        lines)
  end.

(* the four attribute writes that mark a row as used *)
Definition mark_row (env : Env) (address : string) (user_id order_id : Z)
    (session : Session) : Session :=
  session_write (λ d, set_bitcoin_addresses
    (<[address := BitcoinAddress.mk true (Some user_id) (Some (now env)) (Some order_id)]>
       (bitcoin_addresses d)) d) session.

Definition mark_bitcoin_address_used (db : DB) (file : AddressFile) (env : Env)
    (address : string) (user_id : Z) (user_username : string) (order_id : Z)
    (session : option Session) (order_code : option string)
    : bool * Session * AddressFile * list Effect :=
  let '(found, session) :=
    match session with
    | Some session =>
        match bitcoin_addresses (pending session) !! address with
        | None => (false, session)
        | Some btc_addr => (true, mark_row env address user_id order_id session)
        end
    | None =>
        let db_session := Database_session db in
        match bitcoin_addresses (pending db_session) !! address with
        | None => (false, session_close db_session)
        | Some btc_addr =>
            let db_session := mark_row env address user_id order_id db_session in
            let db_session := session_commit db_session in
            (true, session_close db_session)
        end
    end in
  if negb found then (false, session, file, [])
  else
    (true, session, remove_bitcoin_address_from_file address file,
     [AddressAssignmentLogged address order_id]).

End Bitcoin.

(** ** bot_cli.py *)

Module Cli.

(* what the command printed and returned on *)
Inductive Printed :=
  | OrderNotFound
  | AlreadyDelivered
  | CancelledOrExpired
  | InvalidDeliveryTime
  | DeductFailed (deduct_message : string)
  | Success.

Global Instance Printed_eq_dec : EqDecision Printed.
Proof. solve_decision. Defined.

Definition refused_status (st : Status.t) : bool :=
  bool_decide (st = Status.cancelled) || bool_decide (st = Status.canceled)
  || bool_decide (st = Status.expired).

(** The name [timezone] is bound twice at the head of bot_cli.py: line 7
    binds it to the class of [datetime], line 38 to the module
    [bot.config.timezone], and the second binding is the one in force when
    a command runs. That module has the functions get_timezone,
    get_timezone_object, get_localized_time, reload_timezone and
    validate_timezone, and no attribute [utc]: evaluating [timezone.utc]
    raises AttributeError, which no command catches. *)
Definition timezone_utc : Outcome unit := Raised.

(** [delivery_time] is what [datetime.strptime] made of the text, [None]
    when it raised [ValueError]; the [except ValueError] of the command
    does not catch what [timezone.utc] raises. The session of the [with]
    block is closed on the way out. The notification that follows the
    commit is sent inside a [try] and changes nothing in the store. *)
Definition confirm_order_with_delivery_time (db : DB) (env : Env)
    (order_code : string) (delivery_time : option Z)
    : Outcome Printed * Session * list Effect :=
  let session := Database_session db in
  match first_order_by_code order_code (orders (pending session)) with
  | None => (Returned OrderNotFound, session_close session, [])
  | Some order =>
      if decide (Order.order_status order = Status.delivered) then
        (Returned AlreadyDelivered, session_close session, [])
      else if refused_status (Order.order_status order) then
        (Returned CancelledOrExpired, session_close session, [])
      else
        match delivery_time with
        | None => (Returned InvalidDeliveryTime, session_close session, [])
        | Some delivery_time =>
            (* delivery_time.replace(tzinfo=timezone.utc) *)
            match timezone_utc with
            | Raised => (Raised, session_close session, [])
            | Returned _ =>
                let session :=
                  session_write (λ d, set_orders (update_order (Order.id order)
                    (Order.set_order_status Status.confirmed) (orders d)) d) session in
                let session :=
                  session_write (λ d, set_orders (update_order (Order.id order)
                    (Order.set_delivery_time (Some delivery_time)) (orders d)) d)
                    session in
                let session :=
                  match Order.reserved_until order with
                  | Some t =>
                      if decide (t < now env + timedelta_hours 1) then
                        session_write (λ d, set_orders (update_order (Order.id order)
                          (Order.set_reserved_until
                             (Some (delivery_time + timedelta_hours 1)))
                          (orders d)) d) session
                      else session
                  | None => session
                  end in
                let session := session_commit session in
                (Returned Success, session_close session,
                 if send_message_raises env (Order.buyer_id order) then []
                 else [MessageSent (Order.buyer_id order)])
            end
        end
  end.

(** The deduction and the status write go through one session; the commit
    comes after [order.completed_at = datetime.now(timezone.utc)], which
    raises. Left out, as they come after it and touch neither orders nor
    goods: the spendings of the buyer (update_customer_spendings, a session
    of its own), the referral bonus of the referrer, and the
    notifications. *)
Definition mark_order_delivered (db : DB) (env : Env) (order_code : string)
    : Outcome Printed * Session * list Effect :=
  let session := Database_session db in
  match first_order_by_code order_code (orders (pending session)) with
  | None => (Returned OrderNotFound, session_close session, [])
  | Some order =>
      if decide (Order.order_status order = Status.delivered) then
        (Returned AlreadyDelivered, session_close session, [])
      else if refused_status (Order.order_status order) then
        (Returned CancelledOrExpired, session_close session, [])
      else
        let '((success, deduct_message), session, effects) :=
          Inventory.deduct_inventory db env (Order.id order)
            (Some (owner_id env)) (Some session) in
        if negb success then
          (Returned (DeductFailed deduct_message), session_close session, effects)
        else
          let session :=
            session_write (λ d, set_orders (update_order (Order.id order)
              (Order.set_order_status Status.delivered) (orders d)) d) session in
          match timezone_utc with
          | Raised => (Raised, session_close session, effects)
          | Returned _ =>
              let session :=
                session_write (λ d, set_orders (update_order (Order.id order)
                  (Order.set_completed_at (Some (now env))) (orders d)) d) session in
              let session := session_commit session in
              (Returned Success, session_close session, effects)
          end
  end.

End Cli.

(** * Specification vocabulary *)

Import Inventory.

(* a request or an order seen as (item name, quantity) lines *)
Definition lines_of_items (items : list ItemData.t) : list (string * Z) :=
  (λ it, (ItemData.item_name it, ItemData.quantity it)) <$> items.

Definition lines_of_order_items (order_items : list OrderItem.t) : list (string * Z) :=
  (λ oi, (OrderItem.item_name oi, OrderItem.quantity oi)) <$> order_items.

(* the request that the checkout builds from the lines of an order *)
Definition items_of_order (order : Order.t) : list ItemData.t :=
  (λ oi, ItemData.mk (OrderItem.item_name oi) (OrderItem.quantity oi))
    <$> Order.items order.

(* the quantities asked of item [n], in the order of the lines *)
Fixpoint quantities_for (n : string) (lines : list (string * Z)) : list Z :=
  match lines with
  | [] => []
  | (m, q) :: rest =>
      if decide (m = n) then q :: quantities_for n rest else quantities_for n rest
  end.

Definition total (qs : list Z) : Z := foldr Z.add 0 qs.

(* one release of [q] units from a held count [r], floored at zero *)
Definition clamp_sub (r q : Z) : Z := if decide (r - q < 0) then 0 else r - q.

(* the store a call starts from: the session handed in, or a fresh one *)
Definition entry_session (db : DB) (session : option Session) : Session :=
  default (Database_session db) session.

(* the three components of what a call hands back *)
Definition result {A} (out : A * Session * list Effect) : A := out.1.1.
Definition session_after {A} (out : A * Session * list Effect) : Session := out.1.2.
Definition effects_of {A} (out : A * Session * list Effect) : list Effect := out.2.

(* the two refusals of the loop of reserve_inventory *)
Definition insufficient_stock_message (item_name : string) (available quantity : Z)
    : string :=
  "Insufficient stock for '" +:+ item_name +:+ "'. Available: "
  +:+ pretty available +:+ ", Requested: " +:+ pretty quantity.

Definition stock_negative_message (item_name : string) : string :=
  "Stock would go negative for '" +:+ item_name +:+ "'".

(* the third failure of reserve_inventory, from its [except] branch *)
Definition error_reserving_message (str_e : string) : string :=
  "Error reserving inventory: " +:+ str_e.

(* the deadline of a reservation made now is a date the interpreter can
   hold: the stored timeout is a day count that [timedelta] takes, and the
   sum lies in the years 1 to 9999 *)
Definition deadline_in_range (db : DB) (env : Env) : Prop :=
  let hours := default 24 (cash_order_timeout_hours db) in
  -999999999 ≤ hours / 24 ≤ 999999999 ∧
  datetime_min ≤ now env + 3600 * hours ≤ datetime_max.

(* the row has enough free stock for the line *)
Definition covers (g : Goods.t) (quantity : Z) : Prop :=
  quantity ≤ Goods.stock_quantity g - Goods.reserved_quantity g.

(* the stock invariant of section 8 *)
Definition stock_invariant (db : DB) : Prop :=
  ∀ n g, goods db !! n = Some g →
    0 ≤ Goods.stock_quantity g ∧ 0 ≤ Goods.reserved_quantity g.

Definition session_invariant (s : Session) : Prop :=
  stock_invariant (committed s) ∧ stock_invariant (pending s).

Definition is_log_record (e : Effect) : bool :=
  match e with Logged _ _ => true | _ => false end.

(* the row of a due order once the sweep is through with it *)
Definition expire_row (o : Order.t) : Order.t :=
  Order.set_order_status Status.expired (Order.set_reserved_until None o).

(** * Sample stores

    Scenario A of the specification: one item "Widget" with ten units, a
    cash order for all ten and a pool-backed order for one. *)

Definition widget_db : DB :=
  mkDB {[ "Widget" := Goods.mk 10 0 ]}
       [Order.mk 1 100 (Some "ECBDJI") Status.pending cash None None 5000 None None
          [OrderItem.mk "Widget" 10];
        Order.mk 2 101 None Status.pending bitcoin None None 500 None None
          [OrderItem.mk "Widget" 1]]
       [] ∅ ∅ None.

Definition quiet_env : Env := mkEnv 1000 7 false (λ _, false) (λ _, false).

(* the same store once order 1 holds all ten units *)
Definition widget_db_held : DB :=
  committed (session_after
    (reserve_inventory widget_db quiet_env 1 [ItemData.mk "Widget" 10] None None)).

(* an order that was already delivered, and one that has expired *)
Definition closed_orders_db : DB :=
  mkDB {[ "Widget" := Goods.mk 10 0 ]}
       [Order.mk 3 100 (Some "QWERTY") Status.delivered cash None None 1500
          None (Some 900) [OrderItem.mk "Widget" 3];
        Order.mk 4 101 (Some "ASDFGH") Status.expired bitcoin None None 500
          None None [OrderItem.mk "Widget" 1]]
       [] ∅ ∅ None.

(* the same store once the timeout of the settings has been set to a number
   of hours that no date can hold *)
Definition absurd_timeout_db : DB :=
  mkDB (goods closed_orders_db) (orders closed_orders_db) [] ∅ ∅ (Some 99999999999).

(* the audit entry of one deducted line *)
Definition deduct_log (order : Order.t) (order_id : Z) (admin_id : option Z)
    (oi : OrderItem.t) : InventoryLog.t :=
  InventoryLog.mk (OrderItem.item_name oi) ct_deduct (- OrderItem.quantity oi)
    (Some order_id) admin_id
    (Some ("Order confirmed: " +:+ Order.code_or_id order order_id)).

(* Scenario C: the held count says 100 units of an item that has 5 *)
Definition corrupted_db : DB :=
  mkDB {[ "Widget" := Goods.mk 5 100 ]}
       [Order.mk 5 100 (Some "NEG001") Status.confirmed cash None None 9999
          None None [OrderItem.mk "Widget" 100]]
       [] ∅ ∅ None.

(* a confirmed order of 5 units while only 2 are held *)
Definition slack_db : DB :=
  mkDB {[ "Widget" := Goods.mk 10 2 ]}
       [Order.mk 6 100 (Some "DED001") Status.confirmed cash None None 2500
          None None [OrderItem.mk "Widget" 5]]
       [] ∅ ∅ None.

(* a caller's session on the held store with a write of its own not yet
   committed: order 2 marked cancelled *)
Definition caller_session : Session :=
  session_write (λ d, set_orders
    (update_order 2 (Order.set_order_status Status.cancelled) (orders d)) d)
    (Database_session widget_db_held).

(* the pool: one unused address, listed in the backing file *)
Definition pool_db : DB :=
  mkDB ∅ [] [] ∅ {[ "bc1qtest1234567890" := BitcoinAddress.fresh ]} None.

Definition pool_file : Bitcoin.AddressFile :=
  Some ["# payment addresses"; "bc1qtest1234567890"; ""; "  bc1qother  "].

(* two orders whose deadline has passed; the second was paid in part with a
   bonus of 50 that the sweep gives back *)
Definition sweep_db : DB :=
  mkDB {[ "Widget" := Goods.mk 10 3 ]}
       [Order.mk 10 200 (Some "SWEEP1") Status.reserved cash (Some 500) None 1000
          None None [OrderItem.mk "Widget" 2];
        Order.mk 11 201 (Some "SWEEP2") Status.reserved cash (Some 600) (Some 50) 500
          None None [OrderItem.mk "Widget" 1]]
       [] {[ 201 := CustomerInfo.mk 0 ]} ∅ None.

(* the customer file cannot be written for buyer 201 *)
Definition csv_failing_env : Env :=
  mkEnv 1000 7 false (λ buyer, bool_decide (buyer = 201)) (λ _, false).

(* two items on the shelf and an order for both: three widgets, which are
   there, and five gadgets, of which there are two *)
Definition shelf_db : DB :=
  mkDB {[ "Widget" := Goods.mk 10 0; "Gadget" := Goods.mk 2 0 ]}
       [Order.mk 8 100 (Some "SHELF1") Status.pending cash None None 4000 None None
          [OrderItem.mk "Widget" 3; OrderItem.mk "Gadget" 5]]
       [] ∅ ∅ None.

(* a held count below zero, as remove_item_from_order leaves it when it
   takes units off an order that holds none (it subtracts without a floor),
   and an order for two units *)
Definition negative_hold_db : DB :=
  mkDB {[ "Widget" := Goods.mk 10 (-3) ]}
       [Order.mk 9 100 (Some "NEGHLD") Status.pending cash None None 1000 None None
          [OrderItem.mk "Widget" 2]]
       [] ∅ ∅ None.

(* an order that was created and never reserved *)
Definition never_reserved_db : DB :=
  mkDB {[ "Widget" := Goods.mk 10 0 ]}
       [Order.mk 7 100 (Some "PEND01") Status.pending cash None None 1000
          None None [OrderItem.mk "Widget" 2]]
       [] ∅ ∅ None.

(** * More of the code

    The functions around the ones above: the rest of the address pool, the
    order codes, the setting of the timeout and further commands of the
    command line. *)

(** ** bot/payments/bitcoin.py, the other functions *)

Module Pool.

(* session.query(BitcoinAddress).filter_by(is_used=False).first(); which of
   the unused rows comes first is left to the database, here it is the
   order of the map *)
Definition get_available_bitcoin_address (db : DB) : option string :=
  fst <$> List.find (λ entry : string * BitcoinAddress.t,
                       negb (BitcoinAddress.is_used entry.2))
            (map_to_list (bitcoin_addresses db)).

(* open(BTC_ADDRESSES_FILE, 'a'): appending creates the file *)
Definition append_lines (file : Bitcoin.AddressFile) (new_lines : list string)
    : Bitcoin.AddressFile :=
  Some (default [] file ++ new_lines).

Definition add_bitcoin_address (db : DB) (file : Bitcoin.AddressFile)
    (address : string) : bool * DB * Bitcoin.AddressFile :=
  let session := Database_session db in
  match bitcoin_addresses (pending session) !! address with
  | Some existing => (false, committed (session_close session), file)
  | None =>
      let session :=
        session_write (λ d, set_bitcoin_addresses
          (<[address := BitcoinAddress.fresh]> (bitcoin_addresses d)) d) session in
      let session := session_commit session in
      (true, committed (session_close session), append_lines file [address])
  end.

(* the loop over the addresses is the one of the load from the file; when
   the commit raises, the file is not reached *)
Definition add_bitcoin_addresses_bulk (autoflush : bool) (db : DB)
    (file : Bitcoin.AddressFile) (addresses : list string)
    : Outcome Z * DB * Bitcoin.AddressFile :=
  let session := Database_session db in
  match Bitcoin.load_and_flush autoflush addresses session with
  | Raised => (Raised, committed (session_close session), file)
  | Returned (session, added_count) =>
      let session := session_commit session in
      (Returned added_count, committed (session_close session),
       if decide (added_count > 0) then append_lines file addresses else file)
  end.

End Pool.

(** ** bot/utils/order_codes.py *)

Module OrderCodes.

(* string.ascii_uppercase *)
Definition ascii_uppercase : list ascii :=
  ["A"; "B"; "C"; "D"; "E"; "F"; "G"; "H"; "I"; "J"; "K"; "L"; "M";
   "N"; "O"; "P"; "Q"; "R"; "S"; "T"; "U"; "V"; "W"; "X"; "Y"; "Z"]%char.

(** The random source: [draws n] is the number that the n-th call of
    [secrets.choice] draws below the length of its argument; it is taken
    modulo that length, so that every function is a source. *)
Definition choice (draws : nat → nat) (n : nat) (characters : list ascii) : ascii :=
  nth (draws n mod List.length characters) characters "A"%char.

(* ''.join(secrets.choice(characters) for _ in range(6)), from the draw
   number [cursor] on *)
Definition generate_order_code (draws : nat → nat) (cursor : nat) : string :=
  string_of_list_ascii
    ((λ i, choice draws (cursor + i) ascii_uppercase) <$> seq 0 6).

(* the loop [while attempts < max_attempts], with [remaining] attempts left *)
Fixpoint unique_code_loop (draws : nat → nat) (cursor remaining : nat)
    (rows : list Order.t) : Outcome string :=
  match remaining with
  | O => Raised
  | S remaining =>
      let code := generate_order_code draws cursor in
      match first_order_by_code code rows with
      | None => Returned code
      | Some existing => unique_code_loop draws (cursor + 6) remaining rows
      end
  end.

(** [Raised] is the RuntimeError after 100 attempts. With no session given
    the function reads through a session of its own, which it closes. *)
Definition generate_unique_order_code (db : DB) (draws : nat → nat)
    (session : option Session) : Outcome string :=
  let max_attempts := 100%nat in
  match session with
  | Some session => unique_code_loop draws 0 max_attempts (orders (pending session))
  | None =>
      let db_session := Database_session db in
      unique_code_loop draws 0 max_attempts (orders (pending db_session))
  end.

End OrderCodes.

(** ** bot/handlers/admin/settings_management.py *)

Module Settings.

(* the row of BotSettings with the key cash_order_timeout_hours, written as
   str(timeout_hours); int() reads that text back as the same number *)
Definition set_cash_order_timeout_hours (v : option Z) (d : DB) : DB :=
  mkDB (goods d) (orders d) (inventory_log d) (customer_info d)
       (bitcoin_addresses d) v.

Inductive Reply := InvalidRange | InvalidNumber | Updated (timeout_hours : Z).

(** [timeout_hours] is what [int(message.text.strip())] made of the message,
    [None] when it raised [ValueError]. *)
Definition process_order_timeout (db : DB) (timeout_hours : option Z)
    : Reply * DB :=
  match timeout_hours with
  | None => (InvalidNumber, db)
  | Some timeout_hours =>
      if decide (timeout_hours < 1 ∨ timeout_hours > 168) then (InvalidRange, db)
      else
        let session := Database_session db in
        let session :=
          session_write (set_cash_order_timeout_hours (Some timeout_hours)) session in
        let session := session_commit session in
        (Updated timeout_hours, committed (session_close session))
  end.

End Settings.

(** ** bot_cli.py, further commands *)

Module AdminCli.

Inductive CancelPrinted :=
  | CancelOrderNotFound
  | AlreadyCanceled
  | CannotCancelCompleted
  | Canceled.

(* the refund block of cancel_order_by_code; [Raised] when
   sync_customer_to_csv raises, a failed notification is only printed *)
Definition refund_bonus (env : Env) (order : Order.t) (session : Session)
    : Outcome unit * Session * list Effect :=
  match Order.bonus_applied order with
  | Some bonus =>
      if decide (bonus > 0) then
        match customer_info (pending session) !! Order.buyer_id order with
        | Some info =>
            let info := CustomerInfo.mk (CustomerInfo.bonus_balance info + bonus) in
            let session :=
              session_write (λ d, set_customer_info
                (<[Order.buyer_id order := info]> (customer_info d)) d) session in
            if csv_sync_raises env (Order.buyer_id order) then (Raised, session, [])
            else
              (Returned (), session,
               [CsvSynced (Order.buyer_id order)]
               ++ (if send_message_raises env (Order.buyer_id order) then []
                   else [MessageSent (Order.buyer_id order)]))
        | None => (Returned (), session, [])
        end
      else (Returned (), session, [])
  | None => (Returned (), session, [])
  end.

(** A release that fails is only printed as a warning, the cancellation
    goes on. *)
Definition cancel_order_by_code (db : DB) (env : Env) (order_code : string)
    : Outcome CancelPrinted * Session * list Effect :=
  let session := Database_session db in
  match first_order_by_code order_code (orders (pending session)) with
  | None => (Returned CancelOrderNotFound, session_close session, [])
  | Some order =>
      if decide (Order.order_status order = Status.canceled) then
        (Returned AlreadyCanceled, session_close session, [])
      else if decide (Order.order_status order = Status.completed) then
        (Returned CannotCancelCompleted, session_close session, [])
      else
        let '((success, release_message), session, released) :=
          release_reservation db env (Order.id order) "Order canceled by admin"
            (Some session) in
        let session :=
          session_write (λ d, set_orders (update_order (Order.id order)
            (Order.set_order_status Status.canceled) (orders d)) d) session in
        match refund_bonus env order session with
        | (Raised, session, refunded) =>
            (Raised, session_close session, released ++ refunded)
        | (Returned _, session, refunded) =>
            let session := session_commit session in
            (Returned Canceled, session_close session,
             released ++ refunded ++ [OrderCancellationLogged (Order.id order)])
        end
  end.

(** [delivery_time] is what [datetime.strptime] made of the text, [None]
    when it raised [ValueError]; as in the command that confirms,
    [timezone.utc] raises right after the parse. [notify] asks for the
    notification, which is sent after the commit inside a [try]. *)
Definition update_delivery_time (db : DB) (env : Env) (order_code : string)
    (delivery_time : option Z) (notify : bool)
    : Outcome Cli.Printed * Session * list Effect :=
  let session := Database_session db in
  match first_order_by_code order_code (orders (pending session)) with
  | None => (Returned Cli.OrderNotFound, session_close session, [])
  | Some order =>
      if decide (Order.order_status order = Status.delivered) then
        (Returned Cli.AlreadyDelivered, session_close session, [])
      else
        match delivery_time with
        | None => (Returned Cli.InvalidDeliveryTime, session_close session, [])
        | Some delivery_time =>
            (* delivery_time.replace(tzinfo=timezone.utc) *)
            match Cli.timezone_utc with
            | Raised => (Raised, session_close session, [])
            | Returned _ =>
                let session :=
                  session_write (λ d, set_orders (update_order (Order.id order)
                    (Order.set_delivery_time (Some delivery_time)) (orders d)) d)
                    session in
                let session :=
                  match Order.reserved_until order with
                  | Some t =>
                      if decide (t < delivery_time) then
                        session_write (λ d, set_orders (update_order (Order.id order)
                          (Order.set_reserved_until
                             (Some (delivery_time + timedelta_hours 1)))
                          (orders d)) d) session
                      else session
                  | None => session
                  end in
                let session := session_commit session in
                (Returned Cli.Success, session_close session,
                 if notify && negb (send_message_raises env (Order.buyer_id order))
                 then [MessageSent (Order.buyer_id order)] else [])
            end
        end
  end.

(* the mutually exclusive options --set, --add and --remove *)
Inductive InventoryArgs :=
  | ArgSet (value : Z)
  | ArgAdd (value : Z)
  | ArgRemove (value : Z)
  | ArgNone.

Inductive InventoryPrinted :=
  | ItemNotFound
  | MustSpecify
  | AddFailed (msg : string)
  | CannotRemove
  | InventoryUpdated (old_stock new_stock : Z).

(** [admin_id] is [get_admin_user_id() or 0]. The entry that
    [log_inventory_change] adds after the commit of --set and of --remove
    is still pending when the session is closed. *)
Definition update_inventory (db : DB) (admin_id : Z) (item_name : string)
    (args : InventoryArgs) : InventoryPrinted * Session * list Effect :=
  let session := Database_session db in
  match goods (pending session) !! item_name with
  | None => (ItemNotFound, session_close session, [])
  | Some item =>
      let current_stock := Goods.stock_quantity item in
      match args with
      | ArgSet target_stock =>
          let old_stock := Goods.stock_quantity item in
          let session :=
            session_write (λ d, set_goods
              (<[item_name := Goods.set_stock_quantity target_stock item]> (goods d)) d)
              session in
          let session := session_commit session in
          let session :=
            log_inventory_change (committed session) item_name ct_manual
              (target_stock - old_stock) None (Some admin_id)
              (Some ("CLI: Stock set to " +:+ pretty target_stock
                     +:+ " (was " +:+ pretty old_stock +:+ ")"))
              (Some session) in
          (InventoryUpdated current_stock target_stock, session_close session, [])
      | ArgAdd quantity =>
          let '((success, msg), session, effects) :=
            add_inventory db item_name quantity (Some admin_id)
              (Some ("CLI: Added " +:+ pretty quantity +:+ " units")) (Some session) in
          if negb success then (AddFailed msg, session_close session, effects)
          else
            let session := session_commit session in
            (InventoryUpdated current_stock
               (default current_stock
                  (Goods.stock_quantity <$> goods (pending session) !! item_name)),
             session_close session, effects)
      | ArgRemove quantity =>
          if decide (quantity > Goods.stock_quantity item) then
            (CannotRemove, session_close session, [])
          else
            let old_stock := Goods.stock_quantity item in
            let session :=
              session_write (λ d, set_goods
                (<[item_name := Goods.set_stock_quantity
                                  (Goods.stock_quantity item - quantity) item]>
                   (goods d)) d)
                session in
            let session := session_commit session in
            let session :=
              log_inventory_change (committed session) item_name ct_manual
                (- quantity) None (Some admin_id)
                (Some ("CLI: Removed " +:+ pretty quantity +:+ " units"))
                (Some session) in
            (InventoryUpdated current_stock (old_stock - quantity),
             session_close session, [])
      | ArgNone => (MustSpecify, session_close session, [])
      end
  end.

End AdminCli.

(* what an import leaves when every new address is met once: each address
   that the pool does not hold gets a fresh row, and is counted *)
Fixpoint import_addresses (addresses : list string) (session : Session)
    (loaded_count : Z) : Session * Z :=
  match addresses with
  | [] => (session, loaded_count)
  | address :: rest =>
      match bitcoin_addresses (pending session) !! address with
      | Some _ => import_addresses rest session loaded_count
      | None =>
          import_addresses rest
            (session_write (λ d, set_bitcoin_addresses
               (<[address := BitcoinAddress.fresh]> (bitcoin_addresses d)) d) session)
            (loaded_count + 1)
      end
  end.

(* the addresses of a list that the pool does not hold, with their
   repetitions *)
Definition new_addresses (db : DB) (addresses : list string) : list string :=
  List.filter (λ a, bool_decide (bitcoin_addresses db !! a = None)) addresses.

(* the audit entry of one reserved item *)
Definition reserve_log (order : Order.t) (order_id : Z) (pm : PaymentMethod)
    (it : ItemData.t) : InventoryLog.t :=
  InventoryLog.mk (ItemData.item_name it) ct_reserve (ItemData.quantity it)
    (Some order_id) None
    (Some ("Reserved for order " +:+ Order.code_or_id order order_id
           +:+ " (" +:+ payment_method_str pm +:+ " payment)")).

Definition item_not_found_message (item_name : string) : string :=
  "Item '" +:+ item_name +:+ "' not found".

(* the message is a refusal of the loop of reserve_inventory for one of the
   items asked *)
Definition reserve_refusal (items : list ItemData.t) (message : string) : Prop :=
  ∃ it, it ∈ items ∧
    (message = item_not_found_message (ItemData.item_name it)
     ∨ ∃ available,
         available < ItemData.quantity it ∧
         message = insufficient_stock_message (ItemData.item_name it)
                     available (ItemData.quantity it)).

(* the message is a refusal of the loop of deduct_inventory for one of the
   lines of the order *)
Definition deduct_refusal (order_items : list OrderItem.t) (message : string) : Prop :=
  ∃ oi, oi ∈ order_items ∧
    (message = item_not_found_message (OrderItem.item_name oi)
     ∨ message = stock_negative_message (OrderItem.item_name oi)).

(* the status write with which a caller of deduct_inventory marks the order
   delivered, inside the session it handed in *)
Definition mark_delivered (order_id : Z) (d : DB) : DB :=
  set_orders (update_order order_id (Order.set_order_status Status.delivered)
                (orders d)) d.

Global Instance covers_dec g quantity : Decision (covers g quantity).
Proof. unfold covers. apply _. Defined.

(* what a refund of the bonus of an order leaves of the balance of a buyer *)
Definition refunded_balance (order : Order.t) (info : option CustomerInfo.t)
    : option CustomerInfo.t :=
  match Order.bonus_applied order with
  | Some bonus =>
      if decide (bonus > 0)
      then (λ i, CustomerInfo.mk (CustomerInfo.bonus_balance i + bonus)) <$> info
      else info
  | None => info
  end.

(* an order whose deadline has passed and that was paid in part with a bonus *)
Definition held_order : Order.t :=
  Order.mk 11 201 (Some "SWEEP2") Status.reserved cash (Some 600) (Some 50) 500
    None None [OrderItem.mk "Widget" 1].

(** * Proofs *)

(** ** Rows and sessions *)

Lemma first_order_id order_id rows o :
  first_order order_id rows = Some o → Order.id o = order_id.
Proof.
  induction rows as [|r rows IH]; simpl; [done|].
  case_decide; [congruence | auto].
Qed.

Lemma first_order_update order_id order_id' f rows :
  (∀ o, Order.id (f o) = Order.id o) →
  first_order order_id' (update_order order_id f rows) =
    if decide (order_id = order_id') then f <$> first_order order_id' rows
    else first_order order_id' rows.
Proof.
  intros Hf. induction rows as [|r rows IH]; simpl.
  - by case_decide.
  - destruct (decide (Order.id r = order_id)) as [Hr|Hr]; simpl.
    + rewrite Hf. subst order_id.
      destruct (decide (Order.id r = order_id')) as [Heq|Hne]; simpl; done.
    + rewrite IH.
      destruct (decide (Order.id r = order_id')) as [Heq|Hne]; simpl; [|done].
      rewrite decide_False by congruence. done.
Qed.

Lemma first_order_elem order_id rows o :
  first_order order_id rows = Some o → o ∈ rows.
Proof.
  induction rows as [|r rows IH]; simpl; [done|].
  case_decide.
  - intros [= ->]. left.
  - intros H'. right. auto.
Qed.

Lemma first_order_is_Some rows o :
  o ∈ rows → is_Some (first_order (Order.id o) rows).
Proof.
  induction rows as [|r rows IH]; [by intros ?%elem_of_nil|].
  intros [->|Hin]%elem_of_cons; simpl.
  - rewrite decide_True; eauto.
  - case_decide; eauto.
Qed.

Lemma first_order_NoDup rows o :
  NoDup (Order.id <$> rows) → o ∈ rows → first_order (Order.id o) rows = Some o.
Proof.
  induction rows as [|r rows IH]; [by intros _ ?%elem_of_nil|].
  rewrite fmap_cons, NoDup_cons. intros [Hr Hnd] [->|Hin]%elem_of_cons; simpl.
  - by rewrite decide_True.
  - rewrite decide_False; [auto|].
    intros Heq. apply Hr. rewrite Heq. by apply list_elem_of_fmap_2.
Qed.

Lemma add_reserved_zero g :
  Goods.set_reserved_quantity (Goods.reserved_quantity g + 0) g = g.
Proof. destruct g; unfold Goods.set_reserved_quantity; simpl. f_equal; lia. Qed.

(** ** The loop of reserve_inventory *)

Lemma reserve_items_cons order order_id pm it rest s t :
  reserve_items order order_id pm (it :: rest) s t =
    match goods (pending s) !! ItemData.item_name it with
    | None =>
        (Some (false, "Item '" +:+ ItemData.item_name it +:+ "' not found"),
         session_rollback s, t)
    | Some g =>
        if decide (Goods.stock_quantity g - Goods.reserved_quantity g
                   < ItemData.quantity it) then
          (Some (false,
                 "Insufficient stock for '" +:+ ItemData.item_name it
                 +:+ "'. Available: "
                 +:+ pretty (Goods.stock_quantity g - Goods.reserved_quantity g)
                 +:+ ", Requested: " +:+ pretty (ItemData.quantity it)),
           session_rollback s, t)
        else
          reserve_items order order_id pm rest
            (session_write (λ d, set_inventory_log (inventory_log d ++
               [InventoryLog.mk (ItemData.item_name it) ct_reserve
                  (ItemData.quantity it) (Some order_id) None
                  (Some ("Reserved for order " +:+ Order.code_or_id order order_id
                         +:+ " (" +:+ payment_method_str pm +:+ " payment)"))]) d)
               (session_write (λ d, set_goods
                  (<[ItemData.item_name it :=
                       Goods.set_reserved_quantity
                         (Goods.reserved_quantity g + ItemData.quantity it) g]>
                     (goods d)) d) s))
            (t ++ [CacheInvalidated (ItemData.item_name it)])
    end.
Proof. reflexivity. Qed.

(* what a finished loop leaves: no transaction call, the goods rows moved by
   the totals asked, nothing else touched *)
Lemma reserve_items_done order order_id pm items s t s' t' :
  reserve_items order order_id pm items s t = (None, s', t') →
  committed s' = committed s ∧ ops s' = ops s ∧
  orders (pending s') = orders (pending s) ∧
  customer_info (pending s') = customer_info (pending s) ∧
  bitcoin_addresses (pending s') = bitcoin_addresses (pending s) ∧
  ∀ n, goods (pending s') !! n =
       (λ g, Goods.set_reserved_quantity
               (Goods.reserved_quantity g
                + total (quantities_for n (lines_of_items items))) g)
         <$> goods (pending s) !! n.
Proof.
  revert s t. induction items as [|it rest IH]; intros s t.
  - simpl. intros [= <- <-]. repeat split; try done.
    intros n. destruct (goods (pending s) !! n) as [g|]; simpl; [|done].
    by rewrite add_reserved_zero.
  - rewrite reserve_items_cons.
    destruct (goods (pending s) !! ItemData.item_name it) as [g|] eqn:Hg; [|done].
    case_decide; [done|].
    intros (Hc & Ho & Hord & Hci & Hbt & Hgoods)%IH. simpl in *.
    repeat split; try done.
    intros n. rewrite Hgoods. simpl.
    destruct (decide (ItemData.item_name it = n)) as [<-|Hne].
    + rewrite lookup_insert_eq, Hg. simpl. f_equal.
      unfold Goods.set_reserved_quantity; simpl. f_equal. lia.
    + by rewrite lookup_insert_ne.
Qed.

(* what an interrupted loop leaves: the session rolled back *)
Lemma reserve_items_abort order order_id pm items s t r s' t' :
  reserve_items order order_id pm items s t = (Some r, s', t') →
  r.1 = false ∧ committed s' = committed s ∧ pending s' = committed s ∧
  ops s' = ops s ++ [Rollback].
Proof.
  revert s t. induction items as [|it rest IH]; intros s t; [done|].
  rewrite reserve_items_cons.
  destruct (goods (pending s) !! ItemData.item_name it) as [g|] eqn:Hg.
  - case_decide.
    + by intros [= <- <- <-].
    + intros H'%IH. simpl in H'. done.
  - by intros [= <- <- <-].
Qed.

Lemma reserve_items_short order order_id pm items s t k it g :
  NoDup (ItemData.item_name <$> items) →
  items !! k = Some it →
  goods (pending s) !! ItemData.item_name it = Some g →
  ¬ covers g (ItemData.quantity it) →
  ∃ r s' t', reserve_items order order_id pm items s t = (Some r, s', t').
Proof.
  unfold covers. revert k s t.
  induction items as [|h rest IH]; intros k s t Hnd Hk Hg Hshort; [done|].
  rewrite fmap_cons, NoDup_cons in Hnd. destruct Hnd as [Hh Hnd].
  rewrite reserve_items_cons. destruct k as [|k]; simpl in Hk.
  - injection Hk as ->. rewrite Hg. rewrite decide_True by lia. eauto.
  - destruct (goods (pending s) !! ItemData.item_name h) as [gh|]; [|eauto].
    case_decide; [eauto|].
    eapply IH; [done|done| |done]. simpl.
    rewrite lookup_insert_ne; [done|].
    intros Heq. apply Hh. rewrite Heq.
    apply list_elem_of_fmap_2. by eapply list_elem_of_lookup_2.
Qed.

Lemma reserve_items_first order order_id pm items s t k it g :
  NoDup (ItemData.item_name <$> items) →
  items !! k = Some it →
  goods (pending s) !! ItemData.item_name it = Some g →
  ¬ covers g (ItemData.quantity it) →
  (∀ j it', (j < k)%nat → items !! j = Some it' →
     ∃ g', goods (pending s) !! ItemData.item_name it' = Some g'
           ∧ covers g' (ItemData.quantity it')) →
  ∃ s' t',
    reserve_items order order_id pm items s t =
      (Some (false,
             insufficient_stock_message (ItemData.item_name it)
               (Goods.stock_quantity g - Goods.reserved_quantity g)
               (ItemData.quantity it)), s', t').
Proof.
  unfold covers. revert k s t.
  induction items as [|h rest IH]; intros k s t Hnd Hk Hg Hshort Hbefore; [done|].
  rewrite fmap_cons, NoDup_cons in Hnd. destruct Hnd as [Hh Hnd].
  rewrite reserve_items_cons. destruct k as [|k]; simpl in Hk.
  - injection Hk as ->. rewrite Hg. rewrite decide_True by lia. eauto.
  - destruct (Hbefore 0%nat h) as (gh & Hgh & Hcov); [lia|done|].
    rewrite Hgh, decide_False by lia.
    assert (Hfresh : ∀ it', it' ∈ rest →
              ItemData.item_name h ≠ ItemData.item_name it').
    { intros it' Hin Heq. apply Hh. rewrite Heq. by apply list_elem_of_fmap_2. }
    eapply IH; [done|done| |done|]; simpl.
    + rewrite lookup_insert_ne; [done|].
      apply Hfresh. by eapply list_elem_of_lookup_2.
    + intros j it' Hj Hit'.
      destruct (Hbefore (S j) it') as (g' & Hg' & Hc'); [lia|done|].
      exists g'. rewrite lookup_insert_ne; [done|].
      apply Hfresh. by eapply list_elem_of_lookup_2.
Qed.

Lemma reserve_items_succeeds order order_id pm items s t :
  NoDup (ItemData.item_name <$> items) →
  (∀ it, it ∈ items →
     ∃ g, goods (pending s) !! ItemData.item_name it = Some g
          ∧ covers g (ItemData.quantity it)) →
  ∃ s' t', reserve_items order order_id pm items s t = (None, s', t').
Proof.
  unfold covers. revert s t.
  induction items as [|h rest IH]; intros s t Hnd Hall; [simpl; eauto|].
  rewrite fmap_cons, NoDup_cons in Hnd. destruct Hnd as [Hh Hnd].
  rewrite reserve_items_cons.
  destruct (Hall h) as (gh & Hgh & Hcov); [left|].
  rewrite Hgh, decide_False by lia.
  apply IH; [done|]. intros it Hin.
  destruct (Hall it) as (g & Hg & Hc); [by right|].
  exists g. simpl. rewrite lookup_insert_ne; [done|].
  intros Heq. apply Hh. rewrite Heq. by apply list_elem_of_fmap_2.
Qed.

Lemma quantities_for_absent n items :
  n ∉ ItemData.item_name <$> items →
  quantities_for n (lines_of_items items) = [].
Proof.
  induction items as [|h rest IH]; [done|].
  rewrite fmap_cons, not_elem_of_cons. intros [Hne Hnot]. simpl.
  rewrite decide_False by done. auto.
Qed.

Lemma quantities_for_NoDup items it :
  NoDup (ItemData.item_name <$> items) → it ∈ items →
  quantities_for (ItemData.item_name it) (lines_of_items items)
    = [ItemData.quantity it].
Proof.
  induction items as [|h rest IH]; [by intros _ ?%elem_of_nil|].
  rewrite fmap_cons, NoDup_cons. intros [Hh Hnd] [->|Hin]%elem_of_cons; simpl.
  - rewrite decide_True by done. f_equal. by apply quantities_for_absent.
  - rewrite decide_False; [auto|].
    intros Heq. apply Hh. rewrite Heq. by apply list_elem_of_fmap_2.
Qed.

Lemma order_quantities_absent n order_items :
  n ∉ OrderItem.item_name <$> order_items →
  quantities_for n (lines_of_order_items order_items) = [].
Proof.
  induction order_items as [|h rest IH]; [done|].
  rewrite fmap_cons, not_elem_of_cons. intros [Hne Hnot]. simpl.
  rewrite decide_False by done. auto.
Qed.

Lemma order_quantities_NoDup order_items oi :
  NoDup (OrderItem.item_name <$> order_items) → oi ∈ order_items →
  quantities_for (OrderItem.item_name oi) (lines_of_order_items order_items)
    = [OrderItem.quantity oi].
Proof.
  induction order_items as [|h rest IH]; [by intros _ ?%elem_of_nil|].
  rewrite fmap_cons, NoDup_cons. intros [Hh Hnd] [->|Hin]%elem_of_cons; simpl.
  - rewrite decide_True by done. f_equal. by apply order_quantities_absent.
  - rewrite decide_False; [auto|].
    intros Heq. apply Hh. rewrite Heq. by apply list_elem_of_fmap_2.
Qed.

(** ** reserve_inventory *)

Lemma datetime_add_Value t hours deadline :
  datetime_add t (timedelta hours) = Value deadline →
  deadline = t + timedelta_hours hours.
Proof.
  unfold datetime_add, timedelta. repeat case_decide; congruence.
Qed.

Lemma timeout_hours_default db :
  get_bot_setting_cash_order_timeout_hours db 24
  = default 24 (cash_order_timeout_hours db).
Proof.
  unfold get_bot_setting_cash_order_timeout_hours.
  by destruct (cash_order_timeout_hours db).
Qed.

Lemma deadline_in_range_Value db env :
  deadline_in_range db env ↔
  datetime_add (now env) (timedelta (get_bot_setting_cash_order_timeout_hours db 24))
  = Value (now env
           + timedelta_hours (get_bot_setting_cash_order_timeout_hours db 24)).
Proof.
  rewrite timeout_hours_default.
  unfold deadline_in_range, datetime_add, timedelta, timedelta_hours.
  split.
  - intros [Hdays Hdate]. rewrite decide_True by done.
    rewrite decide_True by lia. done.
  - repeat case_decide; try done. intros _. split; [done|lia].
Qed.

(* the three ways out of reserve_inventory for an order that exists: a
   refusal of the loop, the deadline stamped, the deadline out of range *)
Ltac open_reserve Hfirst E :=
  unfold reserve_inventory, result, session_after, effects_of, entry_session in *;
  simpl in Hfirst |- *; rewrite ?Hfirst;
  match goal with
  | |- context [reserve_items ?o ?i ?p ?l ?s ?t] =>
      destruct (reserve_items o i p l s t) as [[[?r|] ?s'] ?t'] eqn:E
  end;
  [|cbn beta iota;
    match goal with
    | |- context [datetime_add ?t ?delta] =>
        let D := fresh "Hdeadline" in
        let dl := fresh "deadline" in
        destruct (datetime_add t delta) as [dl|?str_e] eqn:D;
        [apply datetime_add_Value in D; subst dl|]
    end].

(** C2: reserving is all-or-nothing. When some requested item [it] has less
    free stock than asked, [reserve_inventory] fails, the transaction is
    rolled back (what the session sees is again what is committed, so no
    item keeps a partial reservation), and when [it] is the first item that
    falls short the message names it with what is available and what was
    asked. *)
Theorem reserve_inventory_all_or_nothing
    (db : DB) (env : Env) (order_id : Z) (items : list ItemData.t)
    (pm : option PaymentMethod) (session : option Session)
    (k : nat) (it : ItemData.t) (g : Goods.t) :
  let s := entry_session db session in
  is_Some (first_order order_id (orders (pending s))) →
  NoDup (ItemData.item_name <$> items) →
  items !! k = Some it →
  goods (pending s) !! ItemData.item_name it = Some g →
  Goods.stock_quantity g - Goods.reserved_quantity g < ItemData.quantity it →
  let out := reserve_inventory db env order_id items pm session in
  (result out).1 = false ∧
  committed (session_after out) = committed s ∧
  pending (session_after out) = committed s ∧
  (pending s = committed s →
   ∀ it', it' ∈ items →
     goods (pending (session_after out)) !! ItemData.item_name it'
       = goods (pending s) !! ItemData.item_name it') ∧
  ((∀ j it', (j < k)%nat → items !! j = Some it' →
      ∃ g', goods (pending s) !! ItemData.item_name it' = Some g'
            ∧ covers g' (ItemData.quantity it')) →
   (result out).2 =
     insufficient_stock_message (ItemData.item_name it)
       (Goods.stock_quantity g - Goods.reserved_quantity g)
       (ItemData.quantity it)).
Proof.
  intros s [order Hfirst] Hnd Hk Hg Hshort out. subst s out.
  assert (Hnot : ¬ covers g (ItemData.quantity it)) by (unfold covers; lia).
  assert (Hloop : ∀ s1 s' t',
            reserve_items order order_id (default (Order.payment_method order) pm)
              items s1 [] = (None, s', t') →
            goods (pending s1) !! ItemData.item_name it = Some g → False).
  { intros s1 s' t' E Hg1.
    destruct (reserve_items_short order order_id
                (default (Order.payment_method order) pm) items s1 [] k it g)
      as (r2 & s2 & t2 & E2); try done. congruence. }
  destruct session as [s0|]; open_reserve Hfirst E;
    try (exfalso; exact (Hloop _ _ _ E Hg)).
  - destruct (reserve_items_abort _ _ _ _ _ _ _ _ _ E) as (Hr & Hc & Hp & _).
    simpl. repeat split; try done.
    + intros Heq it' _. by rewrite Hp, Heq.
    + intros Hbefore.
      destruct (reserve_items_first order order_id
                  (default (Order.payment_method order) pm) items s0 [] k it g)
        as (s2 & t2 & E2); try done.
      rewrite E2 in E. by injection E as <- <- <-.
  - destruct (reserve_items_abort _ _ _ _ _ _ _ _ _ E) as (Hr & Hc & Hp & _).
    simpl in *. repeat split; try done.
    + intros _ it' _. by rewrite Hc.
    + intros Hbefore.
      destruct (reserve_items_first order order_id
                  (default (Order.payment_method order) pm) items
                  (Database_session db) [] k it g)
        as (s2 & t2 & E2); try done.
      rewrite E2 in E. by injection E as <- <- <-.
Qed.

(* the request for three widgets and five gadgets, made inside a session of
   the caller: the three widgets are held when the gadgets fall short *)
Lemma reserve_inventory_all_or_nothing_witness :
  let items := [ItemData.mk "Widget" 3; ItemData.mk "Gadget" 5] in
  let out :=
    reserve_inventory shelf_db quiet_env 8 items None
      (Some (Database_session shelf_db)) in
  result out
    = (false, "Insufficient stock for 'Gadget'. Available: 2, Requested: 5")
  ∧ pending (session_after out) = shelf_db
  ∧ goods (pending (session_after out)) !! "Widget" = Some (Goods.mk 10 0)
  ∧ goods (pending (session_after out)) !! "Gadget" = Some (Goods.mk 2 0).
Proof.
  destruct (reserve_inventory_all_or_nothing shelf_db quiet_env 8
              [ItemData.mk "Widget" 3; ItemData.mk "Gadget" 5] None
              (Some (Database_session shelf_db)) 1%nat
              (ItemData.mk "Gadget" 5) (Goods.mk 2 0))
    as (Hfail & _ & Hpending & Hgoods & Hmessage).
  - vm_compute. eauto.
  - apply (bool_decide_unpack _). vm_compute. reflexivity.
  - reflexivity.
  - reflexivity.
  - simpl. lia.
  - split; [|split; [exact Hpending|split]].
    + rewrite (surjective_pairing (result _)), Hfail, Hmessage; [reflexivity|].
      intros j it' Hj Hit'. destruct j as [|j]; [|lia].
      injection Hit' as <-. exists (Goods.mk 10 0).
      split; [reflexivity|]. unfold covers. simpl. lia.
    + apply (Hgoods eq_refl (ItemData.mk "Widget" 3)).
      apply list_elem_of_In. simpl. auto.
    + apply (Hgoods eq_refl (ItemData.mk "Gadget" 5)).
      apply list_elem_of_In. simpl. auto.
Defined.

(** C10 (as amended): [reserve_inventory] does not look at the status of
    the order. For an existing order in any status (the terminal ones
    included), a request of distinct items that all have enough free stock
    succeeds when the stored timeout gives a deadline that is a date of the
    calendar: each item holds the requested quantity more, the status is
    overwritten with [reserved] and a fresh deadline is stamped. *)
Theorem reserve_inventory_any_status
    (db : DB) (env : Env) (order_id : Z) (items : list ItemData.t)
    (pm : option PaymentMethod) (session : option Session) (order : Order.t) :
  let s := entry_session db session in
  first_order order_id (orders (pending s)) = Some order →
  NoDup (ItemData.item_name <$> items) →
  (∀ it, it ∈ items →
     ∃ g, goods (pending s) !! ItemData.item_name it = Some g
          ∧ covers g (ItemData.quantity it)) →
  deadline_in_range (committed s) env →
  let out := reserve_inventory db env order_id items pm session in
  result out = (true, "Inventory reserved successfully") ∧
  (∀ it, it ∈ items →
     ∃ g, goods (pending s) !! ItemData.item_name it = Some g ∧
          goods (pending (session_after out)) !! ItemData.item_name it =
            Some (Goods.set_reserved_quantity
                    (Goods.reserved_quantity g + ItemData.quantity it) g)) ∧
  first_order order_id (orders (pending (session_after out))) =
    Some (Order.set_order_status Status.reserved
            (Order.set_reserved_until
               (Some (now env + timedelta_hours
                        (get_bot_setting_cash_order_timeout_hours (committed s) 24)))
               order)).
Proof.
  intros s Hfirst Hnd Hall Hrange out. subst s out.
  apply deadline_in_range_Value in Hrange. unfold entry_session in Hrange.
  simpl in Hrange.
  assert (Hlookup : ∀ (s0 s1 : Session) t1,
    reserve_items order order_id (default (Order.payment_method order) pm)
      items s0 [] = (None, s1, t1) →
    (∀ it, it ∈ items →
       ∃ g, goods (pending s0) !! ItemData.item_name it = Some g
            ∧ covers g (ItemData.quantity it)) →
    ∀ it, it ∈ items →
      ∃ g, goods (pending s0) !! ItemData.item_name it = Some g ∧
           goods (pending s1) !! ItemData.item_name it =
             Some (Goods.set_reserved_quantity
                     (Goods.reserved_quantity g + ItemData.quantity it) g)).
  { intros s0 s1 t1 E Hcov it Hin.
    destruct (Hcov it Hin) as (g & Hg & _). exists g. split; [done|].
    apply reserve_items_done in E as (_ & _ & _ & _ & _ & Hgoods).
    rewrite Hgoods, Hg, quantities_for_NoDup by done. simpl.
    do 2 f_equal. unfold total. simpl. lia. }
  destruct session as [s0|]; open_reserve Hfirst E.
  - destruct (reserve_items_succeeds order order_id
                (default (Order.payment_method order) pm) items s0 [])
      as (s2 & t2 & E2); try done. congruence.
  - pose proof (Hlookup _ _ _ E Hall) as Hl.
    apply reserve_items_done in E as (Hc & _ & Hord & _). simpl.
    repeat split; [done|].
    rewrite !first_order_update by done.
    rewrite !decide_True by done. rewrite Hord, Hfirst, Hc. done.
  - apply reserve_items_done in E as (Hc & _). rewrite Hc in Hdeadline.
    simpl in Hrange. congruence.
  - destruct (reserve_items_succeeds order order_id
                (default (Order.payment_method order) pm) items
                (Database_session db) [])
      as (s2 & t2 & E2); try done. congruence.
  - pose proof (Hlookup _ _ _ E Hall) as Hl.
    apply reserve_items_done in E as (Hc & _ & Hord & _). simpl in *.
    repeat split; [done|].
    rewrite !first_order_update by done.
    rewrite !decide_True by done. rewrite Hord, Hfirst, Hc. done.
  - apply reserve_items_done in E as (Hc & _). rewrite Hc in Hdeadline.
    simpl in Hrange, Hdeadline. congruence.
Qed.

Lemma reserve_inventory_any_status_witness :
  let out :=
    reserve_inventory closed_orders_db quiet_env 3 [ItemData.mk "Widget" 3]
      None None in
  result out = (true, "Inventory reserved successfully") ∧
  goods (committed (session_after out)) !! "Widget" = Some (Goods.mk 10 3) ∧
  first_order 3 (orders (committed (session_after out))) =
    Some (Order.mk 3 100 (Some "QWERTY") Status.reserved cash (Some 87400) None
            1500 None (Some 900) [OrderItem.mk "Widget" 3]).
Proof.
  destruct (reserve_inventory_any_status closed_orders_db quiet_env 3
              [ItemData.mk "Widget" 3] None None
              (Order.mk 3 100 (Some "QWERTY") Status.delivered cash None None 1500
                 None (Some 900) [OrderItem.mk "Widget" 3]))
    as (Hok & _ & _).
  - reflexivity.
  - apply NoDup_singleton.
  - intros it ->%list_elem_of_singleton. exists (Goods.mk 10 0).
    split; [reflexivity|]. unfold covers. simpl. lia.
  - vm_compute. repeat split; discriminate.
  - split; [exact Hok|]. split; vm_compute; reflexivity.
Defined.

(** C10, the claim as stated fails: the stock covers the request, and the
    reserve fails all the same, with nothing held and the order as it was,
    because the stored timeout overflows the computation of the deadline. *)
Lemma reserve_inventory_timeout_overflow_counterexample :
  let out :=
    reserve_inventory absurd_timeout_db quiet_env 3 [ItemData.mk "Widget" 3]
      None None in
  (∃ g, goods absurd_timeout_db !! "Widget" = Some g ∧ covers g 3) ∧
  result out
    = (false, "Error reserving inventory: Python int too large to convert to C int") ∧
  goods (committed (session_after out)) !! "Widget" = Some (Goods.mk 10 0) ∧
  Order.order_status <$> first_order 3 (orders (committed (session_after out)))
    = Some Status.delivered.
Proof.
  split; [|split; [|split]]; try (vm_compute; reflexivity).
  exists (Goods.mk 10 0). split; [reflexivity|]. unfold covers. simpl. lia.
Qed.

(** C1 (as amended): when [reserve_inventory] succeeds for a cash order, the
    stored deadline is the time of the call plus the configured number of
    hours of [cash_order_timeout_hours], 24 when nothing is configured. *)
Theorem reserve_inventory_cash_deadline
    (db : DB) (env : Env) (order_id : Z) (items : list ItemData.t)
    (pm : option PaymentMethod) (session : option Session) (order : Order.t) :
  let s := entry_session db session in
  first_order order_id (orders (pending s)) = Some order →
  default (Order.payment_method order) pm = cash →
  let out := reserve_inventory db env order_id items pm session in
  (result out).1 = true →
  Order.reserved_until <$> first_order order_id (orders (pending (session_after out)))
    = Some (Some (now env
                  + 3600 * default 24 (cash_order_timeout_hours (committed s)))).
Proof.
  intros s Hfirst _ out. subst s out.
  assert (Hhours : ∀ d, timedelta_hours (get_bot_setting_cash_order_timeout_hours d 24)
                        = 3600 * default 24 (cash_order_timeout_hours d)).
  { intros d. unfold timedelta_hours, get_bot_setting_cash_order_timeout_hours.
    destruct (cash_order_timeout_hours d); simpl; lia. }
  destruct session as [s0|]; open_reserve Hfirst E; try (by simpl).
  - destruct (reserve_items_abort _ _ _ _ _ _ _ _ _ E) as (Hr & _).
    simpl. congruence.
  - apply reserve_items_done in E as (Hc & _ & Hord & _). simpl. intros _.
    rewrite !first_order_update by done.
    rewrite !decide_True by done. rewrite Hord, Hfirst, Hc. simpl.
    by rewrite Hhours.
  - destruct (reserve_items_abort _ _ _ _ _ _ _ _ _ E) as (Hr & _).
    simpl. congruence.
  - apply reserve_items_done in E as (Hc & _ & Hord & _). simpl in *. intros _.
    rewrite !first_order_update by done.
    rewrite !decide_True by done. rewrite Hord, Hfirst, Hc. simpl.
    by rewrite Hhours.
Qed.

Lemma reserve_inventory_cash_deadline_witness :
  Order.reserved_until <$>
    first_order 1 (orders (pending (session_after
      (reserve_inventory widget_db quiet_env 1 [ItemData.mk "Widget" 10] None None))))
  = Some (Some (1000 + 3600 * 24)).
Proof.
  apply (reserve_inventory_cash_deadline widget_db quiet_env 1
           [ItemData.mk "Widget" 10] None None
           (Order.mk 1 100 (Some "ECBDJI") Status.pending cash None None 5000
              None None [OrderItem.mk "Widget" 10])).
  - reflexivity.
  - reflexivity.
  - vm_compute. reflexivity.
Defined.

(** C1, the claim as stated fails: a pool-backed order reserved with nothing
    configured gets the cash window of 24 hours, not the window of seven
    days, and its window is not 24 times the window of a cash order reserved
    at the same moment. *)
Lemma reserve_inventory_pool_deadline_counterexample :
  let pool :=
    reserve_inventory widget_db quiet_env 2 [ItemData.mk "Widget" 1]
      (Some bitcoin) None in
  let cash_order :=
    reserve_inventory widget_db quiet_env 1 [ItemData.mk "Widget" 10]
      (Some cash) None in
  (result pool).1 = true ∧
  Order.reserved_until <$> first_order 2 (orders (committed (session_after pool)))
    = Some (Some (now quiet_env + timedelta_hours 24)) ∧
  Order.reserved_until <$> first_order 1 (orders (committed (session_after cash_order)))
    = Some (Some (now quiet_env + timedelta_hours 24)) ∧
  now quiet_env + timedelta_hours 24 ≠ now quiet_env + timedelta_days 7 ∧
  ¬ (24 * timedelta_hours 24 ≤ timedelta_hours 24).
Proof.
  repeat split; try (vm_compute; reflexivity); vm_compute; congruence.
Qed.

(** ** The loop of release_reservation *)

Lemma release_items_cons order order_id reason oi rest s t :
  release_items order order_id reason (oi :: rest) s t =
    match goods (pending s) !! OrderItem.item_name oi with
    | Some g =>
        release_items order order_id reason rest
          (session_write (λ d, set_inventory_log (inventory_log d ++
             [InventoryLog.mk (OrderItem.item_name oi) ct_release
                (- OrderItem.quantity oi) (Some order_id) None
                (Some (reason +:+ " - " +:+ Order.code_or_id order order_id))]) d)
             (session_write (λ d, set_goods
                (<[OrderItem.item_name oi :=
                     Goods.set_reserved_quantity
                       (clamp_sub (Goods.reserved_quantity g) (OrderItem.quantity oi)) g]>
                   (goods d)) d) s))
          (t ++ [CacheInvalidated (OrderItem.item_name oi)])
    | None => release_items order order_id reason rest s t
    end.
Proof.
  simpl. destruct (goods (pending s) !! OrderItem.item_name oi) as [g|]; [|done].
  unfold clamp_sub. destruct g as [st r]. simpl.
  by destruct (decide (r - OrderItem.quantity oi < 0)).
Qed.

Lemma release_items_done order order_id reason order_items s t :
  let out := release_items order order_id reason order_items s t in
  committed out.1 = committed s ∧ ops out.1 = ops s ∧
  orders (pending out.1) = orders (pending s) ∧
  customer_info (pending out.1) = customer_info (pending s) ∧
  bitcoin_addresses (pending out.1) = bitcoin_addresses (pending s) ∧
  ∀ n, goods (pending out.1) !! n =
       (λ g, Goods.set_reserved_quantity
               (foldl clamp_sub (Goods.reserved_quantity g)
                  (quantities_for n (lines_of_order_items order_items))) g)
         <$> goods (pending s) !! n.
Proof.
  revert s t. induction order_items as [|oi rest IH]; intros s t.
  - simpl. repeat split; try done.
    intros n. destruct (goods (pending s) !! n) as [[st r]|]; done.
  - rewrite release_items_cons.
    destruct (goods (pending s) !! OrderItem.item_name oi) as [g|] eqn:Hg.
    + specialize (IH
        (session_write (λ d, set_inventory_log (inventory_log d ++
           [InventoryLog.mk (OrderItem.item_name oi) ct_release
              (- OrderItem.quantity oi) (Some order_id) None
              (Some (reason +:+ " - " +:+ Order.code_or_id order order_id))]) d)
           (session_write (λ d, set_goods
              (<[OrderItem.item_name oi :=
                   Goods.set_reserved_quantity
                     (clamp_sub (Goods.reserved_quantity g) (OrderItem.quantity oi)) g]>
                 (goods d)) d) s))
        (t ++ [CacheInvalidated (OrderItem.item_name oi)])).
      simpl in IH. destruct IH as (Hc & Ho & Hord & Hci & Hbt & Hgoods).
      repeat split; try done.
      intros n. rewrite Hgoods. simpl.
      destruct (decide (OrderItem.item_name oi = n)) as [<-|Hne].
      * by rewrite lookup_insert_eq, Hg.
      * by rewrite lookup_insert_ne.
    + specialize (IH s t). simpl in IH.
      destruct IH as (Hc & Ho & Hord & Hci & Hbt & Hgoods).
      repeat split; try done.
      intros n. rewrite Hgoods. simpl.
      destruct (decide (OrderItem.item_name oi = n)) as [<-|Hne]; [|done].
      by rewrite Hg.
Qed.

(** ** Reserve, then release *)

Lemma lines_of_items_of_order order :
  lines_of_items (items_of_order order) = lines_of_order_items (Order.items order).
Proof.
  unfold lines_of_items, items_of_order, lines_of_order_items.
  rewrite <- list_fmap_compose. done.
Qed.

Lemma quantities_for_elem n order_items q :
  q ∈ quantities_for n (lines_of_order_items order_items) →
  ∃ oi, oi ∈ order_items ∧ OrderItem.item_name oi = n ∧ OrderItem.quantity oi = q.
Proof.
  induction order_items as [|oi rest IH]; simpl; [by intros ?%elem_of_nil|].
  case_decide.
  - intros [->|Hin]%elem_of_cons.
    + exists oi. split; [left|done].
    + destruct (IH Hin) as (oi' & ? & ? & ?). exists oi'. split; [by right|done].
  - intros Hin. destruct (IH Hin) as (oi' & ? & ? & ?).
    exists oi'. split; [by right|done].
Qed.

Lemma release_after_reserve r qs :
  0 ≤ r → Forall (λ q, 0 ≤ q) qs → foldl clamp_sub (r + total qs) qs = r.
Proof.
  intros Hr Hqs. revert r Hr.
  induction Hqs as [|q qs Hq Hqs IH]; intros r Hr; simpl.
  - unfold total. simpl. lia.
  - assert (0 ≤ total qs).
    { clear IH. induction Hqs as [|q' qs' ? ? IH']; unfold total in *; simpl; lia. }
    unfold total in *. simpl.
    replace (clamp_sub (r + (q + foldr Z.add 0 qs)) q) with (r + foldr Z.add 0 qs).
    + by apply IH.
    + unfold clamp_sub. case_decide; lia.
Qed.

Ltac open_release Hfirst E :=
  unfold release_reservation, result, session_after, effects_of, entry_session in *;
  simpl in Hfirst |- *; rewrite ?Hfirst;
  match goal with
  | |- context [release_items ?o ?i ?p ?l ?s ?t] =>
      pose proof (release_items_done o i p l s t) as E;
      destruct (release_items o i p l s t) as [?s' ?t']
  end.

(* the row of the order once a reserve went through *)
Lemma reserve_inventory_order db env order_id items pm session order :
  let s := entry_session db session in
  first_order order_id (orders (pending s)) = Some order →
  let out := reserve_inventory db env order_id items pm session in
  (result out).1 = true →
  (∃ order', first_order order_id (orders (pending (session_after out))) = Some order'
             ∧ Order.items order' = Order.items order) ∧
  committed (session_after out)
    = (if is_None session then pending (session_after out) else committed s) ∧
  ∀ n, goods (pending (session_after out)) !! n =
       (λ g, Goods.set_reserved_quantity
               (Goods.reserved_quantity g
                + total (quantities_for n (lines_of_items items))) g)
         <$> goods (pending s) !! n.
Proof.
  intros s Hfirst out. subst s out.
  destruct session as [s0|]; open_reserve Hfirst E; try (by simpl).
  - destruct (reserve_items_abort _ _ _ _ _ _ _ _ _ E) as (Hr & _).
    simpl. congruence.
  - apply reserve_items_done in E as (Hc & _ & Hord & _ & _ & Hgoods). simpl.
    intros _. split; [|done].
    rewrite !first_order_update by done.
    rewrite !decide_True by done. rewrite Hord, Hfirst. simpl. eauto.
  - destruct (reserve_items_abort _ _ _ _ _ _ _ _ _ E) as (Hr & _).
    simpl. congruence.
  - apply reserve_items_done in E as (Hc & _ & Hord & _ & _ & Hgoods). simpl in *.
    intros _. split; [|done].
    rewrite !first_order_update by done.
    rewrite !decide_True by done. rewrite Hord, Hfirst. simpl. eauto.
Qed.

(* what a release leaves of the goods and of the deadline *)
Lemma release_reservation_rows db env order_id reason session order :
  let s := entry_session db session in
  first_order order_id (orders (pending s)) = Some order →
  let out := release_reservation db env order_id reason session in
  result out = (true, "Reservation released successfully") ∧
  Order.reserved_until
    <$> first_order order_id (orders (pending (session_after out))) = Some None ∧
  ∀ n, goods (pending (session_after out)) !! n =
       (λ g, Goods.set_reserved_quantity
               (foldl clamp_sub (Goods.reserved_quantity g)
                  (quantities_for n (lines_of_order_items (Order.items order)))) g)
         <$> goods (pending s) !! n.
Proof.
  intros s Hfirst out. subst s out.
  destruct session as [s0|]; open_release Hfirst E;
    simpl in E; destruct E as (Hc & _ & Hord & _ & _ & Hgoods); simpl.
  - repeat split; [|done].
    rewrite first_order_update by done.
    rewrite decide_True by done. by rewrite Hord, Hfirst.
  - repeat split; [|done].
    rewrite first_order_update by done.
    rewrite decide_True by done. by rewrite Hord, Hfirst.
Qed.

(** C7 (as amended): reserve followed at once by release, for the lines of
    the same order, puts the held count of every item back to what it was
    before the reserve (the whole goods table is as before) and clears the
    deadline of the order, on the stores where the counts held before are
    not negative and for the orders whose lines name each item once or ask
    for no negative quantity. *)
Theorem reserve_release_round_trip
    (db : DB) (env : Env) (order_id : Z) (pm : option PaymentMethod)
    (reason : string) (session : option Session) (order : Order.t) :
  let s := entry_session db session in
  first_order order_id (orders (pending s)) = Some order →
  NoDup (OrderItem.item_name <$> Order.items order)
  ∨ (∀ oi, oi ∈ Order.items order → 0 ≤ OrderItem.quantity oi) →
  (∀ oi g, oi ∈ Order.items order →
     goods (pending s) !! OrderItem.item_name oi = Some g →
     0 ≤ Goods.reserved_quantity g) →
  let reserved_out :=
    reserve_inventory db env order_id (items_of_order order) pm session in
  (result reserved_out).1 = true →
  let s1 := session_after reserved_out in
  let released :=
    release_reservation (committed s1) env order_id reason ((λ _, s1) <$> session) in
  (result released).1 = true ∧
  goods (pending (session_after released)) = goods (pending s) ∧
  Order.reserved_until
    <$> first_order order_id (orders (pending (session_after released))) = Some None.
Proof.
  intros s Hfirst Hqty Hheld reserved_out Hok s1 released.
  destruct (reserve_inventory_order db env order_id (items_of_order order)
              pm session order Hfirst Hok)
    as ((order' & Hfirst' & Hitems) & Hcommitted & Hgoods).
  fold reserved_out in Hfirst', Hcommitted, Hgoods. fold s1 in Hfirst', Hcommitted, Hgoods.
  assert (Hentry : pending (entry_session (committed s1) ((λ _, s1) <$> session))
                   = pending s1).
  { destruct session; simpl in *; [done|]. by rewrite Hcommitted. }
  destruct (release_reservation_rows (committed s1) env order_id reason
              ((λ _, s1) <$> session) order') as (Hres & Hdeadline & Hgoods').
  { by rewrite Hentry. }
  fold released in Hres, Hdeadline, Hgoods'.
  split; [by rewrite Hres|]. split; [|done].
  apply map_eq. intros n.
  rewrite Hgoods', Hentry, Hgoods, Hitems, lines_of_items_of_order.
  fold s. destruct (goods (pending s) !! n) as [g|] eqn:Hg; [|done]. simpl.
  destruct g as [st r]. unfold Goods.set_reserved_quantity. simpl. do 2 f_equal.
  destruct (quantities_for n (lines_of_order_items (Order.items order)))
    as [|q qs] eqn:Hqs.
  { unfold total. simpl. lia. }
  destruct (quantities_for_elem n (Order.items order) q) as (oi & Hin & Hname & _).
  { rewrite Hqs. left. }
  subst n. assert (0 ≤ r) by apply (Hheld oi _ Hin Hg).
  destruct Hqty as [Hnd|Hqty].
  - rewrite order_quantities_NoDup in Hqs by done. injection Hqs as <- <-.
    unfold total, clamp_sub. simpl. case_decide; lia.
  - rewrite <- Hqs. apply release_after_reserve; [done|].
    apply Forall_forall. intros q' Hq'.
    destruct (quantities_for_elem _ (Order.items order) q' Hq')
      as (oi' & Hin' & _ & <-).
    auto.
Qed.

Lemma reserve_release_round_trip_witness :
  let reserved_out :=
    reserve_inventory widget_db quiet_env 1 [ItemData.mk "Widget" 10] None None in
  let released :=
    release_reservation (committed (session_after reserved_out)) quiet_env 1
      "Order cancelled" None in
  (result released).1 = true ∧
  goods (pending (session_after released)) = goods widget_db ∧
  Order.reserved_until
    <$> first_order 1 (orders (pending (session_after released))) = Some None.
Proof.
  apply (reserve_release_round_trip widget_db quiet_env 1 None "Order cancelled" None
           (Order.mk 1 100 (Some "ECBDJI") Status.pending cash None None 5000
              None None [OrderItem.mk "Widget" 10])).
  - reflexivity.
  - left. apply NoDup_singleton.
  - intros oi g ->%list_elem_of_singleton Hg. vm_compute in Hg.
    injection Hg as <-. simpl. lia.
  - vm_compute. reflexivity.
Defined.

(** C7, the claim as stated fails: the item holds -3 units before the
    reserve; the reserve of two units succeeds and leaves -1, and the
    release that follows floors the count at zero instead of putting it
    back to -3. *)
Lemma reserve_release_negative_hold_counterexample :
  let reserved_out :=
    reserve_inventory negative_hold_db quiet_env 9 [ItemData.mk "Widget" 2]
      None None in
  let released :=
    release_reservation (committed (session_after reserved_out)) quiet_env 9
      "Order cancelled" None in
  goods negative_hold_db !! "Widget" = Some (Goods.mk 10 (-3)) ∧
  (result reserved_out).1 = true ∧
  goods (committed (session_after reserved_out)) !! "Widget"
    = Some (Goods.mk 10 (-1)) ∧
  (result released).1 = true ∧
  goods (committed (session_after released)) !! "Widget" = Some (Goods.mk 10 0) ∧
  goods (committed (session_after released)) !! "Widget"
    ≠ goods negative_hold_db !! "Widget".
Proof.
  repeat split; try (vm_compute; reflexivity). vm_compute. discriminate.
Qed.

(** ** The loop of deduct_inventory *)

Lemma deduct_items_cons order order_id admin_id oi rest s t :
  deduct_items order order_id admin_id (oi :: rest) s t =
    match goods (pending s) !! OrderItem.item_name oi with
    | None =>
        (Some (false, "Item '" +:+ OrderItem.item_name oi +:+ "' not found"),
         session_rollback s, t)
    | Some g =>
        if decide (Goods.stock_quantity g - OrderItem.quantity oi < 0) then
          (Some (false, stock_negative_message (OrderItem.item_name oi)),
           session_rollback s, t)
        else
          deduct_items order order_id admin_id rest
            (session_write (λ d, set_inventory_log
               (inventory_log d ++ [deduct_log order order_id admin_id oi]) d)
               (session_write (λ d, set_goods
                  (<[OrderItem.item_name oi :=
                       Goods.mk (Goods.stock_quantity g - OrderItem.quantity oi)
                         (clamp_sub (Goods.reserved_quantity g) (OrderItem.quantity oi))]>
                     (goods d)) d) s))
            (t ++ [CacheInvalidated (OrderItem.item_name oi)])
    end.
Proof.
  simpl. destruct (goods (pending s) !! OrderItem.item_name oi) as [[st r]|]; [|done].
  simpl. destruct (decide (st - OrderItem.quantity oi < 0)); [done|].
  f_equal. unfold session_write, log_inventory_change, clamp_sub. simpl.
  destruct (decide (r - OrderItem.quantity oi < 0)); simpl;
    by rewrite insert_insert_eq.
Qed.

Lemma deduct_items_effects order order_id admin_id order_items s t :
  Forall (λ e, is_log_record e = false) t →
  Forall (λ e, is_log_record e = false)
    (deduct_items order order_id admin_id order_items s t).2.
Proof.
  revert s t. induction order_items as [|oi rest IH]; intros s t Ht; [done|].
  rewrite deduct_items_cons.
  destruct (goods (pending s) !! OrderItem.item_name oi) as [g|]; [|done].
  case_decide; [done|]. apply IH. apply Forall_app. split; [done|].
  by apply Forall_singleton.
Qed.

Lemma deduct_items_abort order order_id admin_id order_items s t r s' t' :
  deduct_items order order_id admin_id order_items s t = (Some r, s', t') →
  r.1 = false ∧ committed s' = committed s ∧ pending s' = committed s ∧
  ops s' = ops s ++ [Rollback].
Proof.
  revert s t. induction order_items as [|oi rest IH]; intros s t; [done|].
  rewrite deduct_items_cons.
  destruct (goods (pending s) !! OrderItem.item_name oi) as [g|] eqn:Hg.
  - case_decide.
    + by intros [= <- <- <-].
    + intros H'%IH. simpl in H'. done.
  - by intros [= <- <- <-].
Qed.

Lemma deduct_items_done order order_id admin_id order_items s t s' t' :
  deduct_items order order_id admin_id order_items s t = (None, s', t') →
  committed s' = committed s ∧ ops s' = ops s ∧
  orders (pending s') = orders (pending s) ∧
  ∀ n, goods (pending s') !! n =
       (λ g, Goods.mk
               (Goods.stock_quantity g
                - total (quantities_for n (lines_of_order_items order_items)))
               (foldl clamp_sub (Goods.reserved_quantity g)
                  (quantities_for n (lines_of_order_items order_items))))
         <$> goods (pending s) !! n.
Proof.
  revert s t. induction order_items as [|oi rest IH]; intros s t.
  - simpl. intros [= <- <-]. repeat split; try done.
    intros n. destruct (goods (pending s) !! n) as [[st r]|]; simpl; [|done].
    do 2 f_equal. unfold total. simpl. lia.
  - rewrite deduct_items_cons.
    destruct (goods (pending s) !! OrderItem.item_name oi) as [g|] eqn:Hg; [|done].
    case_decide; [done|].
    intros (Hc & Ho & Hord & Hgoods)%IH. simpl in *.
    repeat split; try done.
    intros n. rewrite Hgoods. simpl.
    destruct (decide (OrderItem.item_name oi = n)) as [<-|Hne].
    + rewrite lookup_insert_eq, Hg. simpl. do 2 f_equal.
      unfold total. simpl. lia.
    + by rewrite lookup_insert_ne.
Qed.

Lemma deduct_items_short order order_id admin_id order_items s t k oi g :
  NoDup (OrderItem.item_name <$> order_items) →
  order_items !! k = Some oi →
  goods (pending s) !! OrderItem.item_name oi = Some g →
  Goods.stock_quantity g < OrderItem.quantity oi →
  ∃ r s' t',
    deduct_items order order_id admin_id order_items s t = (Some r, s', t').
Proof.
  revert k s t.
  induction order_items as [|h rest IH]; intros k s t Hnd Hk Hg Hshort; [done|].
  rewrite fmap_cons, NoDup_cons in Hnd. destruct Hnd as [Hh Hnd].
  rewrite deduct_items_cons. destruct k as [|k]; simpl in Hk.
  - injection Hk as ->. rewrite Hg. rewrite decide_True by lia. eauto.
  - destruct (goods (pending s) !! OrderItem.item_name h) as [gh|]; [|eauto].
    case_decide; [eauto|].
    eapply IH; [done|done| |done]. simpl.
    rewrite lookup_insert_ne; [done|].
    intros Heq. apply Hh. rewrite Heq.
    apply list_elem_of_fmap_2. by eapply list_elem_of_lookup_2.
Qed.

Lemma deduct_items_first order order_id admin_id order_items s t k oi g :
  NoDup (OrderItem.item_name <$> order_items) →
  order_items !! k = Some oi →
  goods (pending s) !! OrderItem.item_name oi = Some g →
  Goods.stock_quantity g < OrderItem.quantity oi →
  (∀ j oi', (j < k)%nat → order_items !! j = Some oi' →
     ∃ g', goods (pending s) !! OrderItem.item_name oi' = Some g'
           ∧ OrderItem.quantity oi' ≤ Goods.stock_quantity g') →
  ∃ s' t',
    deduct_items order order_id admin_id order_items s t =
      (Some (false, stock_negative_message (OrderItem.item_name oi)), s', t').
Proof.
  revert k s t.
  induction order_items as [|h rest IH]; intros k s t Hnd Hk Hg Hshort Hbefore; [done|].
  rewrite fmap_cons, NoDup_cons in Hnd. destruct Hnd as [Hh Hnd].
  rewrite deduct_items_cons. destruct k as [|k]; simpl in Hk.
  - injection Hk as ->. rewrite Hg. rewrite decide_True by lia. eauto.
  - destruct (Hbefore 0%nat h) as (gh & Hgh & Hcov); [lia|done|].
    rewrite Hgh, decide_False by lia.
    assert (Hfresh : ∀ oi', oi' ∈ rest →
              OrderItem.item_name h ≠ OrderItem.item_name oi').
    { intros oi' Hin Heq. apply Hh. rewrite Heq. by apply list_elem_of_fmap_2. }
    eapply IH; [done|done| |done|]; simpl.
    + rewrite lookup_insert_ne; [done|].
      apply Hfresh. by eapply list_elem_of_lookup_2.
    + intros j oi' Hj Hoi'.
      destruct (Hbefore (S j) oi') as (g' & Hg' & Hc'); [lia|done|].
      exists g'. rewrite lookup_insert_ne; [done|].
      apply Hfresh. by eapply list_elem_of_lookup_2.
Qed.

Lemma deduct_items_succeeds order order_id admin_id order_items s t :
  NoDup (OrderItem.item_name <$> order_items) →
  (∀ oi, oi ∈ order_items →
     ∃ g, goods (pending s) !! OrderItem.item_name oi = Some g
          ∧ OrderItem.quantity oi ≤ Goods.stock_quantity g) →
  ∃ s' t', deduct_items order order_id admin_id order_items s t = (None, s', t').
Proof.
  revert s t.
  induction order_items as [|h rest IH]; intros s t Hnd Hall; [simpl; eauto|].
  rewrite fmap_cons, NoDup_cons in Hnd. destruct Hnd as [Hh Hnd].
  rewrite deduct_items_cons.
  destruct (Hall h) as (gh & Hgh & Hcov); [left|].
  rewrite Hgh, decide_False by lia.
  apply IH; [done|]. intros oi Hin.
  destruct (Hall oi) as (g & Hg & Hc); [by right|].
  exists g. simpl. rewrite lookup_insert_ne; [done|].
  intros Heq. apply Hh. rewrite Heq. by apply list_elem_of_fmap_2.
Qed.

Lemma clamp_sub_max r q : clamp_sub r q = Z.max 0 (r - q).
Proof. unfold clamp_sub. case_decide; lia. Qed.

Ltac open_deduct Hfirst E :=
  unfold deduct_inventory, result, session_after, effects_of, entry_session in *;
  simpl in Hfirst |- *; rewrite ?Hfirst;
  match goal with
  | |- context [deduct_items ?o ?i ?p ?l ?s ?t] =>
      pose proof (deduct_items_effects o i p l s t) as ?Heff;
      destruct (deduct_items o i p l s t) as [[[?r|] ?s'] ?t'] eqn:E
  end.

(** ** deduct_inventory *)

(** C4 (as amended): deduct treats the two counts differently. If a line of
    the order asks for more than the stock of its item, the call fails, the
    transaction is rolled back so that no stock has moved, and the failure
    is an ordinary (False, message) result: no log record of any severity
    is written. The message names the item when the line is the first one
    to fall short. If every line is covered by the stock, the call
    succeeds, the stock of each item goes down by the quantity and the held
    count goes down by it too but stops at zero. *)
Theorem deduct_inventory_asymmetric
    (db : DB) (env : Env) (order_id : Z) (admin_id : option Z)
    (session : option Session) (order : Order.t) :
  let s := entry_session db session in
  first_order order_id (orders (pending s)) = Some order →
  NoDup (OrderItem.item_name <$> Order.items order) →
  let out := deduct_inventory db env order_id admin_id session in
  (∀ k oi g,
     Order.items order !! k = Some oi →
     goods (pending s) !! OrderItem.item_name oi = Some g →
     Goods.stock_quantity g < OrderItem.quantity oi →
     (result out).1 = false ∧
     committed (session_after out) = committed s ∧
     pending (session_after out) = committed s ∧
     Forall (λ e, is_log_record e = false) (effects_of out) ∧
     ((∀ j oi', (j < k)%nat → Order.items order !! j = Some oi' →
         ∃ g', goods (pending s) !! OrderItem.item_name oi' = Some g'
               ∧ OrderItem.quantity oi' ≤ Goods.stock_quantity g') →
      (result out).2 = stock_negative_message (OrderItem.item_name oi)))
  ∧
  ((∀ oi, oi ∈ Order.items order →
      ∃ g, goods (pending s) !! OrderItem.item_name oi = Some g
           ∧ OrderItem.quantity oi ≤ Goods.stock_quantity g) →
   result out = (true, "Inventory deducted successfully") ∧
   ∀ oi, oi ∈ Order.items order →
     ∃ g, goods (pending s) !! OrderItem.item_name oi = Some g ∧
          goods (pending (session_after out)) !! OrderItem.item_name oi =
            Some (Goods.mk (Goods.stock_quantity g - OrderItem.quantity oi)
                    (Z.max 0 (Goods.reserved_quantity g - OrderItem.quantity oi)))).
Proof.
  intros s Hfirst Hnd out. subst s out.
  assert (Hrows : ∀ (s0 s1 : Session) t1,
    deduct_items order order_id admin_id (Order.items order) s0 [] = (None, s1, t1) →
    ∀ oi g, oi ∈ Order.items order →
      goods (pending s0) !! OrderItem.item_name oi = Some g →
      goods (pending s1) !! OrderItem.item_name oi =
        Some (Goods.mk (Goods.stock_quantity g - OrderItem.quantity oi)
                (Z.max 0 (Goods.reserved_quantity g - OrderItem.quantity oi)))).
  { intros s0 s1 t1 E oi g Hin Hg.
    apply deduct_items_done in E as (_ & _ & _ & Hgoods).
    rewrite Hgoods, Hg, order_quantities_NoDup by done. simpl.
    rewrite clamp_sub_max. do 2 f_equal. unfold total. simpl. lia. }
  destruct session as [s0|]; open_deduct Hfirst E; simpl in *.
  - destruct (deduct_items_abort _ _ _ _ _ _ _ _ _ E) as (Hr & Hc & Hp & _).
    split.
    + intros k oi g Hk Hg Hshort. repeat split; try done.
      * by apply Heff.
      * intros Hbefore.
        destruct (deduct_items_first order order_id admin_id (Order.items order)
                    s0 [] k oi g) as (s2 & t2 & E2); try done.
        rewrite E2 in E. by injection E as <- <- <-.
    + intros Hall.
      destruct (deduct_items_succeeds order order_id admin_id (Order.items order)
                  s0 []) as (s2 & t2 & E2); try done. congruence.
  - split.
    + intros k oi g Hk Hg Hshort.
      destruct (deduct_items_short order order_id admin_id (Order.items order)
                  s0 [] k oi g) as (r2 & s2 & t2 & E2); try done. congruence.
    + intros Hall. split; [done|]. intros oi Hin.
      destruct (Hall oi Hin) as (g & Hg & _). exists g. split; [done|].
      by apply (Hrows _ _ _ E).
  - destruct (deduct_items_abort _ _ _ _ _ _ _ _ _ E) as (Hr & Hc & Hp & _).
    simpl in *. split.
    + intros k oi g Hk Hg Hshort. repeat split; try done.
      * by apply Heff.
      * intros Hbefore.
        destruct (deduct_items_first order order_id admin_id (Order.items order)
                    (Database_session db) [] k oi g) as (s2 & t2 & E2); try done.
        rewrite E2 in E. by injection E as <- <- <-.
    + intros Hall.
      destruct (deduct_items_succeeds order order_id admin_id (Order.items order)
                  (Database_session db) []) as (s2 & t2 & E2); try done. congruence.
  - split.
    + intros k oi g Hk Hg Hshort.
      destruct (deduct_items_short order order_id admin_id (Order.items order)
                  (Database_session db) [] k oi g)
        as (r2 & s2 & t2 & E2); try done. congruence.
    + intros Hall. split; [done|]. intros oi Hin.
      destruct (Hall oi Hin) as (g & Hg & _). exists g. split; [done|].
      by apply (Hrows _ _ _ E).
Qed.

Lemma deduct_inventory_asymmetric_witness :
  (let out := deduct_inventory corrupted_db quiet_env 5 None None in
   result out = (false, "Stock would go negative for 'Widget'") ∧
   committed (session_after out) = corrupted_db ∧
   effects_of out = [])
  ∧
  (let out := deduct_inventory slack_db quiet_env 6 (Some 7) None in
   result out = (true, "Inventory deducted successfully") ∧
   goods (committed (session_after out)) !! "Widget" = Some (Goods.mk 5 0)).
Proof.
  split.
  - destruct (deduct_inventory_asymmetric corrupted_db quiet_env 5 None None
                (Order.mk 5 100 (Some "NEG001") Status.confirmed cash None None 9999
                   None None [OrderItem.mk "Widget" 100]))
      as (Habort & _); [reflexivity|apply NoDup_singleton|].
    destruct (Habort 0%nat (OrderItem.mk "Widget" 100) (Goods.mk 5 100))
      as (Hfail & Hcommitted & _ & _ & Hmessage);
      [reflexivity|reflexivity|simpl; lia|].
    split; [|split; [exact Hcommitted|reflexivity]].
    rewrite (surjective_pairing (result _)), Hfail, Hmessage; [reflexivity|].
    intros j oi' Hj. lia.
  - destruct (deduct_inventory_asymmetric slack_db quiet_env 6 (Some 7) None
                (Order.mk 6 100 (Some "DED001") Status.confirmed cash None None 2500
                   None None [OrderItem.mk "Widget" 5]))
      as (_ & Hdone); [reflexivity|apply NoDup_singleton|].
    destruct Hdone as (Hok & _).
    + intros oi ->%list_elem_of_singleton. exists (Goods.mk 10 2).
      split; [reflexivity|simpl; lia].
    + split; [exact Hok|reflexivity].
Defined.

(** C4, the claim as stated fails: on the corrupted store of scenario C the
    deduction is refused and nothing has moved, but no record of critical
    severity (nor any other log record) comes with the refusal. *)
Lemma deduct_inventory_critical_counterexample :
  let out := deduct_inventory corrupted_db quiet_env 5 None None in
  (result out).1 = false ∧
  committed (session_after out) = corrupted_db ∧
  ¬ (∃ about, Logged CRITICAL about ∈ effects_of out).
Proof.
  repeat split. intros [about Hin]. vm_compute in Hin. by apply elem_of_nil in Hin.
Qed.

(** ** The stock invariant *)

Lemma stock_invariant_ext d d' :
  goods d' = goods d → stock_invariant d → stock_invariant d'.
Proof. unfold stock_invariant. intros ->. done. Qed.

Lemma stock_invariant_insert d n g :
  stock_invariant d →
  0 ≤ Goods.stock_quantity g → 0 ≤ Goods.reserved_quantity g →
  stock_invariant (set_goods (<[n := g]> (goods d)) d).
Proof.
  intros Hinv Hs Hr m g'. simpl.
  destruct (decide (n = m)) as [<-|Hne].
  - rewrite lookup_insert_eq. by intros [= <-].
  - rewrite lookup_insert_ne by done. apply Hinv.
Qed.

Lemma session_invariant_rollback s :
  session_invariant s → session_invariant (session_rollback s).
Proof. intros [Hc _]. by split. Qed.

Lemma session_invariant_close s :
  session_invariant s → session_invariant (session_close s).
Proof. intros [Hc _]. by split. Qed.

Lemma session_invariant_commit s :
  session_invariant s → session_invariant (session_commit s).
Proof. intros [_ Hp]. by split. Qed.

Lemma session_invariant_write f s :
  (∀ d, goods (f d) = goods d) →
  session_invariant s → session_invariant (session_write f s).
Proof.
  intros Hf [Hc Hp]. split; [done|]. simpl.
  by apply (stock_invariant_ext (pending s)).
Qed.

Lemma session_invariant_finish (b : bool) s :
  session_invariant s →
  session_invariant
    (if b then session_close (if b then session_commit s else s)
     else if b then session_commit s else s).
Proof.
  intros Hs. destruct b; [|done].
  by apply session_invariant_close, session_invariant_commit.
Qed.

Lemma reserve_items_invariant order order_id pm items s t :
  (∀ it, it ∈ items → 0 ≤ ItemData.quantity it) →
  session_invariant s →
  session_invariant (reserve_items order order_id pm items s t).1.2.
Proof.
  revert s t. induction items as [|it rest IH]; intros s t Hq Hs; [done|].
  rewrite reserve_items_cons.
  destruct (goods (pending s) !! ItemData.item_name it) as [g|] eqn:Hg;
    [|by apply session_invariant_rollback].
  case_decide; [by apply session_invariant_rollback|].
  apply IH.
  - intros it' Hin. apply Hq. by right.
  - destruct Hs as [Hc Hp]. split; [done|]. simpl.
    destruct (Hp _ _ Hg) as [Hstock Hheld].
    assert (0 ≤ ItemData.quantity it) by (apply Hq; left).
    apply (stock_invariant_ext
             (set_goods (<[ItemData.item_name it :=
                Goods.set_reserved_quantity
                  (Goods.reserved_quantity g + ItemData.quantity it) g]>
                (goods (pending s))) (pending s))); [done|].
    apply stock_invariant_insert; simpl; [done|done|lia].
Qed.

Lemma release_items_invariant order order_id reason order_items s t :
  session_invariant s →
  session_invariant (release_items order order_id reason order_items s t).1.
Proof.
  revert s t. induction order_items as [|oi rest IH]; intros s t Hs; [done|].
  rewrite release_items_cons.
  destruct (goods (pending s) !! OrderItem.item_name oi) as [g|] eqn:Hg;
    [|by apply IH].
  apply IH. destruct Hs as [Hc Hp]. split; [done|]. simpl.
  destruct (Hp _ _ Hg) as [Hstock Hheld].
  apply (stock_invariant_ext
           (set_goods (<[OrderItem.item_name oi :=
              Goods.set_reserved_quantity
                (clamp_sub (Goods.reserved_quantity g) (OrderItem.quantity oi)) g]>
              (goods (pending s))) (pending s))); [done|].
  apply stock_invariant_insert; simpl; [done|done|].
  rewrite clamp_sub_max. lia.
Qed.

Lemma deduct_items_invariant order order_id admin_id order_items s t :
  session_invariant s →
  session_invariant (deduct_items order order_id admin_id order_items s t).1.2.
Proof.
  revert s t. induction order_items as [|oi rest IH]; intros s t Hs; [done|].
  rewrite deduct_items_cons.
  destruct (goods (pending s) !! OrderItem.item_name oi) as [g|] eqn:Hg;
    [|by apply session_invariant_rollback].
  case_decide; [by apply session_invariant_rollback|].
  apply IH. destruct Hs as [Hc Hp]. split; [done|]. simpl.
  apply (stock_invariant_ext
           (set_goods (<[OrderItem.item_name oi :=
              Goods.mk (Goods.stock_quantity g - OrderItem.quantity oi)
                (clamp_sub (Goods.reserved_quantity g) (OrderItem.quantity oi))]>
              (goods (pending s))) (pending s))); [done|].
  apply stock_invariant_insert; simpl; [done|lia|].
  rewrite clamp_sub_max. lia.
Qed.

(** C6 (as amended): the invariant that no item has a negative stock or a
    negative held count, true of what is committed and of what the session
    sees, is kept by release and by deduct for every input, and by reserve
    and restock when the quantities they are given are not negative. In
    particular a release of an order that was already released leaves every
    held count at zero or above. *)
Theorem stock_invariant_preserved
    (db : DB) (env : Env) (session : option Session) :
  session_invariant (entry_session db session) →
  (∀ order_id items pm,
     (∀ it, it ∈ items → 0 ≤ ItemData.quantity it) →
     session_invariant
       (session_after (reserve_inventory db env order_id items pm session))) ∧
  (∀ order_id reason,
     session_invariant
       (session_after (release_reservation db env order_id reason session))) ∧
  (∀ order_id admin_id,
     session_invariant
       (session_after (deduct_inventory db env order_id admin_id session))) ∧
  (∀ item_name quantity admin_id comment,
     0 ≤ quantity →
     session_invariant
       (session_after (add_inventory db item_name quantity admin_id comment session))).
Proof.
  intros Hs. unfold entry_session in Hs. split; [|split; [|split]].
  - intros order_id items pm Hq.
    unfold reserve_inventory, session_after.
    destruct (first_order order_id _) as [order|];
      [|destruct session; simpl; [done|by apply session_invariant_close]].
    pose proof (reserve_items_invariant order order_id
                  (default (Order.payment_method order) pm) items
                  (default (Database_session db) session) [] Hq Hs) as Hloop.
    destruct (reserve_items _ _ _ _ _ _) as [[[r|] s'] t']; simpl in *.
    + destruct session; simpl; [done|by apply session_invariant_close].
    + destruct (datetime_add _ _) as [deadline|str_e]; simpl.
      * apply (session_invariant_finish (is_None session)).
        by do 2 (apply session_invariant_write; [done|]).
      * destruct session; simpl; [done|].
        by apply session_invariant_close, session_invariant_rollback.
  - intros order_id reason.
    unfold release_reservation, session_after.
    destruct (first_order order_id _) as [order|];
      [|destruct session; simpl; [done|by apply session_invariant_close]].
    pose proof (release_items_invariant order order_id reason (Order.items order)
                  (default (Database_session db) session) [] Hs) as Hloop.
    destruct (release_items _ _ _ _ _ _) as [s' t']; simpl in *.
    apply (session_invariant_finish (is_None session)).
    by apply session_invariant_write.
  - intros order_id admin_id.
    unfold deduct_inventory, session_after.
    destruct (first_order order_id _) as [order|];
      [|destruct session; simpl; [done|by apply session_invariant_close]].
    pose proof (deduct_items_invariant order order_id admin_id (Order.items order)
                  (default (Database_session db) session) [] Hs) as Hloop.
    destruct (deduct_items _ _ _ _ _ _) as [[[r|] s'] t']; simpl in *.
    + destruct session; simpl; [done|by apply session_invariant_close].
    + apply (session_invariant_finish (is_None session)).
      by apply session_invariant_write.
  - intros item_name quantity admin_id comment Hq.
    unfold add_inventory, session_after.
    destruct (goods _ !! item_name) as [g|] eqn:Hg;
      [|destruct session; simpl; [done|by apply session_invariant_close]].
    simpl. apply (session_invariant_finish (is_None session)).
    apply session_invariant_write; [done|].
    destruct Hs as [Hc Hp]. split; [done|]. simpl.
    destruct (Hp _ _ Hg) as [Hstock Hheld].
    apply stock_invariant_insert; simpl; [done|lia|done].
Qed.

Lemma widget_db_invariant : stock_invariant widget_db.
Proof.
  intros n g Hg. simpl in Hg.
  apply lookup_singleton_Some in Hg as [_ <-]. simpl. lia.
Qed.

Lemma stock_invariant_preserved_witness :
  session_invariant
    (session_after
       (reserve_inventory widget_db quiet_env 1 [ItemData.mk "Widget" 10] None None))
  ∧ session_invariant
      (session_after (add_inventory widget_db "Widget" 5 (Some 7) None None)).
Proof.
  destruct (stock_invariant_preserved widget_db quiet_env None)
    as (Hreserve & _ & _ & Hadd).
  - split; exact widget_db_invariant.
  - split.
    + apply Hreserve. intros it ->%list_elem_of_singleton. simpl. lia.
    + apply Hadd. lia.
Defined.

(** C6, the claim as stated fails: restocking by a negative quantity drives
    the stock below zero, and reserving a negative quantity drives the held
    count below zero. *)
Lemma stock_invariant_negative_quantity_counterexample :
  stock_invariant widget_db ∧
  (let out := add_inventory widget_db "Widget" (-11) (Some 7) None None in
   (result out).1 = true ∧
   goods (committed (session_after out)) !! "Widget" = Some (Goods.mk (-1) 0) ∧
   ¬ stock_invariant (committed (session_after out))) ∧
  (let out :=
     reserve_inventory widget_db quiet_env 1 [ItemData.mk "Widget" (-3)] None None in
   (result out).1 = true ∧
   goods (committed (session_after out)) !! "Widget" = Some (Goods.mk 10 (-3)) ∧
   ¬ stock_invariant (committed (session_after out))).
Proof.
  split; [exact widget_db_invariant|]. split.
  - split; [reflexivity|]. split; [reflexivity|].
    intros Hinv. destruct (Hinv "Widget" (Goods.mk (-1) 0)) as [Hstock _];
      [reflexivity|]. simpl in Hstock. lia.
  - split; [reflexivity|]. split; [reflexivity|].
    intros Hinv. destruct (Hinv "Widget" (Goods.mk 10 (-3))) as [_ Hheld];
      [reflexivity|]. simpl in Hheld. lia.
Qed.

(** ** Transaction calls *)

Lemma release_reservation_calls db env order_id reason session :
  let out := release_reservation db env order_id reason session in
  match session with
  | Some s =>
      committed (session_after out) = committed s ∧ ops (session_after out) = ops s
  | None =>
      if (result out).1
      then ops (session_after out) = [Commit; Close]
           ∧ committed (session_after out) = pending (session_after out)
      else ops (session_after out) = [Close] ∧ committed (session_after out) = db
  end.
Proof.
  unfold release_reservation, result, session_after.
  destruct session as [s|]; simpl.
  - destruct (first_order order_id _) as [order|]; [|done].
    pose proof (release_items_done order order_id reason (Order.items order) s [])
      as (Hc & Ho & _).
    destruct (release_items _ _ _ _ _ _) as [s' t']. simpl in *. done.
  - destruct (first_order order_id _) as [order|]; [|done].
    pose proof (release_items_done order order_id reason (Order.items order)
                  (Database_session db) []) as (Hc & Ho & _).
    destruct (release_items _ _ _ _ _ _) as [s' t']. simpl in *.
    by rewrite Ho.
Qed.

Lemma add_inventory_calls db item_name quantity admin_id comment session :
  let out := add_inventory db item_name quantity admin_id comment session in
  match session with
  | Some s =>
      committed (session_after out) = committed s ∧ ops (session_after out) = ops s
  | None =>
      if (result out).1
      then ops (session_after out) = [Commit; Close]
           ∧ committed (session_after out) = pending (session_after out)
      else ops (session_after out) = [Close] ∧ committed (session_after out) = db
  end.
Proof.
  unfold add_inventory, result, session_after.
  destruct session as [s|]; simpl;
    destruct (goods _ !! item_name) as [g|]; done.
Qed.

(* a loop of reserve that was left early was left by one of its refusals *)
Lemma reserve_items_refused order order_id pm items s t r s' t' :
  reserve_items order order_id pm items s t = (Some r, s', t') →
  reserve_refusal items r.2.
Proof.
  revert s t. induction items as [|it rest IH]; intros s t; [done|].
  rewrite reserve_items_cons.
  destruct (goods (pending s) !! ItemData.item_name it) as [g|] eqn:Hg.
  - case_decide as Hshort.
    + intros [= <- _ _]. exists it. split; [left|]. right.
      exists (Goods.stock_quantity g - Goods.reserved_quantity g). by split.
    + intros (it' & Hin & Hmsg)%IH. exists it'. split; [by right|done].
  - intros [= <- _ _]. exists it. split; [left|]. by left.
Qed.

Lemma deduct_items_refused order order_id admin_id order_items s t r s' t' :
  deduct_items order order_id admin_id order_items s t = (Some r, s', t') →
  deduct_refusal order_items r.2.
Proof.
  revert s t. induction order_items as [|oi rest IH]; intros s t; [done|].
  rewrite deduct_items_cons.
  destruct (goods (pending s) !! OrderItem.item_name oi) as [g|] eqn:Hg.
  - case_decide as Hshort.
    + intros [= <- _ _]. exists oi. split; [left|]. by right.
    + intros (oi' & Hin & Hmsg)%IH. exists oi'. split; [by right|done].
  - intros [= <- _ _]. exists oi. split; [left|]. by left.
Qed.

(* the transaction calls of reserve_inventory, by the way it ends *)
Lemma reserve_inventory_calls db env order_id items pm session :
  let out := reserve_inventory db env order_id items pm session in
  match session with
  | Some s =>
      committed (session_after out) = committed s ∧
      if (result out).1 then ops (session_after out) = ops s
      else
        ((result out).2 = "Order not found" ∧ session_after out = s)
        ∨ (reserve_refusal items (result out).2 ∧
           ops (session_after out) = ops s ++ [Rollback] ∧
           pending (session_after out) = committed s)
        ∨ ((∃ str_e, (result out).2 = error_reserving_message str_e) ∧
           ¬ deadline_in_range (committed s) env ∧
           ops (session_after out) = ops s ∧
           ∀ n, goods (pending (session_after out)) !! n =
                (λ g, Goods.set_reserved_quantity
                        (Goods.reserved_quantity g
                         + total (quantities_for n (lines_of_items items))) g)
                  <$> goods (pending s) !! n)
  | None =>
      if (result out).1
      then ops (session_after out) = [Commit; Close]
           ∧ committed (session_after out) = pending (session_after out)
      else (ops (session_after out) = [Close]
            ∨ ops (session_after out) = [Rollback; Close])
           ∧ committed (session_after out) = db
  end.
Proof.
  unfold reserve_inventory, result, session_after.
  destruct session as [s|]; simpl.
  - destruct (first_order order_id _) as [order|]; [|by split; [|left]].
    destruct (reserve_items _ _ _ _ _ _) as [[[r|] s'] t'] eqn:E; simpl.
    + pose proof (reserve_items_refused _ _ _ _ _ _ _ _ _ E) as Hmsg.
      apply reserve_items_abort in E as (Hr & Hc & Hp & Ho).
      rewrite Hr. split; [done|]. right. by left.
    + apply reserve_items_done in E as (Hc & Ho & _ & _ & _ & Hgoods).
      destruct (datetime_add _ _) as [deadline|str_e] eqn:Hdeadline; simpl; [done|].
      split; [done|]. right. right. split; [by exists str_e|].
      split; [|done]. intros Hrange%deadline_in_range_Value.
      rewrite Hc in Hdeadline. congruence.
  - destruct (first_order order_id _) as [order|]; [|by split; [left|]].
    destruct (reserve_items _ _ _ _ _ _) as [[[r|] s'] t'] eqn:E; simpl.
    + apply reserve_items_abort in E as (Hr & Hc & Hp & Ho).
      rewrite Hr, Ho. simpl in *. split; [by right|done].
    + apply reserve_items_done in E as (Hc & Ho & _).
      destruct (datetime_add _ _) as [deadline|str_e]; simpl.
      * by rewrite Ho.
      * rewrite Ho. simpl in *. split; [by right|done].
Qed.

Lemma deduct_inventory_calls db env order_id admin_id session :
  let out := deduct_inventory db env order_id admin_id session in
  match session with
  | Some s =>
      committed (session_after out) = committed s ∧
      if (result out).1 then ops (session_after out) = ops s
      else
        ((result out).2 = "Order not found" ∧ session_after out = s)
        ∨ ((∃ order, first_order order_id (orders (pending s)) = Some order
                     ∧ deduct_refusal (Order.items order) (result out).2) ∧
           ops (session_after out) = ops s ++ [Rollback] ∧
           pending (session_after out) = committed s)
  | None =>
      if (result out).1
      then ops (session_after out) = [Commit; Close]
           ∧ committed (session_after out) = pending (session_after out)
      else (ops (session_after out) = [Close]
            ∨ ops (session_after out) = [Rollback; Close])
           ∧ committed (session_after out) = db
  end.
Proof.
  unfold deduct_inventory, result, session_after.
  destruct session as [s|]; simpl.
  - destruct (first_order order_id _) as [order|] eqn:Hfirst; [|by split; [|left]].
    destruct (deduct_items _ _ _ _ _ _) as [[[r|] s'] t'] eqn:E; simpl.
    + pose proof (deduct_items_refused _ _ _ _ _ _ _ _ _ E) as Hmsg.
      apply deduct_items_abort in E as (Hr & Hc & Hp & Ho).
      rewrite Hr. split; [done|]. right. split; [by exists order|done].
    + by apply deduct_items_done in E as (Hc & Ho & _).
  - destruct (first_order order_id _) as [order|]; [|by split; [left|]].
    destruct (deduct_items _ _ _ _ _ _) as [[[r|] s'] t'] eqn:E; simpl.
    + apply deduct_items_abort in E as (Hr & Hc & Hp & Ho).
      rewrite Hr, Ho. simpl in *. split; [by right|done].
    + apply deduct_items_done in E as (Hc & Ho & _). by rewrite Ho.
Qed.

(* the refusals of the loops are told from the other answers by their
   text *)
Lemma reserve_refusal_message items message :
  reserve_refusal items message →
  message ≠ "Order not found" ∧
  message ≠ "Inventory reserved successfully" ∧
  ∀ str_e, message ≠ error_reserving_message str_e.
Proof.
  intros (it & _ & [->|(available & _ & ->)]);
    unfold item_not_found_message, insufficient_stock_message,
      error_reserving_message;
    (split; [|split; [|intros str_e]]); simpl; discriminate.
Qed.

Lemma deduct_refusal_message order_items message :
  deduct_refusal order_items message →
  message ≠ "Order not found" ∧ message ≠ "Inventory deducted successfully".
Proof.
  intros (oi & _ & [->| ->]);
    unfold item_not_found_message, stock_negative_message;
    split; simpl; discriminate.
Qed.

(* inside the session of a caller, the answer is a refusal of the loop
   exactly when reserve has rolled the session back *)
Lemma reserve_refusal_rolls_back db env order_id items pm s :
  let out := reserve_inventory db env order_id items pm (Some s) in
  reserve_refusal items (result out).2 ↔
  ops (session_after out) = ops s ++ [Rollback]
  ∧ pending (session_after out) = committed s.
Proof.
  intros out.
  assert (Hsame : ops s ≠ ops s ++ [Rollback]).
  { intros Heq. apply (f_equal List.length) in Heq.
    rewrite length_app in Heq. simpl in Heq. lia. }
  subst out. unfold reserve_inventory, result, session_after. simpl.
  destruct (first_order order_id _) as [order|]; simpl.
  - destruct (reserve_items _ _ _ _ _ _) as [[[r|] s'] t'] eqn:E; simpl.
    + pose proof (reserve_items_refused _ _ _ _ _ _ _ _ _ E) as Hmsg.
      apply reserve_items_abort in E as (Hr & Hc & Hp & Ho). done.
    + apply reserve_items_done in E as (Hc & Ho & _).
      destruct (datetime_add _ _) as [deadline|str_e]; simpl; rewrite Ho.
      * split; [|by intros [? _]].
        intros (_ & Hno & _)%reserve_refusal_message. done.
      * split; [|by intros [? _]].
        intros (_ & _ & Hno)%reserve_refusal_message. by destruct (Hno str_e).
  - split; [|by intros [? _]].
    intros (Hno & _)%reserve_refusal_message. done.
Qed.

Lemma deduct_refusal_rolls_back db env order_id admin_id s order :
  first_order order_id (orders (pending s)) = Some order →
  let out := deduct_inventory db env order_id admin_id (Some s) in
  deduct_refusal (Order.items order) (result out).2 ↔
  ops (session_after out) = ops s ++ [Rollback]
  ∧ pending (session_after out) = committed s.
Proof.
  intros Hfirst out.
  assert (Hsame : ops s ≠ ops s ++ [Rollback]).
  { intros Heq. apply (f_equal List.length) in Heq.
    rewrite length_app in Heq. simpl in Heq. lia. }
  subst out. unfold deduct_inventory, result, session_after. simpl.
  rewrite Hfirst.
  destruct (deduct_items _ _ _ _ _ _) as [[[r|] s'] t'] eqn:E; simpl.
  - pose proof (deduct_items_refused _ _ _ _ _ _ _ _ _ E) as Hmsg.
    apply deduct_items_abort in E as (Hr & Hc & Hp & Ho). done.
  - apply deduct_items_done in E as (Hc & Ho & _). rewrite Ho.
    split; [|by intros [? _]].
    intros (_ & Hno)%deduct_refusal_message. done.
Qed.

Ltac no_commit :=
  simpl; repeat (apply not_elem_of_cons; split; [done|]); apply not_elem_of_nil.

Lemma deduct_inventory_in_session db env order_id admin_id s :
  let out := deduct_inventory db env order_id admin_id (Some s) in
  (result out).1 = true →
  orders (pending (session_after out)) =
    update_order order_id (Order.set_reserved_until None) (orders (pending s)).
Proof.
  unfold deduct_inventory, result, session_after. simpl.
  destruct (first_order order_id _) as [order|]; [|done].
  destruct (deduct_items _ _ _ _ _ _) as [[[r|] s'] t'] eqn:E; simpl.
  - apply deduct_items_abort in E as (Hr & _). congruence.
  - apply deduct_items_done in E as (_ & _ & Hord & _). by rewrite Hord.
Qed.

(* a caller that deducts inside its session, marks the order delivered and
   commits: one commit carries both *)
Lemma deduct_then_mark_delivered db env order_id admin_id s order :
  first_order order_id (orders (pending s)) = Some order →
  let out := deduct_inventory db env order_id admin_id (Some s) in
  (result out).1 = true →
  let s2 :=
    session_commit (session_write (mark_delivered order_id) (session_after out)) in
  ops s2 = ops s ++ [Commit] ∧
  goods (committed s2) = goods (pending (session_after out)) ∧
  inventory_log (committed s2) = inventory_log (pending (session_after out)) ∧
  first_order order_id (orders (committed s2)) =
    Some (Order.set_order_status Status.delivered
            (Order.set_reserved_until None order)).
Proof.
  intros Hfirst out Hok s2.
  pose proof (deduct_inventory_calls db env order_id admin_id (Some s)) as Hcalls.
  pose proof (deduct_inventory_in_session db env order_id admin_id s Hok) as Hord.
  fold out in Hcalls, Hord. simpl in Hcalls. rewrite Hok in Hcalls.
  destruct Hcalls as [_ Hops]. subst s2. simpl. rewrite Hops.
  split; [done|]. split; [done|]. split; [done|].
  unfold mark_delivered. simpl. rewrite Hord.
  rewrite !first_order_update by done.
  rewrite !decide_True by done. by rewrite Hfirst.
Qed.

(** C9 (as amended): given a session of the caller, each of the four
    operations writes inside it and never commits or closes it, and issues
    no transaction call at all when it succeeds, so that the caller commits
    the combined work once: a deduction followed by the write that marks the
    order delivered is carried by the one commit of the caller. Release and
    restock never roll back. Reserve and deduct roll the session of the
    caller back exactly when they refuse inside their loop (an item is not
    found, the stock is insufficient, the stock would go negative): then
    what the session sees is again what is committed. An order that is not
    found leaves the session as it is, and so does a reserve that fails on
    the deadline, whose holds stay pending in the session. With no session
    given, an operation opens its own, commits it when it succeeds and
    closes it. *)
Theorem session_composability (db : DB) (env : Env) :
  (∀ order_id items pm session,
     let out := reserve_inventory db env order_id items pm session in
     match session with
     | Some s =>
         committed (session_after out) = committed s ∧
         (reserve_refusal items (result out).2 ↔
          ops (session_after out) = ops s ++ [Rollback]
          ∧ pending (session_after out) = committed s) ∧
         if (result out).1 then ops (session_after out) = ops s
         else
           ((result out).2 = "Order not found" ∧ session_after out = s)
           ∨ (reserve_refusal items (result out).2 ∧
              ops (session_after out) = ops s ++ [Rollback] ∧
              pending (session_after out) = committed s)
           ∨ ((∃ str_e, (result out).2 = error_reserving_message str_e) ∧
              ¬ deadline_in_range (committed s) env ∧
              ops (session_after out) = ops s ∧
              ∀ n, goods (pending (session_after out)) !! n =
                   (λ g, Goods.set_reserved_quantity
                           (Goods.reserved_quantity g
                            + total (quantities_for n (lines_of_items items))) g)
                     <$> goods (pending s) !! n)
     | None =>
         if (result out).1
         then ops (session_after out) = [Commit; Close]
              ∧ committed (session_after out) = pending (session_after out)
         else (ops (session_after out) = [Close]
               ∨ ops (session_after out) = [Rollback; Close])
              ∧ committed (session_after out) = db
     end) ∧
  (∀ order_id reason session,
     let out := release_reservation db env order_id reason session in
     match session with
     | Some s =>
         committed (session_after out) = committed s
         ∧ ops (session_after out) = ops s
     | None =>
         if (result out).1
         then ops (session_after out) = [Commit; Close]
              ∧ committed (session_after out) = pending (session_after out)
         else ops (session_after out) = [Close]
              ∧ committed (session_after out) = db
     end) ∧
  (∀ order_id admin_id session,
     let out := deduct_inventory db env order_id admin_id session in
     match session with
     | Some s =>
         committed (session_after out) = committed s ∧
         (∀ order, first_order order_id (orders (pending s)) = Some order →
            (deduct_refusal (Order.items order) (result out).2 ↔
             ops (session_after out) = ops s ++ [Rollback]
             ∧ pending (session_after out) = committed s)) ∧
         if (result out).1 then ops (session_after out) = ops s
         else
           ((result out).2 = "Order not found" ∧ session_after out = s)
           ∨ ((∃ order, first_order order_id (orders (pending s)) = Some order
                        ∧ deduct_refusal (Order.items order) (result out).2) ∧
              ops (session_after out) = ops s ++ [Rollback] ∧
              pending (session_after out) = committed s)
     | None =>
         if (result out).1
         then ops (session_after out) = [Commit; Close]
              ∧ committed (session_after out) = pending (session_after out)
         else (ops (session_after out) = [Close]
               ∨ ops (session_after out) = [Rollback; Close])
              ∧ committed (session_after out) = db
     end) ∧
  (∀ item_name quantity admin_id comment session,
     let out := add_inventory db item_name quantity admin_id comment session in
     match session with
     | Some s =>
         committed (session_after out) = committed s
         ∧ ops (session_after out) = ops s
     | None =>
         if (result out).1
         then ops (session_after out) = [Commit; Close]
              ∧ committed (session_after out) = pending (session_after out)
         else ops (session_after out) = [Close]
              ∧ committed (session_after out) = db
     end) ∧
  (∀ order_id admin_id s order,
     first_order order_id (orders (pending s)) = Some order →
     let out := deduct_inventory db env order_id admin_id (Some s) in
     (result out).1 = true →
     let s2 :=
       session_commit (session_write (mark_delivered order_id) (session_after out)) in
     ops s2 = ops s ++ [Commit] ∧
     goods (committed s2) = goods (pending (session_after out)) ∧
     inventory_log (committed s2) = inventory_log (pending (session_after out)) ∧
     first_order order_id (orders (committed s2)) =
       Some (Order.set_order_status Status.delivered
               (Order.set_reserved_until None order))).
Proof.
  split; [|split; [|split; [|split]]].
  - intros order_id items pm session out.
    pose proof (reserve_inventory_calls db env order_id items pm session) as Hcalls.
    fold out in Hcalls. destruct session as [s|]; [|done].
    destruct Hcalls as [Hc Hops]. split; [done|]. split; [|done].
    apply reserve_refusal_rolls_back.
  - intros. apply release_reservation_calls.
  - intros order_id admin_id session out.
    pose proof (deduct_inventory_calls db env order_id admin_id session) as Hcalls.
    fold out in Hcalls. destruct session as [s|]; [|done].
    destruct Hcalls as [Hc Hops]. split; [done|]. split; [|done].
    intros order Hfirst. by apply deduct_refusal_rolls_back.
  - intros. apply add_inventory_calls.
  - intros. by apply deduct_then_mark_delivered.
Qed.

(** C9, the claim as stated fails: the caller hands in a session in which it
    has marked order 2 cancelled without committing yet; the reserve that
    falls short rolls that session back, and the write of the caller is
    gone with it. *)
Lemma supplied_session_rollback_counterexample :
  let out :=
    reserve_inventory widget_db_held quiet_env 2 [ItemData.mk "Widget" 1]
      None (Some caller_session) in
  Order.order_status <$> first_order 2 (orders (pending caller_session))
    = Some Status.cancelled ∧
  (result out).1 = false ∧
  ops caller_session = [] ∧
  ops (session_after out) = [Rollback] ∧
  Order.order_status <$> first_order 2 (orders (pending (session_after out)))
    = Some Status.pending.
Proof. repeat split. Qed.

(** ** The payment-address pool *)

Lemma file_addresses_elem a lines :
  a ∈ Bitcoin.file_addresses lines ↔
  ∃ line, line ∈ lines ∧ Bitcoin.strip line = a ∧ a ≠ ""
          ∧ Bitcoin.is_comment a = false.
Proof.
  unfold Bitcoin.file_addresses. rewrite list_elem_of_fmap. split.
  - intros (line & -> & Hin). exists line.
    apply list_elem_of_In, filter_In in Hin as [Hin Hkeep].
    apply andb_prop in Hkeep as [Hne Hnc].
    apply negb_true_iff in Hne, Hnc. apply bool_decide_eq_false in Hne.
    split; [by apply list_elem_of_In|done].
  - intros (line & Hin & <- & Hne & Hnc). exists line. split; [done|].
    apply list_elem_of_In, filter_In. split; [by apply list_elem_of_In|].
    apply andb_true_intro. split; apply negb_true_iff; [|done].
    by apply bool_decide_eq_false.
Qed.

Lemma remove_bitcoin_address_from_file_elem address lines a :
  a ∈ Bitcoin.file_addresses
        (List.filter
           (λ line,
              let stripped := Bitcoin.strip line in
              bool_decide (stripped = "") || Bitcoin.is_comment stripped
              || negb (bool_decide (stripped = address)))
           lines)
  ↔ a ∈ Bitcoin.file_addresses lines ∧ a ≠ address.
Proof.
  rewrite !file_addresses_elem. split.
  - intros (line & Hin & <- & Hne & Hnc).
    apply list_elem_of_In, filter_In in Hin as [Hin Hkeep]. simpl in Hkeep.
    rewrite Hnc, bool_decide_eq_false_2 in Hkeep by done. simpl in Hkeep.
    apply negb_true_iff, bool_decide_eq_false in Hkeep.
    split; [|done]. exists line. split; [by apply list_elem_of_In|done].
  - intros [(line & Hin & <- & Hne & Hnc) Hother]. exists line.
    split; [|done]. apply list_elem_of_In, filter_In.
    split; [by apply list_elem_of_In|]. simpl.
    rewrite Hnc, bool_decide_eq_false_2 by done. simpl.
    apply negb_true_iff. by apply bool_decide_eq_false.
Qed.

(** C3 (as amended): [mark_bitcoin_address_used] succeeds whenever the
    address is in the pool, used already or not: it records the assignee,
    the time and the order (overwriting what was recorded before) and
    removes the address from the backing file, whose other addresses stay.
    It returns False, and changes nothing, only when the address is not in
    the pool. *)
Theorem mark_bitcoin_address_used_outcome
    (db : DB) (file : Bitcoin.AddressFile) (env : Env) (address : string)
    (user_id : Z) (user_username : string) (order_id : Z)
    (session : option Session) (order_code : option string) :
  let s := entry_session db session in
  let out :=
    Bitcoin.mark_bitcoin_address_used db file env address user_id user_username
      order_id session order_code in
  match bitcoin_addresses (pending s) !! address with
  | Some row =>
      out.1.1.1 = true ∧
      bitcoin_addresses (pending out.1.1.2) !! address =
        Some (BitcoinAddress.mk true (Some user_id) (Some (now env)) (Some order_id)) ∧
      (file = None → out.1.2 = None) ∧
      (∀ lines, file = Some lines →
         ∃ lines', out.1.2 = Some lines' ∧
           ∀ a, a ∈ Bitcoin.file_addresses lines'
                ↔ a ∈ Bitcoin.file_addresses lines ∧ a ≠ address)
  | None =>
      out.1.1.1 = false ∧ out.1.2 = file ∧
      pending out.1.1.2 = pending s ∧ committed out.1.1.2 = committed s
  end.
Proof.
  intros s out. subst s out. unfold Bitcoin.mark_bitcoin_address_used, entry_session.
  destruct session as [s0|]; simpl.
  - destruct (bitcoin_addresses (pending s0) !! address) as [row|]; simpl; [|done].
    rewrite lookup_insert_eq. repeat split; try done.
    + by intros ->.
    + intros lines ->. simpl. eexists. split; [done|].
      intros a. apply remove_bitcoin_address_from_file_elem.
  - destruct (bitcoin_addresses db !! address) as [row|]; simpl; [|done].
    rewrite lookup_insert_eq. repeat split; try done.
    + by intros ->.
    + intros lines ->. simpl. eexists. split; [done|].
      intros a. apply remove_bitcoin_address_from_file_elem.
Qed.

(** C3, the claim as stated fails: the second call for the same address,
    from another buyer and order, returns True again and overwrites the
    assignee and the order recorded by the first call. *)
Lemma mark_bitcoin_address_used_twice_counterexample :
  let first_call :=
    Bitcoin.mark_bitcoin_address_used pool_db pool_file quiet_env
      "bc1qtest1234567890" 100 "alice" 1 None (Some "ECBDJI") in
  let db1 := committed first_call.1.1.2 in
  let second_call :=
    Bitcoin.mark_bitcoin_address_used db1 first_call.1.2 quiet_env
      "bc1qtest1234567890" 101 "bob" 2 None None in
  first_call.1.1.1 = true ∧
  bitcoin_addresses db1 !! "bc1qtest1234567890"
    = Some (BitcoinAddress.mk true (Some 100) (Some 1000) (Some 1)) ∧
  first_call.1.2 = Some ["# payment addresses"; ""; "  bc1qother  "] ∧
  second_call.1.1.1 = true ∧
  bitcoin_addresses (committed second_call.1.1.2) !! "bc1qtest1234567890"
    = Some (BitcoinAddress.mk true (Some 101) (Some 1000) (Some 2)).
Proof. repeat split. Qed.

(** ** The expiry sweep *)

Lemma release_reservation_in_session db env order_id reason s order :
  first_order order_id (orders (pending s)) = Some order →
  let out := release_reservation db env order_id reason (Some s) in
  (result out).1 = true ∧
  committed (session_after out) = committed s ∧
  ops (session_after out) = ops s ∧
  orders (pending (session_after out)) =
    update_order order_id (Order.set_reserved_until None) (orders (pending s)).
Proof.
  intros Hfirst. unfold release_reservation, result, session_after. simpl.
  rewrite Hfirst.
  pose proof (release_items_done order order_id reason (Order.items order) s [])
    as (Hc & Ho & Hord & _).
  destruct (release_items _ _ _ _ _ _) as [s' t']. simpl in *.
  by rewrite Hord.
Qed.

Lemma refund_bonus_session env order s :
  let out := refund_bonus env order s in
  committed out.1.2 = committed s ∧ ops out.1.2 = ops s ∧
  orders (pending out.1.2) = orders (pending s) ∧
  (out.1.1 = Raised → csv_sync_raises env (Order.buyer_id order) = true).
Proof.
  unfold refund_bonus.
  destruct (Order.bonus_applied order) as [bonus|]; [|done].
  case_decide; [|done].
  destruct (customer_info (pending s) !! Order.buyer_id order) as [info|]; [|done].
  by destruct (csv_sync_raises env (Order.buyer_id order)).
Qed.

Lemma expire_row_idempotent o : expire_row (expire_row o) = expire_row o.
Proof. done. Qed.

Lemma expire_rows_step (walked : list Z) (order_id0 order_id : Z)
    (row : option Order.t) :
  (if decide (order_id ∈ walked)
   then expire_row <$> (if decide (order_id0 = order_id)
                        then expire_row <$> row else row)
   else if decide (order_id0 = order_id) then expire_row <$> row else row)
  = if decide (order_id ∈ order_id0 :: walked) then expire_row <$> row else row.
Proof.
  destruct (decide (order_id0 = order_id)) as [Heq|Hne];
    destruct (decide (order_id ∈ walked)) as [Hin|Hnot];
    destruct (decide (order_id ∈ order_id0 :: walked)) as [Hcons|Hcons];
    try done; try (by destruct row); exfalso;
    try (apply Hcons; subst; first [by left | by right]).
  apply elem_of_cons in Hcons as [?|?]; [congruence|done].
Qed.

(* the rows after the loop of the sweep: the rows it walked are expired *)
Lemma cleanup_orders_rows env expired_orders s count order_codes effects :
  (∀ o, o ∈ expired_orders →
     is_Some (first_order (Order.id o) (orders (pending s)))) →
  let out := cleanup_orders env expired_orders s count order_codes effects in
  committed (session_after out) = committed s ∧
  ops (session_after out) = ops s ∧
  match result out with
  | Returned (count', _) =>
      count' = count + Z.of_nat (List.length expired_orders) ∧
      ∀ order_id,
        first_order order_id (orders (pending (session_after out))) =
          if decide (order_id ∈ Order.id <$> expired_orders)
          then expire_row <$> first_order order_id (orders (pending s))
          else first_order order_id (orders (pending s))
  | Raised =>
      ∃ o, o ∈ expired_orders ∧ csv_sync_raises env (Order.buyer_id o) = true
  end.
Proof.
  unfold result, session_after.
  revert s count order_codes effects.
  induction expired_orders as [|order rest IH];
    intros s count order_codes effects Hrows.
  - simpl. repeat split; try done. lia.
  - destruct (Hrows order) as [row Hrow]; [left|].
    pose proof (release_reservation_in_session (committed s) env (Order.id order)
                  "Reservation timeout expired" s row Hrow) as Hrel.
    unfold result, session_after in Hrel. simpl in Hrel.
    cbn [cleanup_orders].
    destruct (release_reservation _ _ _ _ _) as [[[success message] s1] released].
    simpl in Hrel. destruct Hrel as (-> & Hc1 & Ho1 & Hord1).
    set (s2 := session_write _ s1).
    pose proof (refund_bonus_session env order s2) as (Hc2 & Ho2 & Hord2 & Hraise).
    destruct (refund_bonus env order s2) as [[[[]|] s3] refunded]; simpl in *.
    + assert (Hstep : ∀ order_id,
                first_order order_id (orders (pending s3)) =
                  if decide (Order.id order = order_id)
                  then expire_row <$> first_order order_id (orders (pending s))
                  else first_order order_id (orders (pending s))).
      { intros order_id. rewrite Hord2. subst s2. simpl.
        rewrite first_order_update by done. rewrite Hord1.
        rewrite first_order_update by done.
        case_decide; [|done].
        by destruct (first_order order_id (orders (pending s))). }
      specialize (IH s3 (count + 1)
                    (order_codes ++ [Order.code_or_id order (Order.id order)])
                    (effects ++ released ++ refunded
                     ++ [OrderCancellationLogged (Order.id order)])).
      destruct IH as (Hc & Ho & Hrest).
      { intros o Hin. rewrite Hstep.
        destruct (Hrows o) as [r Hr]; [by right|].
        rewrite Hr. by case_decide. }
      replace ((effects ++ released) ++ refunded
               ++ [OrderCancellationLogged (Order.id order)])
        with (effects ++ released ++ refunded
              ++ [OrderCancellationLogged (Order.id order)])
        by by rewrite <- !app_assoc.
      destruct (cleanup_orders env rest s3 _ _ _) as [[[[count' codes']|] s4] eff4];
        simpl in *.
      * split; [congruence|]. split; [congruence|].
        destruct Hrest as [-> Hrest]. split; [lia|].
        intros order_id. rewrite Hrest, !Hstep. apply expire_rows_step.
      * split; [congruence|]. split; [congruence|].
        destruct Hrest as (o & Hin & Ho'). exists o. split; [by right|done].
    + split; [congruence|]. split; [congruence|].
      exists order. split; [left|]. by apply Hraise.
Qed.

Lemma filter_is_expired_rows now rows o :
  o ∈ List.filter (is_expired now) rows → o ∈ rows ∧ is_expired now o = true.
Proof. intros Hin. by apply list_elem_of_In, filter_In in Hin as [?%list_elem_of_In ?]. Qed.

(* what one cycle of the sweep leaves, by its outcome *)
Lemma cleanup_expired_reservations_outcome (db : DB) (env : Env) :
  let out := cleanup_expired_reservations db env in
  let due := List.filter (is_expired (now env)) (orders db) in
  match result out with
  | Returned (count, order_codes) =>
      ops (session_after out) = [Commit; Close] ∧
      count = Z.of_nat (List.length due) ∧
      ∀ order_id,
        first_order order_id (orders (committed (session_after out))) =
          if decide (order_id ∈ Order.id <$> due)
          then expire_row <$> first_order order_id (orders db)
          else first_order order_id (orders db)
  | Raised =>
      ops (session_after out) = [Close] ∧
      committed (session_after out) = db ∧
      ∃ o, o ∈ due ∧ csv_sync_raises env (Order.buyer_id o) = true
  end.
Proof.
  intros out due. subst out due.
  unfold cleanup_expired_reservations, result, session_after. simpl.
  pose proof (cleanup_orders_rows env
                (List.filter (is_expired (now env)) (orders db))
                (Database_session db) 0 [] []) as Hloop.
  unfold result, session_after in Hloop. simpl in Hloop.
  destruct Hloop as (Hc & Ho & Hrows).
  { intros o [Hin _]%filter_is_expired_rows. by apply first_order_is_Some. }
  destruct (cleanup_orders env _ _ _ _ _) as [[[[count codes]|] s'] effects];
    simpl in *.
  - rewrite Ho. destruct Hrows as [-> Hrows].
    split; [done|]. split; [lia|]. done.
  - by rewrite Ho, Hc.
Qed.

(* an order that is due stays due as the clock moves on *)
Lemma is_expired_later now later o :
  now ≤ later → is_expired now o = true → is_expired later o = true.
Proof.
  unfold is_expired. intros Hle [Hstatus Hdeadline]%andb_prop.
  rewrite Hstatus. simpl.
  destruct (Order.reserved_until o) as [t|]; [|done].
  apply bool_decide_eq_true in Hdeadline. apply bool_decide_eq_true. lia.
Qed.

(** C5 (as amended): one cycle of the sweep walks all due orders (status
    reserved and deadline before now) inside a single session that is
    committed once, after the last order. When the cycle returns, every due
    order is expired with its deadline cleared, the other orders are as they
    were, the count is the number of due orders, and the task sleeps 60
    seconds. When the clean-up of one order raises (the customer file
    cannot be written), the session is closed without a commit: nothing of
    the cycle is kept, the orders walked so far included, the task sleeps
    120 seconds, and every due order is due again at the cycle that
    follows that sleep. *)
Theorem cleanup_expired_reservations_single_transaction (db : DB) (env : Env) :
  let out := cleanup_expired_reservations db env in
  let due := List.filter (is_expired (now env)) (orders db) in
  let turn := ReservationCleaner.run_reservation_cleaner_turn db env in
  let db' := turn.1.1 in
  let sleep := turn.1.2 in
  db' = committed (session_after out) ∧
  match result out with
  | Returned (count, order_codes) =>
      ops (session_after out) = [Commit; Close] ∧
      count = Z.of_nat (List.length due) ∧
      (∀ order_id,
         first_order order_id (orders (committed (session_after out))) =
           if decide (order_id ∈ Order.id <$> due)
           then expire_row <$> first_order order_id (orders db)
           else first_order order_id (orders db)) ∧
      sleep = 60
  | Raised =>
      ops (session_after out) = [Close] ∧
      committed (session_after out) = db ∧
      (∃ o, o ∈ due ∧ csv_sync_raises env (Order.buyer_id o) = true) ∧
      sleep = 120 ∧
      ∀ o, o ∈ due → o ∈ List.filter (is_expired (now env + sleep)) (orders db')
  end.
Proof.
  intros out due turn db' sleep.
  pose proof (cleanup_expired_reservations_outcome db env) as Hout.
  cbn zeta in Hout. fold out due in Hout.
  subst db' sleep turn. unfold ReservationCleaner.run_reservation_cleaner_turn.
  fold out. unfold result, session_after in *.
  destruct out as [[[[count codes]|] s'] effects]; simpl in *.
  - destruct Hout as (Hops & Hcount & Hrows). done.
  - destruct Hout as (Hops & Hc & Hraise). split; [done|].
    split; [done|]. split; [done|]. split; [done|]. split; [done|].
    intros o [Hin Hdue]%filter_is_expired_rows.
    apply list_elem_of_In, filter_In. rewrite Hc. split.
    + by apply list_elem_of_In.
    + apply (is_expired_later (now env)); [lia|done].
Qed.

(** C5, the claim as stated fails: orders 10 and 11 are both due; the
    clean-up of order 11 raises after order 10 has been released and marked
    expired in the session. The cycle issues no commit, so order 10 is
    still reserved with its units held, and the task sleeps 120 seconds.
    When nothing raises, the two orders are expired by one commit. *)
Lemma cleanup_expired_reservations_abort_counterexample :
  let out := cleanup_expired_reservations sweep_db csv_failing_env in
  result out = Raised ∧
  ops (session_after out) = [Close] ∧
  committed (session_after out) = sweep_db ∧
  Order.order_status <$> first_order 10 (orders (committed (session_after out)))
    = Some Status.reserved ∧
  goods (committed (session_after out)) !! "Widget" = Some (Goods.mk 10 3) ∧
  (ReservationCleaner.run_reservation_cleaner_turn sweep_db csv_failing_env).1
    = (sweep_db, 120) ∧
  (let quiet := cleanup_expired_reservations sweep_db quiet_env in
   result quiet = Returned (2, ["SWEEP1"; "SWEEP2"]) ∧
   ops (session_after quiet) = [Commit; Close] ∧
   goods (committed (session_after quiet)) !! "Widget" = Some (Goods.mk 10 0)).
Proof. repeat split. Qed.

(** ** Transitions of the order *)

Lemma first_order_by_code_elem code rows o :
  first_order_by_code code rows = Some o → o ∈ rows.
Proof.
  induction rows as [|r rows IH]; simpl; [done|].
  case_decide.
  - intros [= ->]. left.
  - intros H'. right. auto.
Qed.

Lemma not_due_not_walked now rows o :
  NoDup (Order.id <$> rows) → o ∈ rows → is_expired now o = false →
  Order.id o ∉ Order.id <$> List.filter (is_expired now) rows.
Proof.
  intros Hnd Hin Hnot (o' & Hid & [Hin' Hdue]%filter_is_expired_rows)%list_elem_of_fmap.
  pose proof (first_order_NoDup rows o Hnd Hin) as H1.
  pose proof (first_order_NoDup rows o' Hnd Hin') as H2.
  rewrite Hid, H2 in H1. injection H1 as ->. congruence.
Qed.

(* the sweep leaves an order that is not due as it is *)
Lemma cleanup_expired_reservations_keeps_row db env o :
  NoDup (Order.id <$> orders db) → o ∈ orders db →
  is_expired (now env) o = false →
  first_order (Order.id o)
    (orders (committed (session_after (cleanup_expired_reservations db env))))
  = Some o.
Proof.
  intros Hnd Hin Hnot.
  pose proof (cleanup_expired_reservations_outcome db env) as Hout.
  simpl in Hout.
  destruct (result (cleanup_expired_reservations db env)) as [[count codes]|].
  - destruct Hout as (_ & _ & ->).
    rewrite decide_False by by apply not_due_not_walked.
    by apply first_order_NoDup.
  - destruct Hout as (_ & -> & _). by apply first_order_NoDup.
Qed.

(* the command that confirms never reaches its commit *)
Lemma confirm_order_with_delivery_time_outcome db env order_code delivery_time :
  let out := Cli.confirm_order_with_delivery_time db env order_code delivery_time in
  committed (session_after out) = db ∧
  ops (session_after out) = [Close] ∧
  effects_of out = [] ∧
  result out =
    match first_order_by_code order_code (orders db) with
    | None => Returned Cli.OrderNotFound
    | Some order =>
        if decide (Order.order_status order = Status.delivered)
        then Returned Cli.AlreadyDelivered
        else if Cli.refused_status (Order.order_status order)
        then Returned Cli.CancelledOrExpired
        else if delivery_time is Some _ then Raised
        else Returned Cli.InvalidDeliveryTime
    end.
Proof.
  unfold Cli.confirm_order_with_delivery_time, result, session_after, effects_of.
  simpl. destruct (first_order_by_code order_code (orders db)) as [order|]; [|done].
  case_decide; [done|].
  destruct (Cli.refused_status _); [done|].
  by destruct delivery_time.
Qed.

(* nor does the command that delivers: what it deducted in its session is
   dropped when the session is closed *)
Lemma mark_order_delivered_outcome db env order_code :
  let out := Cli.mark_order_delivered db env order_code in
  committed (session_after out) = db ∧
  (Commit ∉ ops (session_after out)) ∧
  (result out =
     match first_order_by_code order_code (orders db) with
     | None => Returned Cli.OrderNotFound
     | Some order =>
         if decide (Order.order_status order = Status.delivered)
         then Returned Cli.AlreadyDelivered
         else if Cli.refused_status (Order.order_status order)
         then Returned Cli.CancelledOrExpired
         else
           let deducted :=
             deduct_inventory db env (Order.id order) (Some (owner_id env))
               (Some (Database_session db)) in
           if (result deducted).1 then Raised
           else Returned (Cli.DeductFailed (result deducted).2)
     end).
Proof.
  unfold Cli.mark_order_delivered, result, session_after. simpl.
  destruct (first_order_by_code order_code (orders db)) as [order|];
    [|by split; [|split; [no_commit|]]].
  case_decide; [by split; [|split; [no_commit|]]|].
  destruct (Cli.refused_status _); [by split; [|split; [no_commit|]]|].
  pose proof (deduct_inventory_calls db env (Order.id order) (Some (owner_id env))
                (Some (Database_session db))) as Hcalls.
  unfold result, session_after in Hcalls. simpl in Hcalls.
  destruct (deduct_inventory _ _ _ _ _) as [[[success msg] s'] t']. simpl in *.
  destruct Hcalls as [Hc Ho]. destruct success; simpl.
  - split; [done|]. split; [|done]. rewrite Ho. no_commit.
  - split; [done|]. split; [|done].
    destruct Ho as [[_ ->]|[_ [-> _]]]; no_commit.
Qed.

(** C8: an order that was never reserved is never confirmed, delivered or
    expired. On a table of distinct order ids, take an order without a
    deadline whose status is still pending. The sweep selects only orders
    whose status is reserved and whose deadline has passed, so it leaves the
    row as it is. The command that confirms and the command that delivers
    never reach their commit, whatever code and time they are given: what
    they leave committed is the database they found, so the row is as it
    was, still pending and without a deadline. *)
Theorem never_reserved_order_kept (db : DB) (env : Env) (o : Order.t) :
  NoDup (Order.id <$> orders db) → o ∈ orders db →
  Order.reserved_until o = None → Order.order_status o = Status.pending →
  let kept (db' : DB) :=
    (first_order (Order.id o) (orders db') = Some o ∧
     ∀ o', first_order (Order.id o) (orders db') = Some o' →
       Order.order_status o' ∉ [Status.confirmed; Status.delivered; Status.expired]) in
  kept (committed (session_after (cleanup_expired_reservations db env))) ∧
  (∀ order_code delivery_time,
     kept (committed (session_after
       (Cli.confirm_order_with_delivery_time db env order_code delivery_time)))) ∧
  (∀ order_code,
     kept (committed (session_after (Cli.mark_order_delivered db env order_code)))).
Proof.
  intros Hnd Hin Hdeadline Hstatus kept.
  assert (Hkept : ∀ db', first_order (Order.id o) (orders db') = Some o → kept db').
  { intros db' Hrow. split; [done|]. rewrite Hrow. intros o' [= <-].
    rewrite Hstatus. intros Hbad.
    repeat (apply elem_of_cons in Hbad as [Hbad|Hbad]; [done|]).
    by apply elem_of_nil in Hbad. }
  split; [|split].
  - apply Hkept, cleanup_expired_reservations_keeps_row; [done|done|].
    unfold is_expired. rewrite Hdeadline. apply andb_false_r.
  - intros order_code delivery_time. apply Hkept.
    destruct (confirm_order_with_delivery_time_outcome db env order_code delivery_time)
      as (-> & _). by apply first_order_NoDup.
  - intros order_code. apply Hkept.
    destruct (mark_order_delivered_outcome db env order_code) as (-> & _).
    by apply first_order_NoDup.
Qed.

Lemma never_reserved_order_kept_witness :
  let o := Order.mk 7 100 (Some "PEND01") Status.pending cash None None 1000
             None None [OrderItem.mk "Widget" 2] in
  first_order 7
    (orders (committed (session_after
       (cleanup_expired_reservations never_reserved_db quiet_env)))) = Some o ∧
  first_order 7
    (orders (committed (session_after
       (Cli.confirm_order_with_delivery_time never_reserved_db quiet_env
          "PEND01" (Some 5000))))) = Some o ∧
  first_order 7
    (orders (committed (session_after
       (Cli.mark_order_delivered never_reserved_db quiet_env "PEND01")))) = Some o.
Proof.
  destruct (never_reserved_order_kept never_reserved_db quiet_env
              (Order.mk 7 100 (Some "PEND01") Status.pending cash None None 1000
                 None None [OrderItem.mk "Widget" 2]))
    as ([Hsweep _] & Hconfirm & Hdeliver).
  - apply NoDup_singleton.
  - left.
  - reflexivity.
  - reflexivity.
  - split; [exact Hsweep|]. split.
    + exact (proj1 (Hconfirm "PEND01" (Some 5000))).
    + exact (proj1 (Hdeliver "PEND01")).
Defined.

(** * Further properties *)

(** ** The audit trail of reserve and deduct *)

Lemma reserve_items_log order order_id pm items s t s' t' :
  reserve_items order order_id pm items s t = (None, s', t') →
  inventory_log (pending s') =
    inventory_log (pending s) ++ (reserve_log order order_id pm <$> items) ∧
  t' = t ++ (CacheInvalidated ∘ ItemData.item_name <$> items).
Proof.
  revert s t. induction items as [|it rest IH]; intros s t.
  - simpl. intros [= <- <-]. by rewrite !app_nil_r.
  - rewrite reserve_items_cons.
    destruct (goods (pending s) !! ItemData.item_name it) as [g|]; [|done].
    case_decide; [done|].
    intros [Hlog Ht]%IH. simpl in *.
    rewrite Hlog, Ht, <- !app_assoc. done.
Qed.

(** X1: every successful reserve is audited in its own transaction: the log
    that the session sees grows by exactly one entry of type reserve per
    requested item, in the order of the request, and one cache invalidation
    is scheduled per item. A reserve that fails commits no entry. When it
    was refused inside the loop, no entry is left pending either: the log
    is the committed one. When it failed on the deadline, a session of its
    own is rolled back, and a session of the caller keeps the entries of
    the loop pending. *)
Theorem reserve_inventory_audit
    (db : DB) (env : Env) (order_id : Z) (items : list ItemData.t)
    (pm : option PaymentMethod) (session : option Session) (order : Order.t) :
  let s := entry_session db session in
  first_order order_id (orders (pending s)) = Some order →
  let out := reserve_inventory db env order_id items pm session in
  let entries :=
    reserve_log order order_id (default (Order.payment_method order) pm) <$> items in
  if (result out).1 then
    inventory_log (pending (session_after out)) = inventory_log (pending s) ++ entries ∧
    effects_of out = (CacheInvalidated ∘ ItemData.item_name <$> items)
  else
    inventory_log (committed (session_after out)) = inventory_log (committed s) ∧
    ((reserve_refusal items (result out).2 ∧
      inventory_log (pending (session_after out)) = inventory_log (committed s))
     ∨ ((∃ str_e, (result out).2 = error_reserving_message str_e) ∧
        inventory_log (pending (session_after out)) =
          if is_None session then inventory_log (committed s)
          else inventory_log (pending s) ++ entries)).
Proof.
  intros s Hfirst out entries. subst s out entries.
  destruct session as [s0|]; open_reserve Hfirst E.
  - pose proof (reserve_items_refused _ _ _ _ _ _ _ _ _ E) as Hmsg.
    destruct (reserve_items_abort _ _ _ _ _ _ _ _ _ E) as (Hr & Hc & Hp & _).
    simpl. rewrite Hr. rewrite Hp, Hc. split; [done|]. by left.
  - by apply reserve_items_log in E as [Hlog ->].
  - pose proof (reserve_items_log _ _ _ _ _ _ _ _ E) as [Hlog _].
    apply reserve_items_done in E as (Hc & _).
    simpl. rewrite Hc. split; [done|]. right. split; [by exists str_e|done].
  - pose proof (reserve_items_refused _ _ _ _ _ _ _ _ _ E) as Hmsg.
    destruct (reserve_items_abort _ _ _ _ _ _ _ _ _ E) as (Hr & Hc & Hp & _).
    simpl in *. rewrite Hr. rewrite Hc. split; [done|]. by left.
  - by apply reserve_items_log in E as [Hlog ->].
  - apply reserve_items_done in E as (Hc & _).
    simpl in *. rewrite Hc. split; [done|]. right. split; [by exists str_e|done].
Qed.

Lemma reserve_inventory_audit_witness :
  inventory_log (committed (session_after
    (reserve_inventory widget_db quiet_env 1 [ItemData.mk "Widget" 10] None None)))
  = [InventoryLog.mk "Widget" ct_reserve 10 (Some 1) None
       (Some "Reserved for order ECBDJI (cash payment)")].
Proof.
  pose proof (reserve_inventory_audit widget_db quiet_env 1
                [ItemData.mk "Widget" 10] None None
                (Order.mk 1 100 (Some "ECBDJI") Status.pending cash None None 5000
                   None None [OrderItem.mk "Widget" 10]) eq_refl) as [Hlog _].
  exact Hlog.
Defined.

Lemma deduct_items_log order order_id admin_id order_items s t s' t' :
  deduct_items order order_id admin_id order_items s t = (None, s', t') →
  inventory_log (pending s') =
    inventory_log (pending s)
    ++ (deduct_log order order_id admin_id <$> order_items) ∧
  t' = t ++ (CacheInvalidated ∘ OrderItem.item_name <$> order_items).
Proof.
  revert s t. induction order_items as [|oi rest IH]; intros s t.
  - simpl. intros [= <- <-]. by rewrite !app_nil_r.
  - rewrite deduct_items_cons.
    destruct (goods (pending s) !! OrderItem.item_name oi) as [g|]; [|done].
    case_decide; [done|].
    intros [Hlog Ht]%IH. simpl in *.
    rewrite Hlog, Ht, <- !app_assoc. done.
Qed.

(** X2: every successful deduct is audited in its own transaction: one
    entry of type deduct per line of the order, with the negated quantity
    and the admin, in the order of the lines. A refused deduct leaves no
    entry. *)
Theorem deduct_inventory_audit
    (db : DB) (env : Env) (order_id : Z) (admin_id : option Z)
    (session : option Session) (order : Order.t) :
  let s := entry_session db session in
  first_order order_id (orders (pending s)) = Some order →
  let out := deduct_inventory db env order_id admin_id session in
  if (result out).1 then
    inventory_log (pending (session_after out)) =
      inventory_log (pending s)
      ++ (deduct_log order order_id admin_id <$> Order.items order)
  else
    inventory_log (pending (session_after out)) = inventory_log (committed s).
Proof.
  intros s Hfirst out. subst s out.
  destruct session as [s0|]; open_deduct Hfirst E; simpl in *.
  - destruct (deduct_items_abort _ _ _ _ _ _ _ _ _ E) as (Hr & _ & Hp & _).
    rewrite Hr. by rewrite Hp.
  - by apply deduct_items_log in E as [Hlog _].
  - destruct (deduct_items_abort _ _ _ _ _ _ _ _ _ E) as (Hr & Hc & Hp & _).
    simpl in *. rewrite Hr. by rewrite Hc.
  - by apply deduct_items_log in E as [Hlog _].
Qed.

Lemma deduct_inventory_audit_witness :
  inventory_log (committed (session_after
    (deduct_inventory slack_db quiet_env 6 (Some 7) None)))
  = [InventoryLog.mk "Widget" ct_deduct (-5) (Some 6) (Some 7)
       (Some "Order confirmed: DED001")].
Proof.
  exact (deduct_inventory_audit slack_db quiet_env 6 (Some 7) None
           (Order.mk 6 100 (Some "DED001") Status.confirmed cash None None 2500
              None None [OrderItem.mk "Widget" 5]) eq_refl).
Defined.

(** ** What release and reserve leave alone *)

Lemma release_items_frame order order_id reason order_items s t n :
  Goods.stock_quantity
    <$> goods (pending (release_items order order_id reason order_items s t).1) !! n
  = Goods.stock_quantity <$> goods (pending s) !! n.
Proof.
  pose proof (release_items_done order order_id reason order_items s t)
    as (_ & _ & _ & _ & _ & Hgoods).
  rewrite Hgoods. by destruct (goods (pending s) !! n).
Qed.

(** X3: a release is never refused for an order that exists, whatever is
    left of its items in the catalogue; for an unknown order it fails with
    "Order not found". In both cases it changes no stock_quantity, adds or
    removes no goods row, and leaves the status of every order as it is. *)
Theorem release_reservation_frame
    (db : DB) (env : Env) (order_id : Z) (reason : string)
    (session : option Session) :
  let s := entry_session db session in
  let out := release_reservation db env order_id reason session in
  result out =
    (if first_order order_id (orders (pending s)) is Some _
     then (true, "Reservation released successfully")
     else (false, "Order not found")) ∧
  (∀ n, Goods.stock_quantity <$> goods (pending (session_after out)) !! n
        = Goods.stock_quantity <$> goods (pending s) !! n) ∧
  (∀ other, Order.order_status
              <$> first_order other (orders (pending (session_after out)))
            = Order.order_status <$> first_order other (orders (pending s))).
Proof.
  intros s out. subst s out.
  unfold release_reservation, result, session_after, entry_session.
  destruct session as [s0|]; simpl.
  - destruct (first_order order_id (orders (pending s0))) as [order|] eqn:Hfirst;
      [|done].
    pose proof (release_items_done order order_id reason (Order.items order) s0 [])
      as (_ & _ & Hord & _).
    pose proof (release_items_frame order order_id reason (Order.items order) s0 [])
      as Hframe.
    destruct (release_items _ _ _ _ _ _) as [s' t']. simpl in *.
    split; [done|]. split; [done|]. intros other.
    rewrite first_order_update, Hord by done.
    case_decide; [|done]. by destruct (first_order other (orders (pending s0))).
  - destruct (first_order order_id (orders db)) as [order|] eqn:Hfirst; [|done].
    pose proof (release_items_done order order_id reason (Order.items order)
                  (Database_session db) []) as (_ & _ & Hord & _).
    pose proof (release_items_frame order order_id reason (Order.items order)
                  (Database_session db) []) as Hframe.
    destruct (release_items _ _ _ _ _ _) as [s' t']. simpl in *.
    split; [done|]. split; [done|]. intros other.
    rewrite first_order_update, Hord by done.
    case_decide; [|done]. by destruct (first_order other (orders db)).
Qed.

(* a covered request of distinct items: the rows after the reserve *)
Lemma reserve_inventory_rows db env order_id items pm session order :
  let s := entry_session db session in
  first_order order_id (orders (pending s)) = Some order →
  NoDup (ItemData.item_name <$> items) →
  (∀ it, it ∈ items →
     ∃ g, goods (pending s) !! ItemData.item_name it = Some g
          ∧ covers g (ItemData.quantity it)) →
  deadline_in_range (committed s) env →
  let out := reserve_inventory db env order_id items pm session in
  (result out).1 = true ∧
  committed (session_after out)
    = (if is_None session then pending (session_after out) else committed s) ∧
  (∀ n, goods (pending (session_after out)) !! n =
        (λ g, Goods.set_reserved_quantity
                (Goods.reserved_quantity g
                 + total (quantities_for n (lines_of_items items))) g)
          <$> goods (pending s) !! n).
Proof.
  intros s Hfirst Hnd Hall Hrange out.
  assert (Hok : (result out).1 = true).
  { subst s out. apply deadline_in_range_Value in Hrange.
    destruct session as [s0|]; open_reserve Hfirst E; try done.
    - destruct (reserve_items_succeeds order order_id
                  (default (Order.payment_method order) pm) items s0 [])
        as (s2 & t2 & E2); try done. congruence.
    - apply reserve_items_done in E as (Hc & _). rewrite Hc in Hdeadline.
      simpl in Hrange. congruence.
    - destruct (reserve_items_succeeds order order_id
                  (default (Order.payment_method order) pm) items
                  (Database_session db) [])
        as (s2 & t2 & E2); try done. congruence.
    - apply reserve_items_done in E as (Hc & _). rewrite Hc in Hdeadline.
      simpl in Hrange, Hdeadline. congruence. }
  split; [done|].
  by destruct (reserve_inventory_order db env order_id items pm session order
                 Hfirst Hok) as (_ & Hcommitted & Hgoods).
Qed.

(** X4: a successful reserve changes no stock_quantity and adds or removes
    no goods row: only held counts move. *)
Theorem reserve_inventory_keeps_stock
    (db : DB) (env : Env) (order_id : Z) (items : list ItemData.t)
    (pm : option PaymentMethod) (session : option Session) (order : Order.t) :
  let s := entry_session db session in
  first_order order_id (orders (pending s)) = Some order →
  let out := reserve_inventory db env order_id items pm session in
  (result out).1 = true →
  ∀ n, Goods.stock_quantity <$> goods (pending (session_after out)) !! n
       = Goods.stock_quantity <$> goods (pending s) !! n.
Proof.
  intros s Hfirst out Hok n.
  destruct (reserve_inventory_order db env order_id items pm session order
              Hfirst Hok) as (_ & _ & Hgoods).
  fold out in Hgoods. rewrite Hgoods. fold s.
  by destruct (goods (pending s) !! n).
Qed.

Lemma reserve_inventory_keeps_stock_witness :
  Goods.stock_quantity
    <$> goods (pending (session_after
          (reserve_inventory widget_db quiet_env 1 [ItemData.mk "Widget" 10]
             None None))) !! "Widget"
  = Some 10.
Proof.
  exact (reserve_inventory_keeps_stock widget_db quiet_env 1
           [ItemData.mk "Widget" 10] None None
           (Order.mk 1 100 (Some "ECBDJI") Status.pending cash None None 5000
              None None [OrderItem.mk "Widget" 10]) eq_refl eq_refl "Widget").
Defined.

(** ** An item that is not in the catalogue *)

Lemma reserve_items_missing order order_id pm items s t k it :
  NoDup (ItemData.item_name <$> items) →
  items !! k = Some it →
  goods (pending s) !! ItemData.item_name it = None →
  ∃ r s' t', reserve_items order order_id pm items s t = (Some r, s', t').
Proof.
  revert k s t.
  induction items as [|h rest IH]; intros k s t Hnd Hk Hg; [done|].
  rewrite fmap_cons, NoDup_cons in Hnd. destruct Hnd as [Hh Hnd].
  rewrite reserve_items_cons. destruct k as [|k]; simpl in Hk.
  - injection Hk as ->. rewrite Hg. eauto.
  - destruct (goods (pending s) !! ItemData.item_name h) as [gh|]; [|eauto].
    case_decide; [eauto|].
    eapply IH; [done|done|]. simpl.
    rewrite lookup_insert_ne; [done|].
    intros Heq. apply Hh. rewrite Heq.
    apply list_elem_of_fmap_2. by eapply list_elem_of_lookup_2.
Qed.

Lemma reserve_items_missing_first order order_id pm items s t k it :
  NoDup (ItemData.item_name <$> items) →
  items !! k = Some it →
  goods (pending s) !! ItemData.item_name it = None →
  (∀ j it', (j < k)%nat → items !! j = Some it' →
     ∃ g', goods (pending s) !! ItemData.item_name it' = Some g'
           ∧ covers g' (ItemData.quantity it')) →
  ∃ s' t',
    reserve_items order order_id pm items s t =
      (Some (false, item_not_found_message (ItemData.item_name it)), s', t').
Proof.
  unfold covers. revert k s t.
  induction items as [|h rest IH]; intros k s t Hnd Hk Hg Hbefore; [done|].
  rewrite fmap_cons, NoDup_cons in Hnd. destruct Hnd as [Hh Hnd].
  rewrite reserve_items_cons. destruct k as [|k]; simpl in Hk.
  - injection Hk as ->. rewrite Hg. eauto.
  - destruct (Hbefore 0%nat h) as (gh & Hgh & Hcov); [lia|done|].
    rewrite Hgh, decide_False by lia.
    assert (Hfresh : ∀ it', it' ∈ rest →
              ItemData.item_name h ≠ ItemData.item_name it').
    { intros it' Hin Heq. apply Hh. rewrite Heq. by apply list_elem_of_fmap_2. }
    eapply IH; [done|done| |]; simpl.
    + rewrite lookup_insert_ne; [done|].
      apply Hfresh. by eapply list_elem_of_lookup_2.
    + intros j it' Hj Hit'.
      destruct (Hbefore (S j) it') as (g' & Hg' & Hc'); [lia|done|].
      exists g'. rewrite lookup_insert_ne; [done|].
      apply Hfresh. by eapply list_elem_of_lookup_2.
Qed.

(** X6: a request that names an item missing from the catalogue. The reserve
    fails and the transaction is rolled back, whatever the other items are;
    when the items before the missing one are covered, the message is
    "Item '<name>' not found". *)
Theorem reserve_inventory_item_not_found
    (db : DB) (env : Env) (order_id : Z) (items : list ItemData.t)
    (pm : option PaymentMethod) (session : option Session)
    (k : nat) (it : ItemData.t) :
  let s := entry_session db session in
  is_Some (first_order order_id (orders (pending s))) →
  NoDup (ItemData.item_name <$> items) →
  items !! k = Some it →
  goods (pending s) !! ItemData.item_name it = None →
  let out := reserve_inventory db env order_id items pm session in
  (result out).1 = false ∧
  pending (session_after out) = committed s ∧
  committed (session_after out) = committed s ∧
  ((∀ j it', (j < k)%nat → items !! j = Some it' →
      ∃ g', goods (pending s) !! ItemData.item_name it' = Some g'
            ∧ covers g' (ItemData.quantity it')) →
   (result out).2 = item_not_found_message (ItemData.item_name it)).
Proof.
  intros s [order Hfirst] Hnd Hk Hg out. subst s out.
  assert (Hloop : ∀ s1 s' t',
            reserve_items order order_id (default (Order.payment_method order) pm)
              items s1 [] = (None, s', t') →
            goods (pending s1) !! ItemData.item_name it = None → False).
  { intros s1 s' t' E Hg1.
    destruct (reserve_items_missing order order_id
                (default (Order.payment_method order) pm) items s1 [] k it)
      as (r2 & s2 & t2 & E2); try done. congruence. }
  destruct session as [s0|]; open_reserve Hfirst E;
    try (exfalso; exact (Hloop _ _ _ E Hg)).
  - destruct (reserve_items_abort _ _ _ _ _ _ _ _ _ E) as (Hr & Hc & Hp & _).
    simpl. repeat split; try done.
    intros Hbefore.
    destruct (reserve_items_missing_first order order_id
                (default (Order.payment_method order) pm) items s0 [] k it)
      as (s2 & t2 & E2); try done.
    rewrite E2 in E. by injection E as <- <- <-.
  - destruct (reserve_items_abort _ _ _ _ _ _ _ _ _ E) as (Hr & Hc & Hp & _).
    simpl in *. repeat split; try done.
    intros Hbefore.
    destruct (reserve_items_missing_first order order_id
                (default (Order.payment_method order) pm) items
                (Database_session db) [] k it)
      as (s2 & t2 & E2); try done.
    rewrite E2 in E. by injection E as <- <- <-.
Qed.

Lemma reserve_inventory_item_not_found_witness :
  let out :=
    reserve_inventory widget_db quiet_env 1
      [ItemData.mk "Widget" 1; ItemData.mk "Gadget" 1] None None in
  result out = (false, "Item 'Gadget' not found") ∧
  committed (session_after out) = widget_db.
Proof.
  destruct (reserve_inventory_item_not_found widget_db quiet_env 1
              [ItemData.mk "Widget" 1; ItemData.mk "Gadget" 1] None None
              1%nat (ItemData.mk "Gadget" 1))
    as (Hfail & _ & Hcommitted & Hmessage).
  - vm_compute. eauto.
  - apply (bool_decide_unpack _). vm_compute. reflexivity.
  - reflexivity.
  - reflexivity.
  - split; [|exact Hcommitted].
    rewrite (surjective_pairing (result _)), Hfail, Hmessage; [reflexivity|].
    intros j it' Hj Hit'. destruct j as [|j]; [|lia].
    injection Hit' as <-. exists (Goods.mk 10 0).
    split; [reflexivity|]. unfold covers. simpl. lia.
Defined.

(* when a loop of reserve went through, every item was there and covered *)
Lemma reserve_items_done_covered order order_id pm items s t s' t' :
  NoDup (ItemData.item_name <$> items) →
  reserve_items order order_id pm items s t = (None, s', t') →
  ∀ it, it ∈ items →
    ∃ g, goods (pending s) !! ItemData.item_name it = Some g
         ∧ covers g (ItemData.quantity it).
Proof.
  intros Hnd E it [k Hk]%list_elem_of_lookup_1.
  destruct (goods (pending s) !! ItemData.item_name it) as [g|] eqn:Hg.
  - exists g. split; [done|].
    destruct (decide (covers g (ItemData.quantity it))) as [|Hnot]; [done|].
    destruct (reserve_items_short order order_id pm items s t k it g)
      as (r2 & s2 & t2 & E2); try done. congruence.
  - destruct (reserve_items_missing order order_id pm items s t k it)
      as (r2 & s2 & t2 & E2); try done. congruence.
Qed.

(* a reserve that went through found every item of its request, when the
   items are distinct, covered by the free stock *)
Lemma reserve_inventory_covered db env order_id items pm session order :
  let s := entry_session db session in
  first_order order_id (orders (pending s)) = Some order →
  NoDup (ItemData.item_name <$> items) →
  (result (reserve_inventory db env order_id items pm session)).1 = true →
  ∀ it, it ∈ items →
    ∃ g, goods (pending s) !! ItemData.item_name it = Some g
         ∧ covers g (ItemData.quantity it).
Proof.
  intros s Hfirst Hnd. subst s.
  destruct session as [s0|]; open_reserve Hfirst E; simpl; try done.
  - destruct (reserve_items_abort _ _ _ _ _ _ _ _ _ E) as (Hr & _). congruence.
  - intros _. exact (reserve_items_done_covered _ _ _ _ _ _ _ _ Hnd E).
  - destruct (reserve_items_abort _ _ _ _ _ _ _ _ _ E) as (Hr & _). congruence.
  - intros _. exact (reserve_items_done_covered _ _ _ _ _ _ _ _ Hnd E).
Qed.

(** X5: the figures of [get_inventory_stats] after a reserve that
    succeeded. For a request of distinct items made through a session of
    its own: the stock of each requested item whose quantity is not
    negative is reported unchanged, the reserved figure higher by the
    quantity and the available figure lower by exactly the quantity. *)
Theorem get_inventory_stats_after_reserve
    (db : DB) (env : Env) (order_id : Z) (items : list ItemData.t)
    (pm : option PaymentMethod) (order : Order.t) (it : ItemData.t)
    (stock held available : Z) :
  first_order order_id (orders db) = Some order →
  NoDup (ItemData.item_name <$> items) →
  (result (reserve_inventory db env order_id items pm None)).1 = true →
  it ∈ items → 0 ≤ ItemData.quantity it →
  get_inventory_stats db (ItemData.item_name it) = Some (stock, held, available) →
  get_inventory_stats
    (committed (session_after (reserve_inventory db env order_id items pm None)))
    (ItemData.item_name it)
  = Some (stock, held + ItemData.quantity it, available - ItemData.quantity it).
Proof.
  intros Hfirst Hnd Hok Hin Hq Hstats.
  destruct (reserve_inventory_order db env order_id items pm None order
              Hfirst Hok) as (_ & Hcommitted & Hgoods).
  destruct (reserve_inventory_covered db env order_id items pm None order
              Hfirst Hnd Hok it Hin) as (g & Hg & Hcov).
  simpl in Hcommitted, Hgoods, Hg.
  unfold get_inventory_stats in *. rewrite Hcommitted, Hgoods.
  rewrite Hg in *. simpl.
  rewrite quantities_for_NoDup by done.
  injection Hstats as <- <- <-.
  unfold covers, Goods.available_quantity, total in *. destruct g as [st r].
  simpl in *. do 2 f_equal; [f_equal; lia|lia].
Qed.

Lemma get_inventory_stats_after_reserve_witness :
  get_inventory_stats widget_db_held "Widget" = Some (10, 10, 0).
Proof.
  apply (get_inventory_stats_after_reserve widget_db quiet_env 1
           [ItemData.mk "Widget" 10] None
           (Order.mk 1 100 (Some "ECBDJI") Status.pending cash None None 5000
              None None [OrderItem.mk "Widget" 10])
           (ItemData.mk "Widget" 10) 10 0 10).
  - reflexivity.
  - apply NoDup_singleton.
  - vm_compute. reflexivity.
  - left.
  - simpl. lia.
  - reflexivity.
Defined.

(** ** Reserve, then deduct *)

(* a deduct whose lines are all covered by the stock *)
Lemma deduct_inventory_rows db env order_id admin_id session order :
  let s := entry_session db session in
  first_order order_id (orders (pending s)) = Some order →
  NoDup (OrderItem.item_name <$> Order.items order) →
  (∀ oi, oi ∈ Order.items order →
     ∃ g, goods (pending s) !! OrderItem.item_name oi = Some g
          ∧ OrderItem.quantity oi ≤ Goods.stock_quantity g) →
  let out := deduct_inventory db env order_id admin_id session in
  (result out).1 = true ∧
  Order.reserved_until
    <$> first_order order_id (orders (pending (session_after out))) = Some None ∧
  (∀ n, goods (pending (session_after out)) !! n =
        (λ g, Goods.mk
                (Goods.stock_quantity g
                 - total (quantities_for n (lines_of_order_items (Order.items order))))
                (foldl clamp_sub (Goods.reserved_quantity g)
                   (quantities_for n (lines_of_order_items (Order.items order)))))
          <$> goods (pending s) !! n).
Proof.
  intros s Hfirst Hnd Hall out. subst s out.
  destruct session as [s0|]; open_deduct Hfirst E; simpl in *.
  - destruct (deduct_items_succeeds order order_id admin_id (Order.items order)
                s0 []) as (s2 & t2 & E2); try done. congruence.
  - apply deduct_items_done in E as (_ & _ & Hord & Hgoods).
    repeat split; [|done].
    rewrite first_order_update by done.
    rewrite decide_True by done. by rewrite Hord, Hfirst.
  - destruct (deduct_items_succeeds order order_id admin_id (Order.items order)
                (Database_session db) []) as (s2 & t2 & E2); try done. congruence.
  - apply deduct_items_done in E as (_ & _ & Hord & Hgoods). simpl in *.
    repeat split; [|done].
    rewrite first_order_update by done.
    rewrite decide_True by done. by rewrite Hord, Hfirst.
Qed.

(** X7: reserve followed by deduct for the lines of the same order, each
    item named once and held counts not negative before. The deduct goes
    through, the stock of every item of the order is lower by the quantity
    of its line, its held count is back to what it was before the reserve,
    every other item is untouched, and the deadline is cleared. *)
Theorem reserve_then_deduct
    (db : DB) (env : Env) (order_id : Z) (pm : option PaymentMethod)
    (admin_id : option Z) (session : option Session) (order : Order.t) :
  let s := entry_session db session in
  first_order order_id (orders (pending s)) = Some order →
  NoDup (OrderItem.item_name <$> Order.items order) →
  (∀ oi g, oi ∈ Order.items order →
     goods (pending s) !! OrderItem.item_name oi = Some g →
     0 ≤ Goods.reserved_quantity g) →
  let reserved_out :=
    reserve_inventory db env order_id (items_of_order order) pm session in
  (result reserved_out).1 = true →
  let s1 := session_after reserved_out in
  let deducted :=
    deduct_inventory (committed s1) env order_id admin_id ((λ _, s1) <$> session) in
  (result deducted).1 = true ∧
  (∀ oi, oi ∈ Order.items order →
     ∃ g, goods (pending s) !! OrderItem.item_name oi = Some g ∧
          goods (pending (session_after deducted)) !! OrderItem.item_name oi =
            Some (Goods.mk (Goods.stock_quantity g - OrderItem.quantity oi)
                    (Goods.reserved_quantity g))) ∧
  (∀ n, n ∉ OrderItem.item_name <$> Order.items order →
     goods (pending (session_after deducted)) !! n = goods (pending s) !! n) ∧
  Order.reserved_until
    <$> first_order order_id (orders (pending (session_after deducted))) = Some None.
Proof.
  intros s Hfirst Hnd Hheld reserved_out Hok s1 deducted.
  assert (Hnames : ItemData.item_name <$> items_of_order order
                   = OrderItem.item_name <$> Order.items order).
  { unfold items_of_order. by rewrite <- list_fmap_compose. }
  assert (Hcovered : ∀ oi, oi ∈ Order.items order →
            ∃ g, goods (pending s) !! OrderItem.item_name oi = Some g
                 ∧ covers g (OrderItem.quantity oi)).
  { intros oi Hin.
    assert (Hit : ItemData.mk (OrderItem.item_name oi) (OrderItem.quantity oi)
                  ∈ items_of_order order).
    { exact (list_elem_of_fmap_2
               (λ oi', ItemData.mk (OrderItem.item_name oi') (OrderItem.quantity oi'))
               _ oi Hin). }
    apply (reserve_inventory_covered db env order_id (items_of_order order) pm
             session order Hfirst ltac:(by rewrite Hnames) Hok _ Hit). }
  destruct (reserve_inventory_order db env order_id (items_of_order order)
              pm session order Hfirst Hok)
    as ((order' & Hfirst' & Hitems) & Hcommitted & Hgoods).
  fold reserved_out in Hfirst', Hcommitted, Hgoods.
  fold s1 in Hfirst', Hcommitted, Hgoods. fold s in Hgoods.
  rewrite lines_of_items_of_order in Hgoods.
  assert (Hentry : pending (entry_session (committed s1) ((λ _, s1) <$> session))
                   = pending s1).
  { destruct session; simpl in *; [done|]. by rewrite Hcommitted. }
  destruct (deduct_inventory_rows (committed s1) env order_id admin_id
              ((λ _, s1) <$> session) order') as (Hres & Hdeadline & Hgoods').
  { by rewrite Hentry. }
  { by rewrite Hitems. }
  { rewrite Hitems, Hentry. intros oi Hin.
    destruct (Hcovered oi Hin) as (g & Hg & Hcov).
    pose proof (Hheld oi g Hin Hg).
    rewrite Hgoods, Hg. simpl. eexists. split; [done|].
    unfold covers in Hcov. simpl. lia. }
  fold deducted in Hres, Hdeadline, Hgoods'.
  rewrite Hitems, Hentry in Hgoods'.
  split; [done|]. split; [|split; [|done]].
  - intros oi Hin. destruct (Hcovered oi Hin) as (g & Hg & Hcov).
    exists g. split; [done|].
    pose proof (Hheld oi g Hin Hg).
    rewrite Hgoods', Hgoods, Hg, order_quantities_NoDup by done. simpl.
    unfold total, clamp_sub. simpl. f_equal. f_equal; [lia|].
    case_decide; lia.
  - intros n Hn.
    rewrite Hgoods', Hgoods, order_quantities_absent by done.
    destruct (goods (pending s) !! n) as [[st r]|]; [|done]. simpl.
    unfold total, Goods.set_reserved_quantity. simpl. do 2 f_equal; lia.
Qed.

Lemma reserve_then_deduct_witness :
  let reserved_out :=
    reserve_inventory widget_db quiet_env 1 [ItemData.mk "Widget" 10] None None in
  let deducted :=
    deduct_inventory (committed (session_after reserved_out)) quiet_env 1
      (Some 7) None in
  (result deducted).1 = true ∧
  goods (committed (session_after deducted)) !! "Widget" = Some (Goods.mk 0 0).
Proof.
  destruct (reserve_then_deduct widget_db quiet_env 1 None (Some 7) None
              (Order.mk 1 100 (Some "ECBDJI") Status.pending cash None None 5000
                 None None [OrderItem.mk "Widget" 10]))
    as (Hok & _).
  - reflexivity.
  - apply NoDup_singleton.
  - intros oi g ->%list_elem_of_singleton Hg. vm_compute in Hg.
    injection Hg as <-. simpl. lia.
  - vm_compute. reflexivity.
  - split; [exact Hok|reflexivity].
Defined.

(** ** Releasing what is no longer held *)

Lemma release_at_zero qs :
  Forall (λ q, 0 ≤ q) qs → foldl clamp_sub 0 qs = 0.
Proof.
  induction 1 as [|q qs Hq Hqs IH]; simpl; [done|].
  replace (clamp_sub 0 q) with 0; [done|].
  unfold clamp_sub. case_decide; lia.
Qed.

(** X8: releasing an order whose items hold nothing any more (it was
    released before) changes no goods row: the held counts stay at zero.
    The lines ask for no negative quantity. *)
Theorem release_reservation_at_zero
    (db : DB) (env : Env) (order_id : Z) (reason : string)
    (session : option Session) (order : Order.t) :
  let s := entry_session db session in
  first_order order_id (orders (pending s)) = Some order →
  (∀ oi, oi ∈ Order.items order → 0 ≤ OrderItem.quantity oi) →
  (∀ oi g, oi ∈ Order.items order →
     goods (pending s) !! OrderItem.item_name oi = Some g →
     Goods.reserved_quantity g = 0) →
  let out := release_reservation db env order_id reason session in
  (result out).1 = true ∧
  goods (pending (session_after out)) = goods (pending s).
Proof.
  intros s Hfirst Hqty Hzero out.
  destruct (release_reservation_rows db env order_id reason session order Hfirst)
    as (Hres & _ & Hgoods).
  fold out in Hres, Hgoods. fold s in Hgoods.
  split; [by rewrite Hres|].
  apply map_eq. intros n. rewrite Hgoods.
  destruct (goods (pending s) !! n) as [[st r]|] eqn:Hg; [|done]. simpl.
  unfold Goods.set_reserved_quantity. simpl. do 2 f_equal.
  destruct (quantities_for n (lines_of_order_items (Order.items order)))
    as [|q qs] eqn:Hqs; [done|].
  destruct (quantities_for_elem n (Order.items order) q) as (oi & Hin & Hname & _).
  { rewrite Hqs. left. }
  subst n. pose proof (Hzero oi _ Hin Hg) as Hr. simpl in Hr. subst r.
  rewrite <- Hqs. apply release_at_zero.
  apply Forall_forall. intros q' Hq'.
  destruct (quantities_for_elem _ (Order.items order) q' Hq')
    as (oi' & Hin' & _ & <-).
  auto.
Qed.

Lemma release_reservation_at_zero_witness :
  goods (pending (session_after
    (release_reservation widget_db quiet_env 1 "Order cancelled" None)))
  = goods widget_db.
Proof.
  apply (release_reservation_at_zero widget_db quiet_env 1 "Order cancelled" None
           (Order.mk 1 100 (Some "ECBDJI") Status.pending cash None None 5000
              None None [OrderItem.mk "Widget" 10])).
  - reflexivity.
  - intros oi ->%list_elem_of_singleton. simpl. lia.
  - intros oi g ->%list_elem_of_singleton Hg. vm_compute in Hg.
    by injection Hg as <-.
Defined.

(** ** Restocking *)

(** X9: restocking what is missing makes a refused reserve go through, on
    a store whose timeout setting gives a deadline that is a date of the
    calendar. A request for one item that its free stock does not cover is
    refused; after [add_inventory] has added the shortfall, the same request
    is accepted and takes the whole free stock of the item, its stock being
    higher by the shortfall. *)
Theorem restock_then_reserve
    (db : DB) (env : Env) (order_id : Z) (it : ItemData.t)
    (pm : option PaymentMethod) (admin_id : option Z) (comment : option string)
    (order : Order.t) (g : Goods.t) :
  first_order order_id (orders db) = Some order →
  goods db !! ItemData.item_name it = Some g →
  let shortfall :=
    ItemData.quantity it - (Goods.stock_quantity g - Goods.reserved_quantity g) in
  0 < shortfall →
  deadline_in_range db env →
  (result (reserve_inventory db env order_id [it] pm None)).1 = false ∧
  let restocked :=
    add_inventory db (ItemData.item_name it) shortfall admin_id comment None in
  (result restocked).1 = true ∧
  let out :=
    reserve_inventory (committed (session_after restocked)) env order_id [it] pm None in
  (result out).1 = true ∧
  goods (committed (session_after out)) !! ItemData.item_name it =
    Some (Goods.mk (Goods.stock_quantity g + shortfall)
            (Goods.reserved_quantity g + ItemData.quantity it)) ∧
  get_inventory_stats (committed (session_after out)) (ItemData.item_name it) =
    Some (Goods.stock_quantity g + shortfall,
          Goods.reserved_quantity g + ItemData.quantity it, 0).
Proof.
  intros Hfirst Hg shortfall Hshort Hrange. split.
  { unfold reserve_inventory, result. simpl. rewrite Hfirst. simpl. rewrite Hg.
    rewrite decide_True by (subst shortfall; lia). done. }
  intros restocked.
  assert (Hrestocked : (result restocked).1 = true ∧
            orders (committed (session_after restocked)) = orders db ∧
            cash_order_timeout_hours (committed (session_after restocked))
              = cash_order_timeout_hours db ∧
            goods (committed (session_after restocked)) !! ItemData.item_name it =
              Some (Goods.mk (Goods.stock_quantity g + shortfall)
                      (Goods.reserved_quantity g))).
  { subst restocked. unfold add_inventory, result, session_after. simpl.
    rewrite Hg. simpl. by rewrite lookup_insert_eq. }
  destruct Hrestocked as (Hok & Horders & Hsetting & Hrow).
  split; [done|]. intros out.
  destruct (reserve_inventory_rows (committed (session_after restocked)) env
              order_id [it] pm None order) as (Hres & Hcommitted & Hgoods).
  { simpl. by rewrite Horders. }
  { apply NoDup_singleton. }
  { intros it' ->%list_elem_of_singleton. eexists. split; [exact Hrow|].
    unfold covers. simpl. subst shortfall. lia. }
  { unfold deadline_in_range in *. simpl. by rewrite Hsetting. }
  fold out in Hres, Hcommitted, Hgoods. simpl in Hcommitted, Hgoods.
  split; [done|].
  assert (Hafter : goods (committed (session_after out)) !! ItemData.item_name it =
            Some (Goods.mk (Goods.stock_quantity g + shortfall)
                    (Goods.reserved_quantity g + ItemData.quantity it))).
  { rewrite Hcommitted, Hgoods, Hrow. simpl.
    rewrite decide_True by done. unfold total, Goods.set_reserved_quantity.
    simpl. do 2 f_equal. lia. }
  split; [done|].
  unfold get_inventory_stats. rewrite Hafter.
  unfold Goods.available_quantity. simpl. do 2 f_equal. subst shortfall. lia.
Qed.

Lemma restock_then_reserve_witness :
  (result (reserve_inventory widget_db quiet_env 1 [ItemData.mk "Widget" 12]
             None None)).1 = false ∧
  get_inventory_stats
    (committed (session_after
       (reserve_inventory
          (committed (session_after
             (add_inventory widget_db "Widget" 2 (Some 7) None None)))
          quiet_env 1 [ItemData.mk "Widget" 12] None None)))
    "Widget"
  = Some (12, 12, 0).
Proof.
  destruct (restock_then_reserve widget_db quiet_env 1 (ItemData.mk "Widget" 12)
              None (Some 7) None
              (Order.mk 1 100 (Some "ECBDJI") Status.pending cash None None 5000
                 None None [OrderItem.mk "Widget" 10])
              (Goods.mk 10 0))
    as (Hrefused & _ & _ & _ & Hstats).
  - reflexivity.
  - reflexivity.
  - simpl. lia.
  - vm_compute. repeat split; discriminate.
  - split; [exact Hrefused|exact Hstats].
Defined.

(** ** More on the expiry sweep *)

Lemma update_order_ids order_id f rows :
  (∀ o, Order.id (f o) = Order.id o) →
  Order.id <$> update_order order_id f rows = Order.id <$> rows.
Proof.
  intros Hf. induction rows as [|r rows IH]; [done|]. cbn [update_order].
  case_decide; rewrite !fmap_cons; [by rewrite Hf|by rewrite IH].
Qed.

(* a release inside the session of the sweep: what it keeps *)
Lemma release_in_session_keeps db env order_id reason s :
  let out := release_reservation db env order_id reason (Some s) in
  committed (session_after out) = committed s ∧
  ops (session_after out) = ops s ∧
  Order.id <$> orders (pending (session_after out)) = Order.id <$> orders (pending s) ∧
  (∀ n, Goods.stock_quantity <$> goods (pending (session_after out)) !! n
        = Goods.stock_quantity <$> goods (pending s) !! n) ∧
  (session_invariant s → session_invariant (session_after out)).
Proof.
  unfold release_reservation, result, session_after. simpl.
  destruct (first_order order_id (orders (pending s))) as [order|]; [|done].
  pose proof (release_items_done order order_id reason (Order.items order) s [])
    as (Hc & Ho & Hord & _).
  pose proof (release_items_frame order order_id reason (Order.items order) s [])
    as Hframe.
  pose proof (release_items_invariant order order_id reason (Order.items order) s [])
    as Hinv.
  destruct (release_items _ _ _ _ _ _) as [s' t']. simpl in *.
  split; [done|]. split; [done|].
  split; [by rewrite update_order_ids, Hord|]. split; [done|].
  intros Hs. apply session_invariant_write; [done|]. by apply Hinv.
Qed.

Lemma refund_bonus_goods env order s :
  goods (pending (refund_bonus env order s).1.2) = goods (pending s).
Proof.
  unfold refund_bonus.
  destruct (Order.bonus_applied order) as [bonus|]; [|done].
  case_decide; [|done].
  destruct (customer_info (pending s) !! Order.buyer_id order) as [info|]; [|done].
  by destruct (csv_sync_raises env (Order.buyer_id order)).
Qed.

Lemma cleanup_orders_keeps env expired_orders s count order_codes effects :
  let out := cleanup_orders env expired_orders s count order_codes effects in
  Order.id <$> orders (pending (session_after out)) = Order.id <$> orders (pending s) ∧
  (∀ n, Goods.stock_quantity <$> goods (pending (session_after out)) !! n
        = Goods.stock_quantity <$> goods (pending s) !! n) ∧
  (session_invariant s → session_invariant (session_after out)).
Proof.
  unfold session_after.
  revert s count order_codes effects.
  induction expired_orders as [|order rest IH]; intros s count order_codes effects;
    [done|].
  pose proof (release_in_session_keeps (committed s) env (Order.id order)
                "Reservation timeout expired" s) as Hrel.
  unfold session_after in Hrel. simpl in Hrel.
  cbn [cleanup_orders].
  destruct (release_reservation _ _ _ _ _) as [[[success message] s1] released].
  simpl in Hrel. destruct Hrel as (Hc1 & _ & Hids1 & Hstock1 & Hinv1).
  destruct success.
  - set (s2 := session_write _ s1).
    pose proof (refund_bonus_session env order s2) as (Hc2 & _ & Hord2 & _).
    pose proof (refund_bonus_goods env order s2) as Hgoods2.
    assert (Hinv2 : session_invariant s → session_invariant (refund_bonus env order s2).1.2).
    { intros [Hcs Hps]%Hinv1. split.
      - by rewrite Hc2.
      - by apply (stock_invariant_ext (pending s1)). }
    destruct (refund_bonus env order s2) as [[[[]|] s3] refunded]; simpl in *.
    + specialize (IH s3 (count + 1)
                    (order_codes ++ [Order.code_or_id order (Order.id order)])
                    ((effects ++ released) ++ refunded
                     ++ [OrderCancellationLogged (Order.id order)])).
      destruct (cleanup_orders env rest s3 _ _ _) as [[out4 s4] eff4]. simpl in *.
      destruct IH as (Hids & Hstock & Hinv).
      split; [|split].
      * rewrite Hids, Hord2. subst s2. simpl.
        by rewrite update_order_ids.
      * intros n. by rewrite Hstock, Hgoods2.
      * auto.
    + split; [|split].
      * rewrite Hord2. subst s2. simpl. by rewrite update_order_ids.
      * intros n. by rewrite Hgoods2.
      * done.
  - specialize (IH s1 count order_codes (effects ++ released)).
    destruct (cleanup_orders env rest s1 _ _ _) as [[out4 s4] eff4]. simpl in *.
    destruct IH as (Hids & Hstock & Hinv).
    split; [|split].
    + by rewrite Hids.
    + intros n. by rewrite Hstock.
    + auto.
Qed.

(** X10: one cycle of the sweep never changes a stock_quantity and adds or
    removes no goods row, whether it returns or raises, and it keeps the
    invariant that no stock and no held count is negative. *)
Theorem cleanup_expired_reservations_keeps_stock (db : DB) (env : Env) :
  let out := cleanup_expired_reservations db env in
  (∀ n, Goods.stock_quantity <$> goods (committed (session_after out)) !! n
        = Goods.stock_quantity <$> goods db !! n) ∧
  (stock_invariant db → stock_invariant (committed (session_after out))).
Proof.
  intros out. subst out.
  unfold cleanup_expired_reservations, session_after. simpl.
  pose proof (cleanup_orders_keeps env
                (List.filter (is_expired (now env)) (orders db))
                (Database_session db) 0 [] []) as (_ & Hstock & Hinv).
  pose proof (cleanup_orders_rows env
                (List.filter (is_expired (now env)) (orders db))
                (Database_session db) 0 [] []) as (Hc & _).
  { intros o [Hin _]%filter_is_expired_rows. by apply first_order_is_Some. }
  unfold session_after in *.
  destruct (cleanup_orders env _ _ _ _ _) as [[[r|] s'] effects]; simpl in *.
  - split; [done|]. intros Hdb. by apply Hinv.
  - rewrite Hc. split; [done|]. auto.
Qed.

Lemma cleanup_expired_reservations_ids db env :
  let out := cleanup_expired_reservations db env in
  Order.id <$> orders (committed (session_after out)) = Order.id <$> orders db.
Proof.
  unfold cleanup_expired_reservations, session_after. simpl.
  pose proof (cleanup_orders_keeps env
                (List.filter (is_expired (now env)) (orders db))
                (Database_session db) 0 [] []) as (Hids & _).
  pose proof (cleanup_orders_rows env
                (List.filter (is_expired (now env)) (orders db))
                (Database_session db) 0 [] []) as (Hc & _).
  { intros o [Hin _]%filter_is_expired_rows. by apply first_order_is_Some. }
  unfold session_after in *.
  destruct (cleanup_orders env _ _ _ _ _) as [[[r|] s'] effects]; simpl in *.
  - done.
  - by rewrite Hc.
Qed.

Lemma filter_none {A} (f : A → bool) (l : list A) :
  (∀ x, x ∈ l → f x = false) → List.filter f l = [].
Proof.
  induction l as [|x l IH]; [done|]. intros Hall. simpl.
  rewrite (Hall x) by left. apply IH. intros y Hy. apply Hall. by right.
Qed.

(** X11: the sweep settles. After a cycle that returned, on a table whose
    order ids are distinct, no order is due any more at that time, and a
    second cycle at the same time finds nothing: it returns the count 0 and
    leaves the database as the first cycle left it. *)
Theorem cleanup_expired_reservations_settles (db : DB) (env : Env)
    (r : Z * list string) :
  NoDup (Order.id <$> orders db) →
  let out := cleanup_expired_reservations db env in
  result out = Returned r →
  let db' := committed (session_after out) in
  (∀ o, o ∈ orders db' → is_expired (now env) o = false) ∧
  ∀ env2, now env2 = now env →
    let again := cleanup_expired_reservations db' env2 in
    result again = Returned (0, []) ∧ committed (session_after again) = db'.
Proof.
  intros Hnd out Hret db'.
  assert (Hsettled : ∀ o, o ∈ orders db' → is_expired (now env) o = false).
  { intros o Hin.
    pose proof (cleanup_expired_reservations_outcome db env) as Hout.
    pose proof (cleanup_expired_reservations_ids db env) as Hids.
    simpl in Hout, Hids. fold out in Hout, Hids. rewrite Hret in Hout.
    destruct r as [count codes]. destruct Hout as (_ & _ & Hrows).
    fold db' in Hrows, Hids.
    assert (Hfirst : first_order (Order.id o) (orders db') = Some o).
    { apply first_order_NoDup; [by rewrite Hids|done]. }
    rewrite Hrows in Hfirst. case_decide as Hdue.
    - destruct (first_order (Order.id o) (orders db)) as [o0|]; [|done].
      injection Hfirst as <-. done.
    - destruct (is_expired (now env) o) eqn:Hexp; [|done].
      exfalso. apply Hdue. apply list_elem_of_fmap_2.
      apply list_elem_of_In, filter_In. split; [|done].
      apply list_elem_of_In. by eapply first_order_elem. }
  split; [done|]. intros env2 Hnow again. subst again.
  unfold cleanup_expired_reservations, result, session_after. simpl.
  rewrite Hnow, filter_none by done. simpl. by destruct db'.
Qed.

Lemma cleanup_expired_reservations_settles_witness :
  let db' :=
    committed (session_after (cleanup_expired_reservations sweep_db quiet_env)) in
  List.filter (is_expired (now quiet_env)) (orders db') = [] ∧
  result (cleanup_expired_reservations db' csv_failing_env) = Returned (0, []).
Proof.
  destruct (cleanup_expired_reservations_settles sweep_db quiet_env
              (2, ["SWEEP1"; "SWEEP2"])) as (Hsettled & Hagain).
  - apply (bool_decide_unpack _). vm_compute. reflexivity.
  - reflexivity.
  - split.
    + by apply filter_none.
    + exact (proj1 (Hagain csv_failing_env eq_refl)).
Defined.

(** ** Replenishing the pool *)

Lemma import_addresses_rows addresses s count :
  let out := import_addresses addresses s count in
  committed out.1 = committed s ∧ ops out.1 = ops s ∧
  pending out.1 = set_bitcoin_addresses (bitcoin_addresses (pending out.1)) (pending s) ∧
  (∀ a, bitcoin_addresses (pending out.1) !! a =
        match bitcoin_addresses (pending s) !! a with
        | Some row => Some row
        | None => if decide (a ∈ addresses) then Some BitcoinAddress.fresh else None
        end) ∧
  out.2 = count + Z.of_nat (size (bitcoin_addresses (pending out.1)))
          - Z.of_nat (size (bitcoin_addresses (pending s))).
Proof.
  revert s count. induction addresses as [|a rest IH]; intros s count.
  - simpl. repeat split; try done.
    + by destruct (pending s).
    + intros a. by destruct (bitcoin_addresses (pending s) !! a).
    + lia.
  - cbn [import_addresses].
    destruct (bitcoin_addresses (pending s) !! a) as [row|] eqn:Ha.
    + destruct (IH s count) as (Hc & Ho & Hp & Hrows & Hcount).
      repeat split; try done.
      intros a'. rewrite Hrows.
      destruct (bitcoin_addresses (pending s) !! a') as [row'|] eqn:Ha'; [done|].
      assert (a ≠ a') by congruence.
      destruct (decide (a' ∈ rest)) as [Hin|Hnot].
      * rewrite decide_True; [done|by right].
      * rewrite decide_False; [done|].
        intros [?|?]%elem_of_cons; [congruence|done].
    + specialize (IH
        (session_write (λ d, set_bitcoin_addresses
           (<[a := BitcoinAddress.fresh]> (bitcoin_addresses d)) d) s) (count + 1)).
      destruct IH as (Hc & Ho & Hp & Hrows & Hcount). simpl in *.
      repeat split; try done.
      * intros a'. rewrite Hrows.
        destruct (decide (a = a')) as [<-|Hne].
        -- rewrite lookup_insert_eq, Ha. rewrite decide_True; [done|left].
        -- rewrite lookup_insert_ne by done.
           destruct (bitcoin_addresses (pending s) !! a') as [row'|]; [done|].
           destruct (decide (a' ∈ rest)) as [Hin|Hnot].
           ++ rewrite decide_True; [done|by right].
           ++ rewrite decide_False; [done|].
              intros [?|?]%elem_of_cons; [congruence|done].
      * rewrite Hcount, map_size_insert_None by done. lia.
Qed.

Lemma import_addresses_known addresses s count :
  (∀ a, a ∈ addresses → is_Some (bitcoin_addresses (pending s) !! a)) →
  import_addresses addresses s count = (s, count).
Proof.
  induction addresses as [|a rest IH]; intros Hknown; [done|].
  cbn [import_addresses].
  destruct (Hknown a) as [row ->]; [left|].
  apply IH. intros a' Hin. apply Hknown. by right.
Qed.

(* a flush that goes through wrote rows that the table did not hold, each
   of them once *)
Lemma flush_Returned_absent new s flushed :
  Bitcoin.flush new s = Returned flushed →
  ∀ a, a ∈ new → bitcoin_addresses (pending s) !! a = None.
Proof.
  revert s. induction new as [|a rest IH]; intros s; [by intros _ a ?%elem_of_nil|].
  cbn [Bitcoin.flush].
  destruct (bitcoin_addresses (pending s) !! a) as [row|] eqn:Ha; [done|].
  intros Hflush a' [->|Hin]%elem_of_cons; [done|].
  pose proof (IH _ Hflush a' Hin) as Hnone. simpl in Hnone.
  destruct (decide (a = a')) as [<-|Hne]; [by rewrite lookup_insert_eq in Hnone|].
  by rewrite lookup_insert_ne in Hnone.
Qed.

Lemma flush_Returned_NoDup new s flushed :
  Bitcoin.flush new s = Returned flushed → NoDup new.
Proof.
  revert s. induction new as [|a rest IH]; intros s; [intros _; apply NoDup_nil_2|].
  cbn [Bitcoin.flush].
  destruct (bitcoin_addresses (pending s) !! a) as [row|] eqn:Ha; [done|].
  intros Hflush. apply NoDup_cons. split; [|by eapply IH].
  intros Hin. pose proof (flush_Returned_absent _ _ _ Hflush a Hin) as Hnone.
  simpl in Hnone. by rewrite lookup_insert_eq in Hnone.
Qed.

Lemma new_addresses_cons db a rest :
  new_addresses db (a :: rest) =
    if bool_decide (bitcoin_addresses db !! a = None)
    then a :: new_addresses db rest else new_addresses db rest.
Proof. reflexivity. Qed.

Lemma new_addresses_insert db a rest :
  a ∉ new_addresses db rest →
  new_addresses
    (set_bitcoin_addresses (<[a := BitcoinAddress.fresh]> (bitcoin_addresses db)) db)
    rest
  = new_addresses db rest.
Proof.
  intros Hnot. unfold new_addresses. apply filter_ext_in. intros x Hx. simpl.
  destruct (decide (a = x)) as [<-|Hne].
  - rewrite lookup_insert_eq. rewrite bool_decide_eq_false_2 by done.
    symmetry. apply bool_decide_eq_false_2. intros Hnone. apply Hnot.
    apply list_elem_of_In, filter_In. split; [done|].
    by apply bool_decide_eq_true_2.
  - by rewrite lookup_insert_ne.
Qed.

Lemma new_addresses_nil db addresses :
  new_addresses db addresses = [] ↔
  ∀ a, a ∈ addresses → is_Some (bitcoin_addresses db !! a).
Proof.
  induction addresses as [|a rest IH]; [by split; [intros _ a ?%elem_of_nil|]|].
  rewrite new_addresses_cons. split.
  - case_bool_decide as Ha; [done|]. intros Hnil a' [->|Hin]%elem_of_cons.
    + by destruct (bitcoin_addresses db !! a).
    + by apply (proj1 IH Hnil).
  - intros Hknown. destruct (Hknown a) as [row Hrow]; [left|].
    rewrite bool_decide_eq_false_2 by congruence.
    apply IH. intros a' Hin. apply Hknown. by right.
Qed.

(* without autoflush the loop adds every address that the table did not
   hold at the start, as often as it is listed *)
Lemma load_addresses_no_autoflush addresses s new count :
  Bitcoin.load_addresses false addresses s new count =
    Returned (s, new ++ new_addresses (pending s) addresses,
              count + Z.of_nat (List.length (new_addresses (pending s) addresses))).
Proof.
  revert new count. induction addresses as [|a rest IH]; intros new count.
  - simpl. rewrite app_nil_r. do 3 f_equal. lia.
  - cbn [Bitcoin.load_addresses]. rewrite new_addresses_cons.
    destruct (bitcoin_addresses (pending s) !! a) as [row|] eqn:Ha.
    + rewrite bool_decide_eq_false_2 by done. by rewrite IH.
    + rewrite bool_decide_eq_true_2 by done. rewrite IH, <- app_assoc.
      cbn [app List.length]. do 2 f_equal. lia.
Qed.

(* when no new address is listed twice, flushing them all at the commit
   leaves what the import leaves *)
Lemma flush_new_addresses addresses s count :
  NoDup (new_addresses (pending s) addresses) →
  Bitcoin.flush (new_addresses (pending s) addresses) s
    = Returned (import_addresses addresses s count).1 ∧
  (import_addresses addresses s count).2
    = count + Z.of_nat (List.length (new_addresses (pending s) addresses)).
Proof.
  revert s count. induction addresses as [|a rest IH]; intros s count Hnd.
  - simpl. split; [done|lia].
  - rewrite new_addresses_cons in Hnd |- *. cbn [import_addresses].
    destruct (bitcoin_addresses (pending s) !! a) as [row|] eqn:Ha.
    + rewrite bool_decide_eq_false_2 in Hnd |- * by done. by apply IH.
    + rewrite bool_decide_eq_true_2 in Hnd |- * by done.
      apply NoDup_cons in Hnd as [Hnot Hnd].
      cbn [Bitcoin.flush]. rewrite Ha.
      set (s1 := session_write _ s).
      assert (Hsame : new_addresses (pending s1) rest
                      = new_addresses (pending s) rest)
        by by apply new_addresses_insert.
      destruct (IH s1 (count + 1)) as [Hflush Hcount]; [by rewrite Hsame|].
      rewrite Hsame in Hflush, Hcount. split; [done|].
      rewrite Hcount. cbn [List.length]. lia.
Qed.

(* with autoflush every query sees the rows added so far, and the loop
   leaves what the import leaves *)
Lemma load_addresses_autoflush addresses s new count flushed :
  Bitcoin.flush new s = Returned flushed →
  ∃ s' new',
    Bitcoin.load_addresses true addresses s new count
      = Returned (s', new', (import_addresses addresses flushed count).2) ∧
    Bitcoin.flush new' s' = Returned (import_addresses addresses flushed count).1.
Proof.
  revert s new count flushed.
  induction addresses as [|a rest IH]; intros s new count flushed Hflush.
  - simpl. eauto.
  - cbn [Bitcoin.load_addresses import_addresses]. rewrite Hflush.
    destruct (bitcoin_addresses (pending flushed) !! a) as [row|] eqn:Ha.
    + by apply IH.
    + apply IH. simpl. by rewrite Ha.
Qed.

Lemma load_and_flush_returned autoflush addresses s :
  autoflush = true ∨ NoDup (new_addresses (pending s) addresses) →
  Bitcoin.load_and_flush autoflush addresses s
    = Returned (import_addresses addresses s 0).
Proof.
  unfold Bitcoin.load_and_flush. destruct autoflush.
  - intros _.
    destruct (load_addresses_autoflush addresses s [] 0 s eq_refl)
      as (s' & new' & -> & ->).
    by destruct (import_addresses addresses s 0).
  - intros [?|Hnd]; [done|]. rewrite load_addresses_no_autoflush. simpl.
    destruct (flush_new_addresses addresses s 0 Hnd) as [-> Hcount].
    rewrite <- Hcount. by destruct (import_addresses addresses s 0).
Qed.

Lemma load_and_flush_raised addresses s :
  ¬ NoDup (new_addresses (pending s) addresses) →
  Bitcoin.load_and_flush false addresses s = Raised.
Proof.
  intros Hdup. unfold Bitcoin.load_and_flush.
  rewrite load_addresses_no_autoflush. simpl.
  destruct (Bitcoin.flush _ s) as [flushed|] eqn:Hflush; [|done].
  by apply flush_Returned_NoDup in Hflush.
Qed.

(* what a load of the file that returns leaves in the pool *)
Lemma load_bitcoin_addresses_from_file_rows autoflush db lines :
  autoflush = true ∨ NoDup (new_addresses db (Bitcoin.file_addresses lines)) →
  let out := Bitcoin.load_bitcoin_addresses_from_file autoflush db (Some lines) in
  out.2 = Some lines ∧
  out.1.2 = set_bitcoin_addresses (bitcoin_addresses out.1.2) db ∧
  (∀ a, bitcoin_addresses out.1.2 !! a =
        match bitcoin_addresses db !! a with
        | Some row => Some row
        | None => if decide (a ∈ Bitcoin.file_addresses lines)
                  then Some BitcoinAddress.fresh else None
        end) ∧
  out.1.1 = Returned (Z.of_nat (size (bitcoin_addresses out.1.2))
                      - Z.of_nat (size (bitcoin_addresses db))).
Proof.
  intros Hcond. unfold Bitcoin.load_bitcoin_addresses_from_file.
  destruct (Bitcoin.file_addresses lines) as [|a rest] eqn:Haddr.
  - simpl. repeat split.
    + by destruct db.
    + intros a. by destruct (bitcoin_addresses db !! a).
    + f_equal. lia.
  - rewrite load_and_flush_returned by done.
    pose proof (import_addresses_rows (a :: rest) (Database_session db) 0)
      as (Hc & Ho & Hp & Hrows & Hcount).
    destruct (import_addresses (a :: rest) (Database_session db) 0)
      as [s' count]. simpl in *.
    repeat split; try done. f_equal. lia.
Qed.

(* a load of the file that lists a new address twice, without autoflush *)
Lemma load_bitcoin_addresses_from_file_raised db lines :
  ¬ NoDup (new_addresses db (Bitcoin.file_addresses lines)) →
  Bitcoin.load_bitcoin_addresses_from_file false db (Some lines)
    = (Raised, db, Some lines).
Proof.
  intros Hdup. unfold Bitcoin.load_bitcoin_addresses_from_file.
  destruct (Bitcoin.file_addresses lines) as [|a rest] eqn:Haddr.
  - exfalso. apply Hdup. apply NoDup_nil_2.
  - by rewrite load_and_flush_raised.
Qed.

(** X12: replenishing from the file only adds. When the session
    autoflushes, or when no address that is new to the pool is listed twice
    in the file, the load returns: every row that was in the pool keeps its
    state (a used address stays used), every address of the file that was
    unknown becomes a fresh unused row, nothing else is added, the count
    returned is the number of rows added, the other tables are untouched,
    and loading the same file again adds nothing. Without autoflush, a new
    address that is listed twice is added twice and the commit raises: the
    pool is left as it was. The file is never written. *)
Theorem load_bitcoin_addresses_from_file_imports
    (autoflush : bool) (db : DB) (lines : list string) :
  let out := Bitcoin.load_bitcoin_addresses_from_file autoflush db (Some lines) in
  let db' := out.1.2 in
  out.2 = Some lines ∧
  if decide (autoflush = true
             ∨ NoDup (new_addresses db (Bitcoin.file_addresses lines)))
  then
    out.1.1 = Returned (Z.of_nat (size (bitcoin_addresses db'))
                        - Z.of_nat (size (bitcoin_addresses db))) ∧
    (∀ a row, bitcoin_addresses db !! a = Some row →
              bitcoin_addresses db' !! a = Some row) ∧
    (∀ a, bitcoin_addresses db !! a = None →
          bitcoin_addresses db' !! a =
            if decide (a ∈ Bitcoin.file_addresses lines)
            then Some BitcoinAddress.fresh else None) ∧
    goods db' = goods db ∧ orders db' = orders db ∧
    Bitcoin.load_bitcoin_addresses_from_file autoflush db' (Some lines)
      = (Returned 0, db', Some lines)
  else
    out.1.1 = Raised ∧ db' = db.
Proof.
  intros out db'. subst db'.
  destruct (decide (autoflush = true
                    ∨ NoDup (new_addresses db (Bitcoin.file_addresses lines))))
    as [Hcond|Hnot].
  - destruct (load_bitcoin_addresses_from_file_rows autoflush db lines Hcond)
      as (Hfile & Hdb & Hrows & Hcount).
    fold out in Hfile, Hdb, Hrows, Hcount.
    split; [done|]. split; [done|]. split; [|split; [|split; [|split]]].
    + intros a row Ha. by rewrite Hrows, Ha.
    + intros a Ha. by rewrite Hrows, Ha.
    + by rewrite Hdb.
    + by rewrite Hdb.
    + assert (Hknown : ∀ a, a ∈ Bitcoin.file_addresses lines →
                is_Some (bitcoin_addresses out.1.2 !! a)).
      { intros a Hin. rewrite Hrows.
        destruct (bitcoin_addresses db !! a); [done|]. by rewrite decide_True. }
      assert (Hnil : new_addresses out.1.2 (Bitcoin.file_addresses lines) = [])
        by by apply new_addresses_nil.
      revert Hknown Hnil. unfold Bitcoin.load_bitcoin_addresses_from_file.
      destruct (Bitcoin.file_addresses lines) as [|a rest]; [done|].
      intros Hknown Hnil. rewrite load_and_flush_returned.
      * rewrite import_addresses_known by done. simpl. by destruct out.1.2.
      * right. cbn [pending Database_session]. rewrite Hnil. apply NoDup_nil_2.
  - assert (Hflush : autoflush = false) by (destruct autoflush; [exfalso; auto|done]).
    assert (Hdup : ¬ NoDup (new_addresses db (Bitcoin.file_addresses lines))) by auto.
    subst out. rewrite Hflush.
    by rewrite load_bitcoin_addresses_from_file_raised.
Qed.

(** X13: a used address survives any reload. Once
    [mark_bitcoin_address_used] has succeeded, loading the file again, with
    whatever lines (the address put back by hand included) and whether the
    load returns or raises, leaves the row marked used with its assignee,
    time and order. *)
Theorem used_address_survives_reload
    (autoflush : bool) (db : DB) (file : Bitcoin.AddressFile) (env : Env)
    (address : string) (user_id : Z) (user_username : string) (order_id : Z)
    (order_code : option string) (lines : list string) :
  is_Some (bitcoin_addresses db !! address) →
  let marked :=
    Bitcoin.mark_bitcoin_address_used db file env address user_id user_username
      order_id None order_code in
  let reloaded :=
    Bitcoin.load_bitcoin_addresses_from_file autoflush (committed marked.1.1.2)
      (Some lines) in
  marked.1.1.1 = true ∧
  bitcoin_addresses reloaded.1.2 !! address =
    Some (BitcoinAddress.mk true (Some user_id) (Some (now env)) (Some order_id)).
Proof.
  intros [row Hrow] marked reloaded.
  assert (Hmarked : marked.1.1.1 = true ∧
            bitcoin_addresses (committed marked.1.1.2) !! address =
              Some (BitcoinAddress.mk true (Some user_id) (Some (now env))
                      (Some order_id))).
  { subst marked. unfold Bitcoin.mark_bitcoin_address_used. simpl.
    rewrite Hrow. simpl. by rewrite lookup_insert_eq. }
  destruct Hmarked as [Hok Hused]. split; [done|].
  destruct (decide (autoflush = true
                    ∨ NoDup (new_addresses (committed marked.1.1.2)
                               (Bitcoin.file_addresses lines))))
    as [Hcond|Hnot].
  - destruct (load_bitcoin_addresses_from_file_rows autoflush
                (committed marked.1.1.2) lines Hcond) as (_ & _ & Hrows & _).
    fold reloaded in Hrows. by rewrite Hrows, Hused.
  - assert (Hflush : autoflush = false) by (destruct autoflush; [exfalso; auto|done]).
    subst reloaded. rewrite Hflush.
    rewrite load_bitcoin_addresses_from_file_raised by auto. done.
Qed.

Lemma used_address_survives_reload_witness :
  let marked :=
    Bitcoin.mark_bitcoin_address_used pool_db pool_file quiet_env
      "bc1qtest1234567890" 100 "alice" 1 None (Some "ECBDJI") in
  bitcoin_addresses
    (Bitcoin.load_bitcoin_addresses_from_file false (committed marked.1.1.2)
       (Some ["bc1qtest1234567890"; "bc1qnew"; "bc1qnew"])).1.2
    !! "bc1qtest1234567890"
  = Some (BitcoinAddress.mk true (Some 100) (Some 1000) (Some 1)).
Proof.
  apply (used_address_survives_reload false pool_db pool_file quiet_env
           "bc1qtest1234567890" 100 "alice" 1 (Some "ECBDJI")
           ["bc1qtest1234567890"; "bc1qnew"; "bc1qnew"]).
  vm_compute. eauto.
Defined.

(** ** The backing file *)

(** X14: removing an address from the file keeps every comment line and
    every blank line, keeps every line whose stripped text differs from the
    address, drops nothing else, keeps the order of the lines, and does
    nothing when repeated. A file that does not exist stays absent. *)
Theorem remove_bitcoin_address_from_file_keeps
    (address : string) (lines : list string) :
  Bitcoin.remove_bitcoin_address_from_file address None = None ∧
  ∃ lines',
    Bitcoin.remove_bitcoin_address_from_file address (Some lines) = Some lines' ∧
    (∀ line, line ∈ lines' ↔
       line ∈ lines ∧
       (Bitcoin.strip line = "" ∨ Bitcoin.is_comment (Bitcoin.strip line) = true
        ∨ Bitcoin.strip line ≠ address)) ∧
    sublist lines' lines ∧
    Bitcoin.remove_bitcoin_address_from_file address (Some lines') = Some lines'.
Proof.
  split; [done|]. eexists. split; [reflexivity|].
  set (keep := λ line : string,
         bool_decide (Bitcoin.strip line = "")
         || Bitcoin.is_comment (Bitcoin.strip line)
         || negb (bool_decide (Bitcoin.strip line = address))).
  change (Bitcoin.remove_bitcoin_address_from_file address)
    with (λ file : Bitcoin.AddressFile,
            match file with None => None | Some l => Some (List.filter keep l) end).
  assert (Hkeep : ∀ line, keep line = true ↔
            Bitcoin.strip line = "" ∨ Bitcoin.is_comment (Bitcoin.strip line) = true
            ∨ Bitcoin.strip line ≠ address).
  { intros line. unfold keep.
    rewrite !orb_true_iff, negb_true_iff, bool_decide_eq_true, bool_decide_eq_false.
    tauto. }
  split; [|split].
  - intros line. rewrite <- Hkeep, !list_elem_of_In. apply filter_In.
  - clear Hkeep. induction lines as [|line lines IH]; simpl; [constructor|].
    destruct (keep line); by constructor.
  - f_equal. clear Hkeep. induction lines as [|line lines IH]; [done|]. simpl.
    destruct (keep line) eqn:Hline; [|done]. simpl. by rewrite Hline, IH.
Qed.

(** ** Handing out an address *)

Lemma get_available_bitcoin_address_unused db a :
  Pool.get_available_bitcoin_address db = Some a →
  ∃ row, bitcoin_addresses db !! a = Some row ∧ BitcoinAddress.is_used row = false.
Proof.
  unfold Pool.get_available_bitcoin_address.
  destruct (List.find _ _) as [[a' row]|] eqn:Hfind; [|done].
  intros [= <-]. apply find_some in Hfind as [Hin Hunused].
  apply list_elem_of_In, elem_of_map_to_list in Hin.
  exists row. split; [done|]. by apply negb_true_iff in Hunused.
Qed.

(** X15: [get_available_bitcoin_address] offers only addresses of the pool
    that are not used, it answers [None] exactly when every address of the
    pool is used, and it never offers again an address that
    [mark_bitcoin_address_used] has marked. *)
Theorem get_available_bitcoin_address_exclusive (db : DB) :
  match Pool.get_available_bitcoin_address db with
  | Some a =>
      ∃ row, bitcoin_addresses db !! a = Some row
             ∧ BitcoinAddress.is_used row = false
  | None =>
      ∀ a row, bitcoin_addresses db !! a = Some row →
               BitcoinAddress.is_used row = true
  end ∧
  ∀ file env address user_id user_username order_id order_code,
    let marked :=
      Bitcoin.mark_bitcoin_address_used db file env address user_id user_username
        order_id None order_code in
    if marked.1.1.1
    then Pool.get_available_bitcoin_address (committed marked.1.1.2) ≠ Some address
    else committed marked.1.1.2 = db.
Proof.
  split.
  - destruct (Pool.get_available_bitcoin_address db) as [a|] eqn:Hget.
    + by apply get_available_bitcoin_address_unused.
    + intros a row Hrow. unfold Pool.get_available_bitcoin_address in Hget.
      destruct (List.find _ _) as [entry|] eqn:Hfind; [done|].
      pose proof (find_none _ _ Hfind (a, row)) as Hnone. simpl in Hnone.
      apply negb_false_iff, Hnone, list_elem_of_In, elem_of_map_to_list. done.
  - intros file env address user_id user_username order_id order_code marked.
    subst marked. unfold Bitcoin.mark_bitcoin_address_used. simpl.
    destruct (bitcoin_addresses db !! address) as [row|]; simpl; [|done].
    intros (row' & Hrow' & Hunused)%get_available_bitcoin_address_unused.
    simpl in Hrow'. rewrite lookup_insert_eq in Hrow'. by injection Hrow' as <-.
Qed.

(** ** Adding addresses by hand *)

Lemma import_addresses_grows addresses s count :
  count ≤ (import_addresses addresses s count).2 ∧
  ((∃ a, a ∈ addresses ∧ bitcoin_addresses (pending s) !! a = None) →
   count < (import_addresses addresses s count).2).
Proof.
  revert s count. induction addresses as [|a rest IH]; intros s count.
  - simpl. split; [lia|]. by intros (a & ?%elem_of_nil & _).
  - cbn [import_addresses].
    destruct (bitcoin_addresses (pending s) !! a) as [row|] eqn:Ha.
    + destruct (IH s count) as [Hle Hlt]. split; [done|].
      intros (a' & [->|Hin]%elem_of_cons & Hnew); [congruence|].
      apply Hlt. eauto.
    + destruct (IH (session_write (λ d, set_bitcoin_addresses
                      (<[a := BitcoinAddress.fresh]> (bitcoin_addresses d)) d) s)
                   (count + 1)) as [Hle _].
      split; [lia|]. intros _. lia.
Qed.

(** X16: adding addresses in bulk. When every address given is already in
    the pool, nothing changes: count 0, same database, same file. When one
    of them is new, and the session autoflushes or no new address is given
    twice, the count is positive, the rows that were in the pool keep their
    state, the new ones are fresh, and the file receives at its end every
    address given, the ones that were known already included. Without
    autoflush, a new address that is given twice makes the commit raise:
    the pool and the file are left as they were. Adding a single address
    with [add_bitcoin_address] does what the bulk addition of that one
    address does. *)
Theorem add_bitcoin_addresses_bulk_outcome
    (autoflush : bool) (db : DB) (file : Bitcoin.AddressFile)
    (addresses : list string) :
  let out := Pool.add_bitcoin_addresses_bulk autoflush db file addresses in
  ((∀ a, a ∈ addresses → is_Some (bitcoin_addresses db !! a)) →
   out = (Returned 0, db, file)) ∧
  ((∃ a, a ∈ addresses ∧ bitcoin_addresses db !! a = None) →
   autoflush = true ∨ NoDup (new_addresses db addresses) →
   (∃ count, out.1.1 = Returned count ∧ 0 < count) ∧
   out.2 = Some (default [] file ++ addresses) ∧
   (∀ a, bitcoin_addresses out.1.2 !! a =
         match bitcoin_addresses db !! a with
         | Some row => Some row
         | None => if decide (a ∈ addresses) then Some BitcoinAddress.fresh else None
         end)) ∧
  (autoflush = false → ¬ NoDup (new_addresses db addresses) →
   out = (Raised, db, file)) ∧
  (∀ address,
     Pool.add_bitcoin_addresses_bulk autoflush db file [address] =
       let single := Pool.add_bitcoin_address db file address in
       (Returned (if single.1.1 then 1 else 0), single.1.2, single.2)).
Proof.
  intros out. subst out. unfold Pool.add_bitcoin_addresses_bulk.
  split; [|split; [|split]].
  - intros Hknown. rewrite load_and_flush_returned.
    + rewrite import_addresses_known by done. simpl. by destruct db.
    + right. cbn [pending Database_session].
      rewrite (proj2 (new_addresses_nil _ _) Hknown). apply NoDup_nil_2.
  - intros Hnew Hcond. rewrite load_and_flush_returned by done.
    pose proof (import_addresses_rows addresses (Database_session db) 0)
      as (_ & _ & _ & Hrows & _).
    pose proof (import_addresses_grows addresses (Database_session db) 0)
      as [_ Hlt].
    specialize (Hlt Hnew).
    destruct (import_addresses addresses (Database_session db) 0)
      as [s' count]. simpl in *.
    rewrite decide_True by lia. split; [by exists count|done].
  - intros -> Hdup. by rewrite load_and_flush_raised.
  - intros address. rewrite load_and_flush_returned.
    + unfold Pool.add_bitcoin_address. simpl.
      destruct (bitcoin_addresses db !! address) as [row|]; simpl; [|done].
      by destruct db.
    + right. cbn [pending Database_session]. rewrite new_addresses_cons.
      case_bool_decide; [apply NoDup_singleton|apply NoDup_nil_2].
Qed.

Lemma add_bitcoin_addresses_bulk_outcome_witness :
  Pool.add_bitcoin_addresses_bulk false pool_db pool_file ["bc1qtest1234567890"]
    = (Returned 0, pool_db, pool_file) ∧
  (Pool.add_bitcoin_addresses_bulk false pool_db pool_file
     ["bc1qtest1234567890"; "bc1qnew"]).2
    = Some ["# payment addresses"; "bc1qtest1234567890"; ""; "  bc1qother  ";
            "bc1qtest1234567890"; "bc1qnew"] ∧
  Pool.add_bitcoin_addresses_bulk false pool_db pool_file ["bc1qnew"; "bc1qnew"]
    = (Raised, pool_db, pool_file).
Proof.
  split; [|split].
  - destruct (add_bitcoin_addresses_bulk_outcome false pool_db pool_file
                ["bc1qtest1234567890"]) as (Hknown & _ & _).
    apply Hknown. intros a ->%list_elem_of_singleton. vm_compute. eauto.
  - destruct (add_bitcoin_addresses_bulk_outcome false pool_db pool_file
                ["bc1qtest1234567890"; "bc1qnew"]) as (_ & Hnew & _).
    destruct Hnew as (_ & Hfile & _); [| |exact Hfile].
    + exists "bc1qnew". split; [right; left|reflexivity].
    + right. apply (bool_decide_unpack _). vm_compute. reflexivity.
  - destruct (add_bitcoin_addresses_bulk_outcome false pool_db pool_file
                ["bc1qnew"; "bc1qnew"]) as (_ & _ & Hraised & _).
    apply Hraised; [reflexivity|].
    intros Hnd. apply (bool_decide_pack _) in Hnd. vm_compute in Hnd. done.
Defined.

(** ** Further commands of the command line *)

Lemma first_order_by_code_update code f rows o :
  NoDup (Order.id <$> rows) →
  (∀ x, Order.id (f x) = Order.id x) →
  (∀ x, Order.order_code (f x) = Order.order_code x) →
  first_order_by_code code rows = Some o →
  first_order_by_code code (update_order (Order.id o) f rows) = Some (f o).
Proof.
  intros Hnd Hid Hcode. induction rows as [|r rows IH]; [done|].
  rewrite fmap_cons, NoDup_cons in Hnd. destruct Hnd as [Hr Hnd].
  cbn [first_order_by_code update_order].
  destruct (decide (Order.order_code r = Some code)) as [Hrc|Hrc].
  - intros [= ->]. rewrite decide_True by done.
    cbn [first_order_by_code]. rewrite Hcode. by rewrite decide_True.
  - intros Ho. rewrite decide_False.
    + cbn [first_order_by_code]. rewrite decide_False by done. by apply IH.
    + intros Heq. apply Hr. rewrite Heq.
      apply list_elem_of_fmap_2. by eapply first_order_by_code_elem.
Qed.

(** X17: [update_delivery_time] stores nothing. Whatever the code, the time
    and the notification flag, the database is left as it was and nothing
    is sent. The command answers that the order is not found, that it is
    delivered already, or that the time is not in the format; for a time in
    the format and an order that is found and not delivered it raises, at
    [timezone.utc], before any write. *)
Theorem update_delivery_time_stores_nothing
    (db : DB) (env : Env) (order_code : string) (delivery_time : option Z)
    (notify : bool) :
  let out := AdminCli.update_delivery_time db env order_code delivery_time notify in
  committed (session_after out) = db ∧
  ops (session_after out) = [Close] ∧
  effects_of out = [] ∧
  result out =
    match first_order_by_code order_code (orders db) with
    | None => Returned Cli.OrderNotFound
    | Some order =>
        if decide (Order.order_status order = Status.delivered)
        then Returned Cli.AlreadyDelivered
        else if delivery_time is Some _ then Raised
        else Returned Cli.InvalidDeliveryTime
    end.
Proof.
  unfold AdminCli.update_delivery_time, result, session_after, effects_of.
  simpl. destruct (first_order_by_code order_code (orders db)) as [order|]; [|done].
  case_decide; [done|]. by destruct delivery_time.
Qed.

(** X18: confirming an order touches neither the stock nor the audit log
    nor the pool nor the balances, whatever it answers: it writes to order
    rows only. *)
Theorem confirm_order_with_delivery_time_frame
    (db : DB) (env : Env) (order_code : string) (delivery_time : option Z) :
  let out := Cli.confirm_order_with_delivery_time db env order_code delivery_time in
  goods (committed (session_after out)) = goods db ∧
  inventory_log (committed (session_after out)) = inventory_log db ∧
  bitcoin_addresses (committed (session_after out)) = bitcoin_addresses db ∧
  customer_info (committed (session_after out)) = customer_info db ∧
  Order.id <$> orders (committed (session_after out)) = Order.id <$> orders db.
Proof.
  intros out.
  destruct (confirm_order_with_delivery_time_outcome db env order_code delivery_time)
    as (Hcommitted & _).
  fold out in Hcommitted. by rewrite Hcommitted.
Qed.

(** X19: [mark_order_delivered] delivers nothing. Whatever the code, the
    database is left as it was and the command never answers success. For
    an order that is found, that is not delivered, cancelled, canceled or
    expired and whose deduction goes through inside the session of the
    command, the command raises at [timezone.utc] before its commit: the
    deduction is dropped with the session, while the cache invalidations
    and the metrics of the deduction have been issued. *)
Theorem mark_order_delivered_drops_deduction
    (db : DB) (env : Env) (order_code : string) :
  let out := Cli.mark_order_delivered db env order_code in
  committed (session_after out) = db ∧
  result out ≠ Returned Cli.Success ∧
  ∀ order,
    first_order_by_code order_code (orders db) = Some order →
    Order.order_status order ∉
      [Status.delivered; Status.cancelled; Status.canceled; Status.expired] →
    let deducted :=
      deduct_inventory db env (Order.id order) (Some (owner_id env))
        (Some (Database_session db)) in
    (result deducted).1 = true →
    result out = Raised ∧ effects_of out = effects_of deducted.
Proof.
  intros out.
  destruct (mark_order_delivered_outcome db env order_code) as (Hc & _ & Hres).
  fold out in Hc, Hres. split; [done|]. split.
  - rewrite Hres.
    destruct (first_order_by_code order_code (orders db)) as [order|]; [|done].
    case_decide; [done|]. destruct (Cli.refused_status _); [done|].
    simpl. by destruct (result _).1.
  - intros order Hfirst Hstatus deducted Hok.
    assert (Hguard : Order.order_status order ≠ Status.delivered
                     ∧ Cli.refused_status (Order.order_status order) = false).
    { split.
      - intros Heq. apply Hstatus. rewrite Heq. left.
      - destruct (Order.order_status order); try done; exfalso; apply Hstatus;
          repeat first [by left | right]. }
    destruct Hguard as [Hnd Hrefused].
    split.
    + rewrite Hres, Hfirst, decide_False, Hrefused by done.
      simpl. fold deducted. by rewrite Hok.
    + subst out deducted. revert Hok.
      unfold Cli.mark_order_delivered, result, effects_of. simpl.
      rewrite Hfirst, decide_False, Hrefused by done.
      destruct (deduct_inventory _ _ _ _ _) as [[[success msg] s'] t'].
      simpl. by intros ->.
Qed.

Lemma mark_order_delivered_drops_deduction_witness :
  let out := Cli.mark_order_delivered never_reserved_db quiet_env "PEND01" in
  result out = Raised ∧
  effects_of out = [CacheInvalidated "Widget"] ∧
  goods (committed (session_after out)) !! "Widget" = Some (Goods.mk 10 0).
Proof.
  destruct (mark_order_delivered_drops_deduction never_reserved_db quiet_env "PEND01")
    as (Hcommitted & _ & Hraised).
  destruct (Hraised (Order.mk 7 100 (Some "PEND01") Status.pending cash None None 1000
                       None None [OrderItem.mk "Widget" 2]))
    as [Hres Heffects].
  - reflexivity.
  - intros Hin. repeat (apply elem_of_cons in Hin as [Hin|Hin]; [done|]).
    by apply elem_of_nil in Hin.
  - reflexivity.
  - split; [exact Hres|]. split; [exact Heffects|]. by rewrite Hcommitted.
Defined.

Lemma admin_refund_bonus_returns env order s :
  csv_sync_raises env (Order.buyer_id order) = false →
  let out := AdminCli.refund_bonus env order s in
  out.1.1 = Returned () ∧
  committed out.1.2 = committed s ∧ ops out.1.2 = ops s ∧
  orders (pending out.1.2) = orders (pending s) ∧
  goods (pending out.1.2) = goods (pending s) ∧
  ∀ buyer, customer_info (pending out.1.2) !! buyer =
    if decide (buyer = Order.buyer_id order)
    then refunded_balance order (customer_info (pending s) !! buyer)
    else customer_info (pending s) !! buyer.
Proof.
  intros Hcsv. unfold AdminCli.refund_bonus, refunded_balance.
  assert (Hsame : ∀ (m : gmap Z CustomerInfo.t) buyer,
            m !! buyer = if decide (buyer = Order.buyer_id order)
                         then m !! buyer else m !! buyer).
  { intros m buyer. by case_decide. }
  destruct (Order.bonus_applied order) as [bonus|]; [|done].
  case_decide; [|done].
  destruct (customer_info (pending s) !! Order.buyer_id order) as [info|] eqn:Hinfo.
  - rewrite Hcsv. simpl. repeat split; try done.
    intros buyer. destruct (decide (buyer = Order.buyer_id order)) as [->|Hne].
    + by rewrite lookup_insert_eq, Hinfo.
    + by rewrite lookup_insert_ne.
  - simpl. repeat split; try done.
    intros buyer. case_decide; [|done]. subst buyer. by rewrite Hinfo.
Qed.

(** X20: cancelling an order from the command line. For an order found by
    its code that is neither canceled nor completed, on a table of distinct
    order ids and with a customer file that can be written: the holds of
    its lines are released (floored at zero), the status becomes canceled,
    the deadline is cleared, a bonus that was applied goes back to the
    balance of the buyer, and all of it is committed once. Cancelling the
    same code again answers that the order is already canceled and changes
    nothing, so the holds are not released twice. *)
Theorem cancel_order_by_code_outcome
    (db : DB) (env : Env) (order_code : string) (order : Order.t) :
  NoDup (Order.id <$> orders db) →
  first_order_by_code order_code (orders db) = Some order →
  Order.order_status order ≠ Status.canceled →
  Order.order_status order ≠ Status.completed →
  csv_sync_raises env (Order.buyer_id order) = false →
  let out := AdminCli.cancel_order_by_code db env order_code in
  let db' := committed (session_after out) in
  result out = Returned AdminCli.Canceled ∧
  ops (session_after out) = [Commit; Close] ∧
  first_order_by_code order_code (orders db') =
    Some (Order.set_order_status Status.canceled
            (Order.set_reserved_until None order)) ∧
  (∀ n, goods db' !! n =
        (λ g, Goods.set_reserved_quantity
                (foldl clamp_sub (Goods.reserved_quantity g)
                   (quantities_for n (lines_of_order_items (Order.items order)))) g)
          <$> goods db !! n) ∧
  customer_info db' !! Order.buyer_id order =
    refunded_balance order (customer_info db !! Order.buyer_id order) ∧
  ∀ env2,
    let again := AdminCli.cancel_order_by_code db' env2 order_code in
    result again = Returned AdminCli.AlreadyCanceled
    ∧ committed (session_after again) = db'.
Proof.
  intros Hnd Hfirst Hnc Hncomp Hcsv out db'.
  assert (Hrow : first_order (Order.id order) (orders db) = Some order).
  { apply first_order_NoDup; [done|]. by eapply first_order_by_code_elem. }
  assert (Hmain :
    result out = Returned AdminCli.Canceled ∧
    ops (session_after out) = [Commit; Close] ∧
    first_order_by_code order_code (orders db') =
      Some (Order.set_order_status Status.canceled
              (Order.set_reserved_until None order)) ∧
    (∀ n, goods db' !! n =
          (λ g, Goods.set_reserved_quantity
                  (foldl clamp_sub (Goods.reserved_quantity g)
                     (quantities_for n (lines_of_order_items (Order.items order)))) g)
            <$> goods db !! n) ∧
    customer_info db' !! Order.buyer_id order =
      refunded_balance order (customer_info db !! Order.buyer_id order)).
  { subst db' out.
    unfold AdminCli.cancel_order_by_code, result, session_after. simpl.
    rewrite Hfirst, !decide_False by done.
    pose proof (release_reservation_in_session db env (Order.id order)
                  "Order canceled by admin" (Database_session db) order Hrow)
      as (_ & Hc1 & Ho1 & Hord1).
    pose proof (release_reservation_rows db env (Order.id order)
                  "Order canceled by admin" (Some (Database_session db)) order Hrow)
      as (_ & _ & Hgoods1).
    assert (Hci1 : customer_info
              (pending (session_after
                 (release_reservation db env (Order.id order)
                    "Order canceled by admin" (Some (Database_session db)))))
              = customer_info db).
    { unfold release_reservation, session_after. simpl. rewrite Hrow.
      pose proof (release_items_done order (Order.id order)
                    "Order canceled by admin" (Order.items order)
                    (Database_session db) []) as (_ & _ & _ & Hci & _).
      destruct (release_items _ _ _ _ _ _) as [s' t']. simpl in *. done. }
    unfold result, session_after in *. simpl in *.
    destruct (release_reservation db env (Order.id order) _ _)
      as [[[success message] s1] released]. simpl in *.
    set (s2 := session_write _ s1).
    pose proof (admin_refund_bonus_returns env order s2 Hcsv)
      as (Hret & Hc2 & Ho2 & Hord2 & Hgoods2 & Hci2).
    destruct (AdminCli.refund_bonus env order s2) as [[outcome s3] refunded].
    simpl in *. subst outcome. simpl.
    split; [done|]. split; [by rewrite Ho2, Ho1|].
    split; [|split].
    - rewrite Hord2. subst s2. simpl. rewrite Hord1.
      apply (first_order_by_code_update order_code
               (Order.set_order_status Status.canceled) _
               (Order.set_reserved_until None order));
        [by rewrite update_order_ids|done|done|].
      by apply first_order_by_code_update.
    - intros n. rewrite Hgoods2. subst s2. simpl. apply Hgoods1.
    - rewrite Hci2, decide_True by done. subst s2. simpl. by rewrite Hci1. }
  destruct Hmain as (Hres & Hops & Hfound & Hgoods & Hbalance).
  clearbody db' out.
  split; [done|]. split; [done|]. split; [done|]. split; [done|].
  split; [done|].
  intros env2 again. subst again.
  unfold AdminCli.cancel_order_by_code, result, session_after.
  cbn [Database_session pending committed session_close fst snd].
  rewrite Hfound. cbn [Order.order_status Order.set_order_status].
  rewrite decide_True by done. done.
Qed.

Lemma sweep_db_ids : NoDup (Order.id <$> orders sweep_db).
Proof. apply (bool_decide_unpack _). vm_compute. reflexivity. Qed.

Lemma cancel_order_by_code_outcome_witness :
  let out := AdminCli.cancel_order_by_code sweep_db quiet_env "SWEEP2" in
  result out = Returned AdminCli.Canceled ∧
  goods (committed (session_after out)) !! "Widget" = Some (Goods.mk 10 2) ∧
  customer_info (committed (session_after out)) !! 201 = Some (CustomerInfo.mk 50).
Proof.
  destruct (cancel_order_by_code_outcome sweep_db quiet_env "SWEEP2" held_order
              sweep_db_ids eq_refl ltac:(done) ltac:(done) eq_refl)
    as (Hres & _ & _ & Hgoods & Hbalance & _).
  split; [exact Hres|]. split.
  - rewrite Hgoods. reflexivity.
  - exact Hbalance.
Defined.

(** X21: the inventory command and the stock. For an item of the
    catalogue: --set stores the given stock, --add raises the stock by the
    quantity, --remove lowers it and is refused, changing nothing, when the
    quantity exceeds the stock, so that a removal never leaves a stock below
    zero. The held count of the item and every other item stay as they
    were. *)
Theorem update_inventory_stock
    (db : DB) (admin_id : Z) (item_name : string) (args : AdminCli.InventoryArgs)
    (item : Goods.t) :
  goods db !! item_name = Some item →
  let out := AdminCli.update_inventory db admin_id item_name args in
  let db' := committed (session_after out) in
  goods db' !! item_name =
    Some (Goods.set_stock_quantity
            match args with
            | AdminCli.ArgSet target => target
            | AdminCli.ArgAdd quantity => Goods.stock_quantity item + quantity
            | AdminCli.ArgRemove quantity =>
                if decide (quantity > Goods.stock_quantity item)
                then Goods.stock_quantity item
                else Goods.stock_quantity item - quantity
            | AdminCli.ArgNone => Goods.stock_quantity item
            end item) ∧
  (∀ quantity, args = AdminCli.ArgRemove quantity →
     if decide (quantity > Goods.stock_quantity item)
     then result out = AdminCli.CannotRemove ∧ db' = db
     else ∃ item', goods db' !! item_name = Some item'
                   ∧ 0 ≤ Goods.stock_quantity item') ∧
  (∀ n, n ≠ item_name → goods db' !! n = goods db !! n).
Proof.
  intros Hitem out db'. subst db' out.
  assert (Hsame : Goods.set_stock_quantity (Goods.stock_quantity item) item = item)
    by by destruct item.
  unfold AdminCli.update_inventory, result, session_after.
  cbn [Database_session pending committed fst snd]. rewrite Hitem.
  destruct args as [target|quantity|quantity|].
  - simpl. rewrite lookup_insert_eq. split; [done|]. split; [done|].
    intros n Hn. by rewrite lookup_insert_ne.
  - unfold add_inventory. simpl. rewrite Hitem. simpl.
    rewrite lookup_insert_eq.
    split; [done|]. split; [done|].
    intros n Hn. by rewrite lookup_insert_ne.
  - destruct (decide (quantity > Goods.stock_quantity item)) as [Hgt|Hle].
    + simpl. rewrite Hitem, Hsame. split; [done|]. split; [|done].
      intros q [= <-]. by rewrite decide_True.
    + simpl. rewrite lookup_insert_eq. split; [done|]. split.
      * intros q [= <-]. rewrite decide_False by done.
        eexists. split; [done|]. simpl. lia.
      * intros n Hn. by rewrite lookup_insert_ne.
  - simpl. rewrite Hitem, Hsame. done.
Qed.

Lemma update_inventory_stock_witness :
  let out := AdminCli.update_inventory widget_db 7 "Widget" (AdminCli.ArgRemove 4) in
  goods (committed (session_after out)) !! "Widget" = Some (Goods.mk 6 0).
Proof.
  exact (proj1 (update_inventory_stock widget_db 7 "Widget" (AdminCli.ArgRemove 4)
                  (Goods.mk 10 0) eq_refl)).
Defined.

(** X22: the inventory command and the audit log. For an item of the
    catalogue, --add commits exactly one 'add' entry with the quantity, the
    administrator and the comment of the command; --set and --remove add
    their 'manual' entry to the session only after their commit, and the
    session is closed without another commit, so the committed audit log is
    the one from before the command although the stock has changed. *)
Theorem update_inventory_audit
    (db : DB) (admin_id : Z) (item_name : string) (args : AdminCli.InventoryArgs)
    (item : Goods.t) :
  goods db !! item_name = Some item →
  let out := AdminCli.update_inventory db admin_id item_name args in
  inventory_log (committed (session_after out)) =
    match args with
    | AdminCli.ArgAdd quantity =>
        inventory_log db ++
          [InventoryLog.mk item_name ct_add quantity None (Some admin_id)
             (Some ("CLI: Added " +:+ pretty quantity +:+ " units"))]
    | _ => inventory_log db
    end.
Proof.
  intros Hitem out. subst out.
  unfold AdminCli.update_inventory, result, session_after.
  cbn [Database_session pending committed fst snd]. rewrite Hitem.
  destruct args as [target|quantity|quantity|].
  - done.
  - unfold add_inventory. simpl. rewrite Hitem. done.
  - by destruct (decide (quantity > Goods.stock_quantity item)).
  - done.
Qed.

Lemma update_inventory_audit_witness :
  let out := AdminCli.update_inventory widget_db 7 "Widget" (AdminCli.ArgSet 25) in
  goods (committed (session_after out)) !! "Widget" = Some (Goods.mk 25 0) ∧
  inventory_log (committed (session_after out)) = inventory_log widget_db.
Proof.
  split; [reflexivity|].
  exact (update_inventory_audit widget_db 7 "Widget" (AdminCli.ArgSet 25)
           (Goods.mk 10 0) eq_refl).
Defined.

(** ** Order codes *)

Lemma string_of_list_ascii_length (l : list ascii) :
  String.length (string_of_list_ascii l) = List.length l.
Proof. induction l as [|c l IH]; simpl; [done|]. by rewrite IH. Qed.

Lemma choice_elem draws n characters :
  characters ≠ [] → OrderCodes.choice draws n characters ∈ characters.
Proof.
  intros Hne. unfold OrderCodes.choice. apply list_elem_of_In, nth_In.
  apply Nat.mod_upper_bound. by destruct characters.
Qed.

(** X23: an order code is six characters long and each of them is one of
    the capital letters A to Z, whatever the random source draws. *)
Theorem generate_order_code_shape (draws : nat → nat) (cursor : nat) :
  String.length (OrderCodes.generate_order_code draws cursor) = 6%nat ∧
  Forall (λ c, c ∈ OrderCodes.ascii_uppercase)
    (list_ascii_of_string (OrderCodes.generate_order_code draws cursor)).
Proof.
  unfold OrderCodes.generate_order_code. split.
  - by rewrite string_of_list_ascii_length, length_fmap, length_seq.
  - rewrite list_ascii_of_string_of_list_ascii. apply Forall_fmap, Forall_forall.
    intros i _. by apply choice_elem.
Qed.

Lemma first_order_by_code_None code rows :
  first_order_by_code code rows = None ↔
  ∀ o, o ∈ rows → Order.order_code o ≠ Some code.
Proof.
  induction rows as [|r rows IH]; simpl.
  - split; [|done]. intros _ o Ho. by apply elem_of_nil in Ho.
  - case_decide as Hcode.
    + split; [done|]. intros Hall. exfalso. apply (Hall r); [left|done].
    + rewrite IH. split.
      * intros Hall o [->| Ho]%elem_of_cons; [done|by apply Hall].
      * intros Hall o Ho. apply Hall. by right.
Qed.

Lemma first_order_by_code_taken code rows existing :
  first_order_by_code code rows = Some existing →
  ∃ o, o ∈ rows ∧ Order.order_code o = Some code.
Proof.
  induction rows as [|r rows IH]; simpl; [done|].
  case_decide as Hcode.
  - intros _. exists r. split; [left|done].
  - intros (o & Ho & Hc)%IH. exists o. split; [by right|done].
Qed.

Lemma unique_code_loop_outcome draws cursor remaining rows :
  match OrderCodes.unique_code_loop draws cursor remaining rows with
  | Returned code =>
      (∀ o, o ∈ rows → Order.order_code o ≠ Some code) ∧
      ∃ k, (k < remaining)%nat ∧
           code = OrderCodes.generate_order_code draws (cursor + 6 * k) ∧
           ∀ j, (j < k)%nat →
             ∃ o, o ∈ rows ∧
                  Order.order_code o =
                    Some (OrderCodes.generate_order_code draws (cursor + 6 * j))
  | Raised =>
      ∀ j, (j < remaining)%nat →
        ∃ o, o ∈ rows ∧
             Order.order_code o =
               Some (OrderCodes.generate_order_code draws (cursor + 6 * j))
  end.
Proof.
  revert cursor. induction remaining as [|remaining IH]; intros cursor.
  - simpl. intros j Hj. lia.
  - cbn [OrderCodes.unique_code_loop].
    destruct (first_order_by_code (OrderCodes.generate_order_code draws cursor) rows)
      as [existing|] eqn:Hfound.
    + apply first_order_by_code_taken in Hfound.
      specialize (IH (cursor + 6)%nat).
      destruct (OrderCodes.unique_code_loop draws (cursor + 6) remaining rows)
        as [code|].
      * destruct IH as (Hfree & k & Hk & Hcode & Hbefore).
        split; [done|]. exists (S k). split; [lia|]. split.
        -- rewrite Hcode. f_equal. lia.
        -- intros [|j] Hj.
           ++ by replace (cursor + 6 * 0)%nat with cursor by lia.
           ++ replace (cursor + 6 * S j)%nat with (cursor + 6 + 6 * j)%nat by lia.
              apply Hbefore. lia.
      * intros [|j] Hj.
        -- by replace (cursor + 6 * 0)%nat with cursor by lia.
        -- replace (cursor + 6 * S j)%nat with (cursor + 6 + 6 * j)%nat by lia.
           apply IH. lia.
    + split; [by apply first_order_by_code_None|].
      exists 0%nat. split; [lia|]. split.
      * f_equal. lia.
      * intros j Hj. lia.
Qed.

(** X24: a unique order code. The function hands back the first of its
    candidate codes that no order of the table carries: the code it returns
    belongs to no order, and every candidate drawn before it was taken. It
    raises only when all of its hundred candidates were taken. The k-th
    candidate is the code made of the draws 6k to 6k+5 of the random
    source; the table is read through the session of the caller when one is
    given. *)
Theorem generate_unique_order_code_outcome
    (db : DB) (draws : nat → nat) (session : option Session) :
  let rows := orders (pending (entry_session db session)) in
  let candidate k := OrderCodes.generate_order_code draws (6 * k) in
  let taken code := ∃ o, o ∈ rows ∧ Order.order_code o = Some code in
  match OrderCodes.generate_unique_order_code db draws session with
  | Returned code =>
      (∀ o, o ∈ rows → Order.order_code o ≠ Some code) ∧
      ∃ k, (k < 100)%nat ∧ code = candidate k ∧
           ∀ j, (j < k)%nat → taken (candidate j)
  | Raised => ∀ j, (j < 100)%nat → taken (candidate j)
  end.
Proof.
  intros rows candidate taken.
  assert (Hloop : OrderCodes.generate_unique_order_code db draws session
                  = OrderCodes.unique_code_loop draws 0 100 rows).
  { subst rows. unfold OrderCodes.generate_unique_order_code, entry_session.
    by destruct session. }
  rewrite Hloop.
  pose proof (unique_code_loop_outcome draws 0 100 rows) as Hout.
  by destruct (OrderCodes.unique_code_loop draws 0 100 rows).
Qed.

(** ** The timeout setting *)

Lemma reserve_inventory_stamp db env order_id items pm order :
  first_order order_id (orders db) = Some order →
  let out := reserve_inventory db env order_id items pm None in
  (result out).1 = true →
  Order.reserved_until <$>
    first_order order_id (orders (committed (session_after out)))
  = Some (Some (now env + 3600 * default 24 (cash_order_timeout_hours db))).
Proof.
  intros Hfirst out. subst out.
  assert (Hhours : ∀ d, timedelta_hours (get_bot_setting_cash_order_timeout_hours d 24)
                        = 3600 * default 24 (cash_order_timeout_hours d)).
  { intros d. unfold timedelta_hours, get_bot_setting_cash_order_timeout_hours.
    destruct (cash_order_timeout_hours d); simpl; lia. }
  open_reserve Hfirst E; try (by simpl).
  - destruct (reserve_items_abort _ _ _ _ _ _ _ _ _ E) as (Hr & _).
    simpl. congruence.
  - apply reserve_items_done in E as (Hc & _ & Hord & _). simpl in *. intros _.
    rewrite !first_order_update by done.
    rewrite !decide_True by done. rewrite Hord, Hfirst, Hc. simpl.
    by rewrite Hhours.
Qed.

(** X25: the timeout setting and the deadline it gives. An answer of the
    administrator that is a whole number from 1 to 168 is stored, and a
    reservation that then succeeds carries the deadline of that many hours
    after the call, hence between one hour and seven days ahead. An answer
    out of that range, or one that is no whole number, is refused and
    changes nothing, so that the reservation carries the deadline of the
    setting stored before, 24 hours when there is none. *)
Theorem process_order_timeout_then_reserve
    (db : DB) (env : Env) (answer : option Z) (order_id : Z)
    (items : list ItemData.t) (pm : option PaymentMethod) (order : Order.t) :
  let set := Settings.process_order_timeout db answer in
  first_order order_id (orders db) = Some order →
  let out := reserve_inventory set.2 env order_id items pm None in
  (result out).1 = true →
  let before := default 24 (cash_order_timeout_hours db) in
  let hours :=
    match answer with
    | Some h => if decide (h < 1 ∨ h > 168) then before else h
    | None => before
    end in
  Order.reserved_until <$>
    first_order order_id (orders (committed (session_after out)))
  = Some (Some (now env + 3600 * hours)) ∧
  match answer with
  | Some h =>
      if decide (h < 1 ∨ h > 168) then set = (Settings.InvalidRange, db)
      else set.1 = Settings.Updated h ∧
           now env + 3600 ≤ now env + 3600 * hours ≤ now env + 7 * 86400
  | None => set = (Settings.InvalidNumber, db)
  end.
Proof.
  intros set Hfirst out Hok before hours.
  assert (Horders : orders set.2 = orders db).
  { subst set. unfold Settings.process_order_timeout.
    destruct answer as [h|]; [|done]. by case_decide. }
  pose proof (reserve_inventory_stamp set.2 env order_id items pm order) as Hstamp.
  rewrite Horders in Hstamp. specialize (Hstamp Hfirst Hok).
  fold out in Hstamp. rewrite Hstamp. clear Hstamp Hok out.
  subst hours before set. unfold Settings.process_order_timeout.
  destruct answer as [h|]; [|done].
  destruct (decide (h < 1 ∨ h > 168)) as [Hbad|Hgood]; [done|].
  simpl. split; [done|]. split; [done|]. lia.
Qed.

Lemma process_order_timeout_then_reserve_witness :
  let set := Settings.process_order_timeout widget_db (Some 48) in
  let out := reserve_inventory set.2 quiet_env 1 [ItemData.mk "Widget" 10] None None in
  Order.reserved_until <$>
    first_order 1 (orders (committed (session_after out)))
  = Some (Some (1000 + 3600 * 48)).
Proof.
  exact (proj1 (process_order_timeout_then_reserve widget_db quiet_env (Some 48) 1
                  [ItemData.mk "Widget" 10] None
                  (Order.mk 1 100 (Some "ECBDJI") Status.pending cash None None 5000
                     None None [OrderItem.mk "Widget" 10])
                  eq_refl eq_refl)).
Defined.
